(** * YouTube downloader: transcript selection, subtitle writing, progress
      parsing and session control

    A shallow embedding of the logic of [youtube_downloader_v1.0.0_en.py],
    [youtube_downloader_v1.0.0_kr.py] and [youtube_downloader_v1.0.1_kr.py].

    Conventions of the embedding.
    - Python [str] values are [string]s holding the UTF-8 bytes of the text;
      the progress strings, file names and language codes handled here are
      ASCII, on which the regular expression class [\d] is [0-9].  Localised
      status messages are the UTF-8 bytes of the source text, and
      [str.strip] removes the white space of Unicode, whatever its length
      in bytes.
    - A finite Python [float] is modelled by the rational it denotes.  The
      arithmetic of the time stamps is that of binary64: every operation
      rounds its exact result to the nearest binary64 value
      ([Float64.round64]); infinities, NaN and overflow are outside the
      model.  The number [float] reads from a progress string is kept as
      the decimal written.
    - A raised exception is a value of [PyExc]; code that can raise lives in
      the monad [M], which threads the observable state of the application
      ([World]) and either a result or the exception in flight.
    - The collaborators (transcript provider, metadata lookup, media
      downloader, file system, clock) are the fields of [Env]. *)

From Stdlib Require Import String Ascii List Bool Arith ZArith.
From Stdlib Require Import QArith Qround Qabs Qpower Lia Lqa.
From Stdlib Require Import Numbers.DecimalString Numbers.DecimalN.
From Equations Require Import Equations.
Import ListNotations.

Open Scope string_scope.

(** ** Characters and strings *)

Module PyStr.

Definition ESC : ascii := "027"%char.
Definition LF : ascii := "010"%char.

Definition is_digit (c : ascii) : bool :=
  let n := nat_of_ascii c in (48 <=? n)%nat && (n <=? 57)%nat.

Definition is_dot (c : ascii) : bool := (c =? ".")%char.

(** [str.isspace] on the ASCII range: TAB..CR, FS..US and the space. *)
Definition is_space (c : ascii) : bool :=
  let n := nat_of_ascii c in
  ((9 <=? n)%nat && (n <=? 13)%nat) || ((28 <=? n)%nat && (n <=? 32)%nat).

(** The white space of Unicode beyond ASCII, by its UTF-8 bytes: U+0085 and
    U+00A0 take two bytes; U+1680, U+2000..U+200A, U+2028, U+2029, U+202F,
    U+205F and U+3000 take three. *)
Definition is_space2 (a b : ascii) : bool :=
  (nat_of_ascii a =? 194)%nat &&
  ((nat_of_ascii b =? 133)%nat || (nat_of_ascii b =? 160)%nat).

Definition is_space3 (a b c : ascii) : bool :=
  let '(x, y, z) := (nat_of_ascii a, nat_of_ascii b, nat_of_ascii c) in
  ((x =? 225) && (y =? 154) && (z =? 128))%nat ||
  ((x =? 226) && (y =? 128) &&
   (((128 <=? z) && (z <=? 138)) || (z =? 168) || (z =? 169) || (z =? 175)))%nat ||
  ((x =? 226) && (y =? 129) && (z =? 159))%nat ||
  ((x =? 227) && (y =? 128) && (z =? 128))%nat.

Fixpoint filter (p : ascii -> bool) (s : string) : string :=
  match s with
  | EmptyString => EmptyString
  | String c r => if p c then String c (filter p r) else filter p r
  end.

Fixpoint forallb (p : ascii -> bool) (s : string) : bool :=
  match s with
  | EmptyString => true
  | String c r => p c && forallb p r
  end.

Fixpoint map (f : ascii -> ascii) (s : string) : string :=
  match s with
  | EmptyString => EmptyString
  | String c r => String (f c) (map f r)
  end.

(** [s.lstrip()]: white-space characters of one, two or three bytes are
    dropped from the front. *)
Fixpoint lstrip (s : string) : string :=
  match s with
  | EmptyString => EmptyString
  | String a r =>
      if is_space a then lstrip r
      else
        match r with
        | String b r2 =>
            if is_space2 a b then lstrip r2
            else
              match r2 with
              | String c r3 => if is_space3 a b c then lstrip r3 else s
              | EmptyString => s
              end
        | EmptyString => s
        end
  end.

(** [s.rstrip()]: the text is cut at the first place from which everything
    to the end is white space. *)
Fixpoint rstrip (s : string) : string :=
  match s with
  | EmptyString => EmptyString
  | String c r =>
      match lstrip s with
      | EmptyString => EmptyString
      | _ => String c (rstrip r)
      end
  end.

(** [s.strip()] *)
Definition strip (s : string) : string := rstrip (lstrip s).

(** [s.replace('\n', ' ')] *)
Definition replace_newlines (s : string) : string :=
  map (fun c => if (c =? LF)%char then " "%char else c) s.

(** [str(n)] for a natural number. *)
Definition str_nat (n : nat) : string := NilEmpty.string_of_uint (Nat.to_uint n).

Fixpoint zeros (n : nat) : string :=
  match n with
  | O => EmptyString
  | S k => String "0" (zeros k)
  end.

(** The format specification [{n:0w}] applied to an integer: the sign first,
    then zeros up to the width [w], then the decimal digits. *)
Definition fmt_int0 (w : nat) (n : Z) : string :=
  let ds := NilEmpty.string_of_uint (N.to_uint (Z.abs_N n)) in
  let sign := if (n <? 0)%Z then "-" else "" in
  sign ++ zeros (w - String.length sign - String.length ds) ++ ds.

(** [sep.join(l)] *)
Fixpoint join (sep : string) (l : list string) : string :=
  match l with
  | [] => ""
  | [x] => x
  | x :: r => x ++ sep ++ join sep r
  end.

End PyStr.

(** ** Exceptions *)

Inductive ExcKind : Type :=
| ValueError
| TypeError
| NoTranscriptFound
| OSError
| LibraryError.   (* any other [Exception] raised by a collaborator *)

Record PyExc : Type := mkExc { exc_kind : ExcKind; exc_msg : string }.

Definition is_NoTranscriptFound (e : PyExc) : bool :=
  match exc_kind e with NoTranscriptFound => true | _ => false end.

Definition is_ValueError (e : PyExc) : bool :=
  match exc_kind e with ValueError => true | _ => false end.

Definition is_inl_ValueError {A : Type} (r : PyExc + A) : bool :=
  match r with inl e => is_ValueError e | inr _ => false end.

(** ** Numbers *)

Module PyNum.

Open Scope Q_scope.

(** [int(x)] on a number: truncation toward zero. *)
Definition py_int (x : Q) : Z :=
  if Qle_bool 0 x then Qfloor x else Qceiling x.

(** Splits a numeral at its first decimal point. *)
Fixpoint split_dot (s : string) : string * option string :=
  match s with
  | EmptyString => (EmptyString, None)
  | String c r =>
      if PyStr.is_dot c then (EmptyString, Some r)
      else let (a, b) := split_dot r in (String c a, b)
  end.

Fixpoint digits_to_N (acc : N) (s : string) : option N :=
  match s with
  | EmptyString => Some acc
  | String c r =>
      if PyStr.is_digit c
      then digits_to_N (10 * acc + (N_of_ascii c - 48))%N r
      else None
  end.

Definition pow10 (k : nat) : positive := Nat.iter k (Pos.mul 10) 1%positive.

(** [float(s)] for a string [s] over the alphabet of digits and the decimal
    point, which is all that [extract_percent] passes to it
    (see [keep_digits_dots_alphabet]).  On that alphabet [float] accepts
    [digits], [digits.], [digits.digits] and [.digits], and raises
    [ValueError] on everything else (empty string, lone point, two points). *)
Definition py_float (s : string) : PyExc + Q :=
  let (ip, fp) := split_dot s in
  let fp' := match fp with Some f => f | None => EmptyString end in
  match (ip ++ fp')%string with
  | EmptyString => inl (mkExc ValueError ("could not convert string to float: " ++ s))
  | ds =>
      match digits_to_N 0 ds with
      | Some n => inr (Qred (Z.of_N n # pow10 (String.length fp')))
      | None => inl (mkExc ValueError ("could not convert string to float: " ++ s))
      end
  end.

End PyNum.

(** ** Binary64 arithmetic *)

Module Float64.

Open Scope Q_scope.

Definition pow2 (e : Z) : Q := 2 ^ e.

(** The exponent of the leading bit of [q > 0]: [2^l <= q < 2^(l+1)]. *)
Definition ilog2 (q : Q) : Z :=
  let l := (Z.log2 (Qnum q) - Z.log2 (Z.pos (Qden q)))%Z in
  if Qle_bool (pow2 l) q then l else (l - 1)%Z.

(** The exponent of the unit in the last place of a value of magnitude
    [q]: 53 significant bits, and no exponent below that of the subnormal
    numbers. *)
Definition ulp_exp (q : Q) : Z := Z.max (ilog2 q - 52) (-1074).

(** The nearest integer, a tie going to the even one. *)
Definition round_half_even (q : Q) : Z :=
  let f := Qfloor q in
  match Qcompare (q - inject_Z f) (1 # 2) with
  | Lt => f
  | Gt => (f + 1)%Z
  | Eq => if Z.even f then f else (f + 1)%Z
  end.

(** The binary64 value nearest to [q] (round to nearest, ties to even), as
    the hardware delivers it after each operation. *)
Definition round64 (q : Q) : Q :=
  let q := Qred q in
  if Qeq_bool q 0 then 0
  else
    let e := ulp_exp (Qabs q) in
    Qred (inject_Z (round_half_even (q / pow2 e)) * pow2 e).

(** The rationals that are binary64 values. *)
Definition is_binary64 (q : Q) : bool := Qeq_bool (round64 q) q.

Definition fadd (x y : Q) : Q := round64 (x + y).
Definition fsub (x y : Q) : Q := round64 (x - y).
Definition fmul (x y : Q) : Q := round64 (x * y).
Definition fdiv (x y : Q) : Q := round64 (x / y).

(** C's [fmod]: [x] less the multiple of [y] given by the truncated
    quotient; the result is exact. *)
Definition fmod (x y : Q) : Q := x - inject_Z (PyNum.py_int (x / y)) * y.

(** C's [floor] *)
Definition ffloor (x : Q) : Q := inject_Z (Qfloor x).

(** The conversion of an [int] operand to [float]. *)
Definition of_int (n : Z) : Q := round64 (inject_Z n).

Definition Qlt_bool (x y : Q) : bool := negb (Qle_bool y x).

(** [divmod(vx, wx)] on floats, for [wx <> 0]: the steps of CPython's
    [float_divmod] ([_float_div_mod] in [Objects/floatobject.c]).  The sign
    of a zero result is not modelled. *)
Definition float_divmod (vx wx : Q) : Q * Q :=
  let mod_ := fmod vx wx in
  let div := fdiv (fsub vx mod_) wx in
  let '(mod_, div) :=
    if negb (Qeq_bool mod_ 0) then
      if negb (Bool.eqb (Qlt_bool wx 0) (Qlt_bool mod_ 0))
      then (fadd mod_ wx, fsub div 1)
      else (mod_, div)
    else (0, div) in
  let floordiv :=
    if negb (Qeq_bool div 0) then
      let floordiv := ffloor div in
      if Qlt_bool (1 # 2) (fsub div floordiv) then fadd floordiv 1 else floordiv
    else 0 in
  (floordiv, mod_).

End Float64.

(** ** Progress Signal Adapter *)

Module Progress.

Import PyStr PyNum.

Definition is_sgr_param (c : ascii) : bool := is_digit c || (c =? ";")%char.

(** The greedy [[0-9;]*] of the pattern: drops the longest run of parameter
    characters. *)
Fixpoint skip_sgr_params (s : string) : string :=
  match s with
  | String c r => if is_sgr_param c then skip_sgr_params r else s
  | EmptyString => EmptyString
  end.

(** A match of [\x1b\[[0-9;]*m] anchored at the head of [s]; the result is
    what follows the match.  The character after the run of parameters must
    be [m]; giving back parameters cannot help, since [m] is not one. *)
Definition match_sgr (s : string) : option string :=
  match s with
  | String e (String b r) =>
      if ((e =? ESC)%char && (b =? "[")%char)%bool then
        match skip_sgr_params r with
        | String m r' => if (m =? "m")%char then Some r' else None
        | EmptyString => None
        end
      else None
  | _ => None
  end.

Definition inspect {A : Type} (a : A) : { b : A | a = b } := exist _ a eq_refl.

(** [re.sub(r'\x1b\[[0-9;]*m', '', s)]: scanning from the left, a match at
    the current position is deleted and the scan resumes after it; otherwise
    the current character is kept. *)
Equations? sub_sgr (s : string) : string by wf (String.length s) lt :=
  sub_sgr EmptyString := EmptyString;
  sub_sgr (String c r) with inspect (match_sgr (String c r)) := {
    | exist _ (Some r') H := sub_sgr r';
    | exist _ None _ := String c (sub_sgr r) }.
Proof.
  assert (Hskip : forall t, (String.length (skip_sgr_params t) <= String.length t)%nat).
  { induction t as [|a t IH]; simpl; [lia|].
    destruct (is_sgr_param a); simpl; lia. }
  destruct r as [|b t]; [discriminate|].
  destruct ((c =? ESC)%char && (b =? "[")%char)%bool; [|discriminate].
  specialize (Hskip t).
  destruct (skip_sgr_params t) as [|m r'']; [discriminate|].
  destruct (m =? "m")%char; [|discriminate].
  injection H as <-. simpl in *. lia.
Qed.

(** [re.sub(r'[^\d.]', '', s)] *)
Definition keep_digits_dots (s : string) : string :=
  PyStr.filter (fun c => is_digit c || is_dot c) s.

(** [extract_percent]: only [ValueError] is handled. *)
Definition extract_percent (percent_str : string) : PyExc + Q :=
  let clean_str := sub_sgr percent_str in
  let clean_str := keep_digits_dots clean_str in
  match py_float clean_str with
  | inr v => inr v
  | inl e => if is_ValueError e then inr 0%Q else inl e
  end.

End Progress.

(** ** Subtitle writer *)

Module Subtitle.

Import PyStr PyNum Float64.

(** One caption entry of a fetched transcript: [entry['start']],
    [entry.get('duration', 0)] and [entry['text']].  The provider parses
    [start] and [duration] with [float]: they are binary64 values. *)
Record Entry : Type := mkEntry {
  start : Q;
  duration : option Q;
  text : string
}.

(** [format_time] *)
Definition format_time (seconds : Q) : string :=
  let '(hours, remainder) := float_divmod seconds 3600 in
  let '(minutes, seconds) := float_divmod remainder 60 in
  let milliseconds := py_int (fmul (fsub seconds (of_int (py_int seconds))) 1000) in
  fmt_int0 2 (py_int hours) ++ ":" ++ fmt_int0 2 (py_int minutes) ++ ":" ++
  fmt_int0 2 (py_int seconds) ++ "," ++ fmt_int0 3 milliseconds.

Definition NL : string := String LF EmptyString.

(** The text written for entry number [i] (counted from 0 by [enumerate]). *)
Definition srt_block (i : nat) (entry : Entry) : string :=
  let start := start entry in
  let duration := match duration entry with Some d => d | None => 0%Q end in
  let end_ := fadd start duration in
  let text := replace_newlines (text entry) in
  str_nat (i + 1) ++ NL ++ format_time start ++ " --> " ++ format_time end_ ++ NL ++
  text ++ NL ++ NL.

(** [for i, entry in enumerate(transcript_data): file.write(...)];
    [file] is what has been written so far. *)
Fixpoint write_srt (i : nat) (transcript_data : list Entry) (file : string) : string :=
  match transcript_data with
  | [] => file
  | entry :: rest => write_srt (S i) rest (file ++ srt_block i entry)
  end.

(** [for entry in transcript_data: file.write(entry['text'] + '\n')] *)
Fixpoint write_txt (transcript_data : list Entry) (file : string) : string :=
  match transcript_data with
  | [] => file
  | entry :: rest => write_txt rest (file ++ text entry ++ NL)
  end.

(** The body of the [with open(...)] block: the content of the new file. *)
Definition caption_file_content (is_srt : bool) (transcript_data : list Entry) : string :=
  if is_srt then write_srt 0 transcript_data EmptyString
  else write_txt transcript_data EmptyString.

End Subtitle.

(** ** Collaborators and observable state *)

(** One track of the transcript provider.  [fetch_result] is what
    [transcript.fetch()] yields for it. *)
Record Transcript : Type := mkTranscript {
  language_code : string;
  is_generated : bool;
  is_translatable : bool;
  fetch_result : PyExc + list Subtitle.Entry
}.

(** The provider's [TranscriptList]: manually created tracks and generated
    tracks, each kept in the provider's order. *)
Record TranscriptList : Type := mkTranscriptList {
  manually_created : list Transcript;
  generated : list Transcript
}.

Inductive Mode : Type := video | audio.

(** A progress notification handed to a hook by the media downloader. *)
Inductive HookEvent : Type :=
| Downloading (percent_str : string)
| Finished
| OtherStatus.

(** The options dictionary given to the media downloader. *)
Record YdlOpts : Type := mkYdlOpts {
  opt_format : string;
  opt_outtmpl : string;
  opt_merge_output_format : string;
  opt_ffmpeg_location : string;
  opt_extract_audio : option (string * string)   (* preferred codec, quality *)
}.

(** What one run of the downloader does: the notifications it sends to the
    hook, the files it leaves on disk, and the exception it ends with. *)
Record YdlRun : Type := mkYdlRun {
  run_events : list HookEvent;
  run_files : list (string * string);
  run_error : option PyExc
}.

Record DateTime : Type := mkDateTime {
  dt_year : nat; dt_month : nat; dt_day : nat; dt_hour : nat; dt_minute : nat
}.

Record Env : Type := mkEnv {
  list_transcripts : string -> PyExc + TranscriptList;
  translate : Transcript -> string -> PyExc + Transcript;
  yt_title : string -> PyExc + string;         (* [YouTube(url).title] *)
  ydl_download : YdlOpts -> string -> YdlRun;  (* [YoutubeDL(opts).download([url])] *)
  can_open : string -> bool;                   (* [open(path, 'w')] succeeds *)
  path_join : string -> string -> string;      (* [os.path.join] *)
  now : DateTime                               (* [datetime.now()] *)
}.

(** A call made to a collaborator over the network. *)
Inductive Call : Type :=
| CallTitle (url : string)
| CallListTranscripts (video_id : string)
| CallTranslate (t : Transcript) (lang : string)
| CallFetch (t : Transcript)
| CallDownload (opts : YdlOpts) (url : string).

(** What an observer of the application sees. *)
Record World : Type := mkWorld {
  status_log : list string;            (* every [update_status], oldest first *)
  caption_progress_var : Q;
  video_progress_var : Q;
  audio_progress_var : Q;
  files : list (string * string);      (* files written, oldest first *)
  calls : list Call                    (* collaborator calls, oldest first *)
}.

(** The label shown in the status bar. *)
Definition status (w : World) : option string := last (List.map Some (status_log w)) None.

(** The widgets the code reads. *)
Inductive Language : Type := Korean | English | AllLanguages.

Record App : Type := mkApp {
  url_entry : string;
  title_var : string;
  download_path : string;
  resolution_var : string;
  sub_check : bool;
  srt_check : bool;
  video_check : bool;
  audio_check : bool;
  language_var : Language     (* v1.0.1: a read-only three-valued drop-down *)
}.

(** ** The monad of the embedding *)

Definition M (A : Type) : Type := World -> (PyExc + A) * World.

Definition ret {A : Type} (a : A) : M A := fun w => (inr a, w).

Definition bind {A B : Type} (m : M A) (k : A -> M B) : M B :=
  fun w => match m w with
           | (inr a, w') => k a w'
           | (inl e, w') => (inl e, w')
           end.

Definition raise {A : Type} (e : PyExc) : M A := fun w => (inl e, w).

(** [try: m  except <p> as e: h e] *)
Definition try_except {A : Type} (m : M A) (p : PyExc -> bool) (h : PyExc -> M A) : M A :=
  fun w => match m w with
           | (inl e, w') => if p e then h e w' else (inl e, w')
           | r => r
           end.

Definition any_exception (e : PyExc) : bool := true.

Definition lift {A : Type} (r : PyExc + A) : M A := fun w => (r, w).

Definition modify (f : World -> World) : M unit := fun w => (inr tt, f w).

Declare Scope py_scope.
Delimit Scope py_scope with py.
Notation "x <- m ;; k" := (bind m (fun x => k))
  (at level 61, m at next level, right associativity) : py_scope.
Notation "m ;; k" := (bind m (fun _ => k))
  (at level 61, right associativity) : py_scope.
Open Scope py_scope.

Definition set_status_log (l : list string) (w : World) : World :=
  mkWorld l (caption_progress_var w) (video_progress_var w) (audio_progress_var w)
          (files w) (calls w).
Definition set_caption_progress (q : Q) (w : World) : World :=
  mkWorld (status_log w) q (video_progress_var w) (audio_progress_var w)
          (files w) (calls w).
Definition set_video_progress (q : Q) (w : World) : World :=
  mkWorld (status_log w) (caption_progress_var w) q (audio_progress_var w)
          (files w) (calls w).
Definition set_audio_progress (q : Q) (w : World) : World :=
  mkWorld (status_log w) (caption_progress_var w) (video_progress_var w) q
          (files w) (calls w).
Definition set_files (f : list (string * string)) (w : World) : World :=
  mkWorld (status_log w) (caption_progress_var w) (video_progress_var w)
          (audio_progress_var w) f (calls w).
Definition set_calls (c : list Call) (w : World) : World :=
  mkWorld (status_log w) (caption_progress_var w) (video_progress_var w)
          (audio_progress_var w) (files w) c.

(** [self.update_status(message)] *)
Definition update_status (message : string) : M unit :=
  modify (fun w => set_status_log (status_log w ++ [message]) w).

Definition log_call (c : Call) : M unit :=
  modify (fun w => set_calls (calls w ++ [c]) w).

Definition write_files (l : list (string * string)) : M unit :=
  modify (fun w => set_files (files w ++ l) w).

(** [with open(path, 'w', encoding='utf-8') as file: ...] where the body
    writes [content]. *)
Definition open_write (env : Env) (path content : string) : M unit :=
  if can_open env path then write_files [(path, content)]
  else raise (mkExc OSError ("cannot open " ++ path)).

(** ** The transcript provider's lookups *)

Module Provider.

Definition has_language (code : string) (t : Transcript) : bool :=
  String.eqb (language_code t) code.

(** The first track with one of the codes, the codes tried in order and,
    for each code, the groups of tracks tried in order. *)
Fixpoint lookup (groups : list (list Transcript)) (codes : list string) : option Transcript :=
  match codes with
  | [] => None
  | code :: rest =>
      match List.find (has_language code) (List.concat groups) with
      | Some t => Some t
      | None => lookup groups rest
      end
  end.

Definition not_found (codes : list string) : PyExc :=
  mkExc NoTranscriptFound ("No transcripts were found for any of the requested language codes: " ++ PyStr.join ", " codes).

(** [find_transcript]: manually created tracks take precedence over
    generated ones. *)
Definition find_transcript (tl : TranscriptList) (codes : list string) : PyExc + Transcript :=
  match lookup [manually_created tl; generated tl] codes with
  | Some t => inr t
  | None => inl (not_found codes)
  end.

(** [find_generated_transcript] *)
Definition find_generated_transcript (tl : TranscriptList) (codes : list string) : PyExc + Transcript :=
  match lookup [generated tl] codes with
  | Some t => inr t
  | None => inl (not_found codes)
  end.

(** [iter(available_transcripts)] *)
Definition iter (tl : TranscriptList) : list Transcript :=
  manually_created tl ++ generated tl.

(** What CPython (3.10 and later) says when the constructor of the
    library's [NoTranscriptFound] is given the video id alone. *)
Definition missing_arguments : string :=
  "NoTranscriptFound.__init__() missing 2 required positional arguments: 'requested_language_codes' and 'transcript_data'".

(** [NoTranscriptFound(video_id)]: the constructor takes the video id, the
    requested language codes and the transcript data, so the call with one
    argument raises [TypeError] and no [NoTranscriptFound] comes to
    exist. *)
Definition NoTranscriptFound_of (video_id : string) : PyExc + PyExc :=
  inl (mkExc TypeError missing_arguments).

End Provider.

(** ** Code shared by the three revisions *)

Section Shared.

Variable env : Env.
Variable app : App.

Definition truthy (s : string) : bool :=
  match s with EmptyString => false | _ => true end.

Definition call_list_transcripts (video_id : string) : M TranscriptList :=
  log_call (CallListTranscripts video_id) ;; lift (list_transcripts env video_id).

Definition call_translate (t : Transcript) (lang : string) : M Transcript :=
  log_call (CallTranslate t lang) ;; lift (translate env t lang).

Definition call_fetch (t : Transcript) : M (list Subtitle.Entry) :=
  log_call (CallFetch t) ;; lift (fetch_result t).

Definition call_title (url : string) : M string :=
  log_call (CallTitle url) ;; lift (yt_title env url).

(** [strftime('%y%m%d_%H%M')] *)
Definition strftime_ymd_hm (d : DateTime) : string :=
  let two n := PyStr.fmt_int0 2 (Z.of_nat n) in
  two (dt_year d mod 100)%nat ++ two (dt_month d) ++ two (dt_day d) ++ "_" ++
  two (dt_hour d) ++ two (dt_minute d).

(** [get_safe_filename]; the bare [except:] catches everything. *)
Definition get_safe_filename (url video_id : string) : M string :=
  if truthy (PyStr.strip (title_var app)) then ret (PyStr.strip (title_var app))
  else
    try_except
      (title <- call_title url ;; ret title)
      any_exception
      (fun _ => let current_time := strftime_ymd_hm (now env) in
                ret ("download_" ++ current_time)).

(** The callback returned by [progress_hook(mode)]. *)
Definition progress_hook (mode : Mode) (d : HookEvent) : M unit :=
  match d with
  | Downloading percent_str =>
      percent <- lift (Progress.extract_percent percent_str) ;;
      match mode with
      | video => modify (set_video_progress percent)
      | audio => modify (set_audio_progress percent)
      end
  | Finished =>
      match mode with
      | video => modify (set_video_progress 100)
      | audio => modify (set_audio_progress 100)
      end
  | OtherStatus => ret tt
  end.

Fixpoint for_each {A : Type} (f : A -> M unit) (l : list A) : M unit :=
  match l with
  | [] => ret tt
  | x :: r => f x ;; for_each f r
  end.

(** [with yt_dlp.YoutubeDL(ydl_opts) as ydl: ydl.download([url])] with
    [hook] registered in [progress_hooks]. *)
Definition run_ydl (ydl_opts : YdlOpts) (url : string) (hook : HookEvent -> M unit) : M unit :=
  log_call (CallDownload ydl_opts url) ;;
  let r := ydl_download env ydl_opts url in
  for_each hook (run_events r) ;;
  write_files (run_files r) ;;
  match run_error r with
  | Some e => raise e
  | None => ret tt
  end.

Definition mode_ext (mode : Mode) : string :=
  match mode with video => "mp4" | audio => "mp3" end.

Definition mode_name (mode : Mode) : string :=
  match mode with video => "video" | audio => "audio" end.

(** [self.resolution_var.get().replace('p', '')] *)
Definition resolution : string :=
  PyStr.filter (fun c => negb (c =? "p")%char) (resolution_var app).

Definition ydl_format (mode : Mode) : string :=
  match mode with
  | video => "bv*[height<=" ++ resolution ++ "]+ba/b[height<=" ++ resolution ++ "]"
  | audio => "bestaudio/best"
  end.

(** The text after the last occurrence of [v=]: [url.split("v=")[-1]]. *)
Fixpoint after_last_v (s : string) : option string :=
  match s with
  | EmptyString => None
  | String c r =>
      match after_last_v r with
      | Some t => Some t
      | None =>
          match s with
          | String "v" (String "=" t) => Some t
          | _ => None
          end
      end
  end.

(** The text before the first [&]: [s.split("&")[0]]. *)
Fixpoint before_amp (s : string) : string :=
  match s with
  | EmptyString => EmptyString
  | String c r => if (c =? "&")%char then EmptyString else String c (before_amp r)
  end.

(** [url.split("v=")[-1].split("&")[0]] *)
Definition video_id_of (url : string) : string :=
  before_amp (match after_last_v url with Some t => t | None => url end).

End Shared.

(** ** Revision 1.0.0 (English and Korean texts) *)

Record Locale : Type := mkLocale {
  msg_no_subtitles : string;
  msg_subtitle_failed : string;
  msg_enter_url : string;
  msg_select_options : string;
  msg_all_completed : string;
  msg_error : string
}.

Definition locale_en : Locale :=
  mkLocale "No available subtitles found."
           "Subtitle download failed: "
           "Please enter a URL."
           "Please select download options."
           "All downloads completed!"
           "Error occurred: ".

Definition locale_kr : Locale :=
  mkLocale "사용 가능한 자막이 없습니다."
           "자막 다운로드 실패: "
           "URL을 입력해주세요."
           "다운로드 옵션을 선택해주세요."
           "모든 다운로드가 완료되었습니다!"
           "오류 발생: ".

Module V100.

Section Revision.

Variable loc : Locale.
Variable env : Env.
Variable app : App.

(** The nested [try]/[except] that picks the track: [None] stands for the
    Python [None] left in [transcript]. *)
Definition select_transcript (available_transcripts : TranscriptList) : M (option Transcript) :=
  try_except
    (t <- lift (Provider.find_transcript available_transcripts ["ko"; "en"; "ja"]) ;;
     ret (Some t))
    is_NoTranscriptFound
    (fun _ =>
       try_except
         (t <- lift (Provider.find_generated_transcript available_transcripts ["ja"; "en"]) ;;
          ret (Some t))
         any_exception
         (fun _ => ret (hd_error (Provider.iter available_transcripts)))).

(** [download_caption] *)
Definition download_caption (video_id url safe_title : string) (is_srt : bool) : M unit :=
  try_except
    (available_transcripts <- call_list_transcripts env video_id ;;
     transcript <- select_transcript available_transcripts ;;
     match transcript with
     | None =>
         e <- lift (Provider.NoTranscriptFound_of (msg_no_subtitles loc)) ;;
         raise e
     | Some transcript =>
         transcript <- (if is_translatable transcript
                        then call_translate env transcript "en"
                        else ret transcript) ;;
         transcript_data <- call_fetch transcript ;;
         let file_ext := if is_srt then "srt" else "txt" in
         let file_path :=
           path_join env (download_path app) (safe_title ++ "." ++ file_ext) in
         open_write env file_path (Subtitle.caption_file_content is_srt transcript_data) ;;
         modify (set_caption_progress 100)
     end)
    any_exception
    (fun e => update_status (msg_subtitle_failed loc ++ exc_msg e)).

(** [download_video_audio] *)
Definition download_video_audio (url safe_title : string) (mode : Mode) : M unit :=
  let file_ext := mode_ext mode in
  let ffmpeg_path := "C:/ffmpeg/bin" in
  let ydl_opts :=
    mkYdlOpts (ydl_format app mode)
              (path_join env (download_path app) (safe_title ++ "." ++ file_ext))
              file_ext ffmpeg_path None in
  run_ydl env ydl_opts url (progress_hook mode).

(** The worker started by [start_download]. *)
Definition run_tasks (tasks : list (M unit)) : M unit :=
  try_except
    (for_each (fun task => task) tasks ;;
     update_status (msg_all_completed loc))
    any_exception
    (fun e => update_status (msg_error loc ++ exc_msg e)).

(** [start_download]; the worker thread is run to its end. *)
Definition start_download : M unit :=
  let url := url_entry app in
  if negb (truthy url) then update_status (msg_enter_url loc)
  else
    let video_id := video_id_of url in
    safe_title <- get_safe_filename env app url video_id ;;
    let tasks :=
      ((if sub_check app
        then [download_caption video_id url safe_title (srt_check app)] else []) ++
       (if video_check app then [download_video_audio url safe_title video] else []) ++
       (if audio_check app then [download_video_audio url safe_title audio] else []))%list in
    match tasks with
    | [] => update_status (msg_select_options loc)
    | _ => run_tasks tasks
    end.

End Revision.

End V100.

(** ** Revision 1.0.1 *)

Module V101.

Definition msg_downloading : string := "자막 다운로드 중...".
Definition msg_no_korean : string := "한국어 자막이 없어 다운로드 하지 못했습니다.".
Definition msg_no_english : string := "영어 자막이 없어 다운로드 하지 못했습니다.".
Definition msg_none_found : string := "자막을 찾을 수 없어 다운로드 하지 못했습니다.".
Definition msg_caption_failed : string := "자막 다운로드 실패: ".
Definition msg_done_suffix : string := " 자막 다운로드 완료".
Definition msg_media_failed : string := " 다운로드 실패: ".
Definition msg_enter_url : string := "URL을 입력해주세요.".
Definition msg_select_options : string := "다운로드 옵션을 선택해주세요.".
Definition msg_all_completed : string := "모든 다운로드가 완료되었습니다!".
Definition msg_partly_completed : string := "일부 다운로드가 완료되었습니다.".
Definition msg_error : string := "오류 발생: ".

Definition name_korean : string := "한국어".
Definition name_english : string := "영어".
Definition name_auto_english : string := "영어 자동생성".

Definition Language_eqb (a b : Language) : bool :=
  match a, b with
  | Korean, Korean | English, English | AllLanguages, AllLanguages => true
  | _, _ => false
  end.

Section Revision.

Variable env : Env.
Variable app : App.

(** [save_caption_to_file] *)
Definition save_caption_to_file (transcript_data : list Subtitle.Entry)
    (file_path : string) (is_srt : bool) (suffix : string) : M string :=
  let file_ext := if is_srt then "srt" else "txt" in
  let full_path := file_path ++ suffix ++ "." ++ file_ext in
  open_write env full_path (Subtitle.caption_file_content is_srt transcript_data) ;;
  ret full_path.

(** The Korean block of [download_caption]; the result is
    [downloaded_subtitles] after the block. *)
Definition korean_block (available_transcripts : TranscriptList)
    (selected_language : Language) (file_path : string) (is_srt : bool)
    (downloaded_subtitles : list string) : M (list string) :=
  if existsb (Language_eqb selected_language) [Korean; AllLanguages] then
    try_except
      (ko_transcript <- lift (Provider.find_transcript available_transcripts ["ko"]) ;;
       ko_data <- call_fetch ko_transcript ;;
       save_caption_to_file ko_data file_path is_srt "_kr" ;;
       ret (downloaded_subtitles ++ [name_korean])%list)
      any_exception
      (fun _ =>
         (if Language_eqb selected_language Korean
          then update_status msg_no_korean else ret tt) ;;
         ret downloaded_subtitles)
  else ret downloaded_subtitles.

(** The English block of [download_caption]. *)
Definition english_block (available_transcripts : TranscriptList)
    (selected_language : Language) (file_path : string) (is_srt : bool)
    (downloaded_subtitles : list string) : M (list string) :=
  if existsb (Language_eqb selected_language) [English; AllLanguages] then
    try_except
      (en_transcript <- lift (Provider.find_transcript available_transcripts ["en"]) ;;
       en_data <- call_fetch en_transcript ;;
       save_caption_to_file en_data file_path is_srt "_en" ;;
       ret (downloaded_subtitles ++ [name_english])%list)
      any_exception
      (fun _ =>
         try_except
           (auto_en_transcript <-
              lift (Provider.find_generated_transcript available_transcripts ["en"]) ;;
            auto_en_data <- call_fetch auto_en_transcript ;;
            save_caption_to_file auto_en_data file_path is_srt "_auto_en" ;;
            ret (downloaded_subtitles ++ [name_auto_english])%list)
           any_exception
           (fun _ =>
              (if Language_eqb selected_language English
               then update_status msg_no_english else ret tt) ;;
              ret downloaded_subtitles))
  else ret downloaded_subtitles.

(** [download_caption] *)
Definition download_caption (video_id url safe_title : string) (is_srt : bool) : M bool :=
  try_except
    (update_status msg_downloading ;;
     available_transcripts <- call_list_transcripts env video_id ;;
     let selected_language := language_var app in
     let file_path := path_join env (download_path app) safe_title in
     let downloaded_subtitles := [] in
     downloaded_subtitles <-
       korean_block available_transcripts selected_language file_path is_srt
                    downloaded_subtitles ;;
     downloaded_subtitles <-
       english_block available_transcripts selected_language file_path is_srt
                     downloaded_subtitles ;;
     match downloaded_subtitles with
     | first :: _ =>
         (if (List.length downloaded_subtitles =? 1)%nat
          then update_status (first ++ msg_done_suffix)
          else update_status (PyStr.join " 및 " downloaded_subtitles ++ msg_done_suffix)) ;;
         modify (set_caption_progress 100) ;;
         ret true
     | [] =>
         if Language_eqb selected_language AllLanguages then
           update_status msg_none_found ;;
           modify (set_caption_progress 0) ;;
           ret false
         else
           modify (set_caption_progress 0) ;;
           ret false
     end)
    any_exception
    (fun e =>
       let error_msg := exc_msg e in
       update_status (msg_caption_failed ++ error_msg) ;;
       modify (set_caption_progress 0) ;;
       ret false).

(** [download_video_audio] *)
Definition download_video_audio (url safe_title : string) (mode : Mode) : M bool :=
  try_except
    (let file_ext := mode_ext mode in
     let output_filename := path_join env (download_path app) (safe_title ++ ".%(ext)s") in
     let ffmpeg_path := "C:/ffmpeg/bin" in
     let ydl_opts :=
       mkYdlOpts (ydl_format app mode) output_filename file_ext ffmpeg_path
                 (match mode with audio => Some ("mp3", "192") | video => None end) in
     run_ydl env ydl_opts url (progress_hook mode) ;;
     ret true)
    any_exception
    (fun e =>
       let error_msg := exc_msg e in
       update_status (mode_name mode ++ msg_media_failed ++ error_msg) ;;
       ret false).

(** The keys of the dictionaries [success] and [options_selected], in
    insertion order. *)
Inductive Opt : Type := caption | video_opt | audio_opt.

Definition Opt_eqb (a b : Opt) : bool :=
  match a, b with
  | caption, caption | video_opt, video_opt | audio_opt, audio_opt => true
  | _, _ => false
  end.

Definition keys : list Opt := [caption; video_opt; audio_opt].

(** [d[k] = v] *)
Definition setitem (d : Opt -> bool) (k : Opt) (v : bool) : Opt -> bool :=
  fun k' => if Opt_eqb k' k then v else d k'.

Definition options_selected : Opt -> bool :=
  fun opt => match opt with
             | caption => sub_check app
             | video_opt => video_check app
             | audio_opt => audio_check app
             end.

(** The summary at the end of [run_tasks], after the three tasks. *)
Definition summarize (success : Opt -> bool) : M unit :=
  let only_caption_failed :=
    options_selected caption && negb (success caption) &&
    negb (options_selected video_opt) && negb (options_selected audio_opt) in
  if negb only_caption_failed then
    let all_selected_succeeded :=
      forallb success (List.filter options_selected keys) in
    if all_selected_succeeded then update_status msg_all_completed
    else
      let has_other_success :=
        existsb success
                (List.filter (fun opt => options_selected opt && negb (Opt_eqb opt caption))
                             keys) in
      if has_other_success then update_status msg_partly_completed
      else ret tt
  else ret tt.

(** The three tasks of [run_tasks]; the result is [success] after them. *)
Definition run_selected (video_id url safe_title : string) : M (Opt -> bool) :=
  let success := fun _ : Opt => false in
  success <-
    (if options_selected caption
     then ok <- download_caption video_id url safe_title (srt_check app) ;;
          ret (setitem success caption ok)
     else ret success) ;;
  success <-
    (if options_selected video_opt
     then ok <- download_video_audio url safe_title video ;;
          ret (setitem success video_opt ok)
     else ret success) ;;
  success <-
    (if options_selected audio_opt
     then ok <- download_video_audio url safe_title audio ;;
          ret (setitem success audio_opt ok)
     else ret success) ;;
  ret success.

(** The worker started by [start_download]. *)
Definition run_tasks (video_id url safe_title : string) : M unit :=
  try_except
    (success <- run_selected video_id url safe_title ;;
     summarize success)
    any_exception
    (fun e => update_status (msg_error ++ exc_msg e)).

(** [start_download]; the worker thread is run to its end. *)
Definition start_download : M unit :=
  let url := url_entry app in
  if negb (truthy url) then update_status msg_enter_url
  else
    let video_id := video_id_of url in
    safe_title <- get_safe_filename env app url video_id ;;
    if negb (existsb options_selected keys)
    then update_status msg_select_options
    else run_tasks video_id url safe_title.

End Revision.

End V101.

(** ** Settings store *)

Module Config.

Definition DQUOTE : ascii := "034"%char.
Definition BACKSLASH : ascii := "092"%char.

Definition CONFIG_FILE : string := "youtube_downloader_config.json".

Definition hex_digit (n : nat) : ascii :=
  nth n ["0"; "1"; "2"; "3"; "4"; "5"; "6"; "7"; "8"; "9";
         "a"; "b"; "c"; "d"; "e"; "f"]%char "0"%char.

(** The replacement of one character by [json.encoder.encode_basestring]
    (the encoder used with [ensure_ascii=False]): the backslash, the double
    quote and the characters below 0x20 are escaped, with the short forms
    for BS, FF, LF, CR and TAB and [\u00xx] for the others. *)
Definition escape_char (c : ascii) : string :=
  let n := nat_of_ascii c in
  let esc x := String BACKSLASH (String x EmptyString) in
  if (c =? BACKSLASH)%char then esc BACKSLASH
  else if (c =? DQUOTE)%char then esc DQUOTE
  else if (n =? 8)%nat then esc "b"%char
  else if (n =? 12)%nat then esc "f"%char
  else if (n =? 10)%nat then esc "n"%char
  else if (n =? 13)%nat then esc "r"%char
  else if (n =? 9)%nat then esc "t"%char
  else if (n <? 32)%nat then
    String BACKSLASH
      (String "u" (String "0" (String "0"
        (String (hex_digit (n / 16)) (String (hex_digit (n mod 16)) EmptyString)))))
  else String c EmptyString.

Fixpoint escape (s : string) : string :=
  match s with
  | EmptyString => EmptyString
  | String c r => escape_char c ++ escape r
  end.

(** A string as [json.dump] writes it. *)
Definition json_string (s : string) : string :=
  String DQUOTE (escape s ++ String DQUOTE EmptyString).

(** [json.dump({'download_path': path}, f, ensure_ascii=False, indent=2)]:
    what ends up in the file. *)
Definition config_json (path : string) : string :=
  "{" ++ Subtitle.NL ++ "  " ++ json_string "download_path" ++ ": " ++ json_string path ++
  Subtitle.NL ++ "}".

Section Store.

Variable env : Env.
Variable app : App.
Variable msg_save_failed : string.   (* the text before the exception in the console line *)

(** [save_config]; the result is the line printed on the console, if any. *)
Definition save_config : M (option string) :=
  try_except
    (let config := config_json (download_path app) in
     open_write env CONFIG_FILE config ;;
     ret None)
    any_exception
    (fun e => ret (Some (msg_save_failed ++ exc_msg e))).

End Store.

End Config.

(** * Definitions used to state the properties *)

Module ProgressSpec.

Import PyStr PyNum Progress.

(** A progress string as the downloader builds it: colour sequences, the
    characters of the number, and other text that holds no digit, no
    decimal point and no escape character. *)
Inductive Piece : Type :=
| Sgr (params : string)
| NumChar (c : ascii)
| Plain (c : ascii).

Definition piece_ok (p : Piece) : bool :=
  match p with
  | Sgr params => PyStr.forallb is_sgr_param params
  | NumChar c => is_digit c || is_dot c
  | Plain c => negb (is_digit c) && negb (is_dot c) && negb (c =? ESC)%char
  end.

Definition render_piece (p : Piece) : string :=
  match p with
  | Sgr params => String ESC (String "[" (params ++ "m"))
  | NumChar c => String c EmptyString
  | Plain c => String c EmptyString
  end.

Fixpoint render (l : list Piece) : string :=
  match l with
  | [] => EmptyString
  | p :: r => render_piece p ++ render r
  end.

(** The number the string shows: its [NumChar] characters in order. *)
Fixpoint number_of (l : list Piece) : string :=
  match l with
  | [] => EmptyString
  | NumChar c :: r => String c (number_of r)
  | _ :: r => number_of r
  end.

(** The colour-coded sample of the specification, [ESC[0;32m 37.5%ESC[0m]. *)
Definition sample_37_5 : string :=
  String ESC "[0;32m" ++ " 37.5%" ++ String ESC "[0m".

Definition sample_pieces : list Piece :=
  [Sgr "0;32"; Plain " "; NumChar "3"; NumChar "7"; NumChar "."; NumChar "5";
   Plain "%"; Sgr "0"].

End ProgressSpec.

Module TimeSpec.

Import PyStr PyNum Subtitle.

Open Scope Q_scope.

Definition frac (x : Q) : Q := x - inject_Z (Qfloor x).

(** The fields of the time stamp of [seconds], from its whole part. *)
Definition hours_of (seconds : Q) : Z := (Qfloor seconds / 3600)%Z.
Definition minutes_of (seconds : Q) : Z := (Qfloor seconds mod 3600 / 60)%Z.
Definition seconds_of (seconds : Q) : Z := (Qfloor seconds mod 60)%Z.

(** The milliseconds: the fraction times 1000, a binary64 product, cut to
    a whole number. *)
Definition millis_of (seconds : Q) : Z := Qfloor (Float64.fmul (frac seconds) 1000).

(** [2^53]: below it binary64 holds every whole number of seconds. *)
Definition two53 : Q := 9007199254740992.

(** [float(s)] for a decimal [s] denoting [q], as the provider reads the
    times of an entry. *)
Definition float_of (q : Q) : Q := Float64.round64 q.

End TimeSpec.

Module SrtSpec.

Import PyStr Subtitle.

(** The cue block of the entry with sequence number [n]: the number, the
    time range from [start] to [start + duration], the text on one line and
    an empty line. *)
Definition cue_block (n : nat) (entry : Entry) : string :=
  let d := match duration entry with Some d => d | None => 0%Q end in
  str_nat n ++ NL ++
  format_time (start entry) ++ " --> " ++ format_time (Float64.fadd (start entry) d) ++ NL ++
  replace_newlines (text entry) ++ NL ++
  NL.

(** The cue blocks of a list of entries, numbered from [n]. *)
Fixpoint cue_blocks (n : nat) (entries : list Entry) : list string :=
  match entries with
  | [] => []
  | e :: r => cue_block n e :: cue_blocks (S n) r
  end.

Definition hi_bye : list Entry :=
  [mkEntry 0 (Some 2%Q) "Hi"; mkEntry 2 (Some 3%Q) "Bye"].

End SrtSpec.

Module FilenameSpec.

Definition clock0 : DateTime := mkDateTime 2025 2 20 9 5.

(** An environment whose metadata lookup gives [title]. *)
Definition env_title (title : PyExc + string) : Env :=
  mkEnv (fun _ => inl (mkExc LibraryError "transcripts disabled"))
        (fun t _ => inr t)
        (fun _ => title)
        (fun _ _ => mkYdlRun [] [] None)
        (fun _ => true)
        (fun a b => a ++ "/" ++ b)
        clock0.

Definition app_title (title : string) : App :=
  mkApp "https://www.youtube.com/watch?v=abc&t=1" title "/tmp" "1080p"
        false false false false Korean.

Definition world0 : World := mkWorld [] 0 0 0 [] [].

(** U+00A0 (no-break space) and U+3000 (ideographic space), in UTF-8. *)
Definition nbsp : string :=
  String (ascii_of_nat 194) (String (ascii_of_nat 160) EmptyString).
Definition ideographic_space : string :=
  String (ascii_of_nat 227) (String (ascii_of_nat 128) (String (ascii_of_nat 128) EmptyString)).

End FilenameSpec.

Module GuardSpec.

(** No transcript is listed, translated or fetched and no media download
    is started. *)
Definition is_download_work (c : Call) : bool :=
  match c with
  | CallTitle _ => false
  | _ => true
  end.

(** What a start with no option selected leaves behind when it begins in
    [w] and reports [message]: one more status line, the same files, the
    same progress values, and at most a title lookup among the calls. *)
Definition refused_with (message : string) (w w' : World) : Prop :=
  status_log w' = (status_log w ++ [message])%list /\
  status w' = Some message /\
  files w' = files w /\
  (exists lookups, calls w' = (calls w ++ lookups)%list /\
                   List.existsb is_download_work lookups = false) /\
  caption_progress_var w' = caption_progress_var w /\
  video_progress_var w' = video_progress_var w /\
  audio_progress_var w' = audio_progress_var w.

Definition app_no_option : App :=
  mkApp "https://www.youtube.com/watch?v=abc" "" "/tmp" "1080p"
        false false false false Korean.

End GuardSpec.

Module SelectSpec.

Import Provider.

Definition by_language (code : string) (tracks : list Transcript) : option Transcript :=
  List.find (has_language code) tracks.

Fixpoint first_some {A : Type} (l : list (option A)) : option A :=
  match l with
  | [] => None
  | Some a :: _ => Some a
  | None :: r => first_some r
  end.

(** The selection policy in the words of the specification: the exact
    languages ko, en, ja in that order; then a generated track in ja, en;
    then whatever track comes first. *)
Definition select_spec (tl : TranscriptList) : option Transcript :=
  first_some
    [ by_language "ko" (iter tl); by_language "en" (iter tl); by_language "ja" (iter tl);
      by_language "ja" (generated tl); by_language "en" (generated tl);
      hd_error (iter tl) ].



(** The track whose entries are fetched once [t] is chosen. *)
Definition fetched_track (env : Env) (t : Transcript) : PyExc + Transcript :=
  if is_translatable t then translate env t "en" else inr t.

Definition caption_path (env : Env) (app : App) (safe_title : string) (is_srt : bool) : string :=
  path_join env (download_path app) (safe_title ++ "." ++ (if is_srt then "srt" else "txt")).

Definition track_ko : Transcript :=
  mkTranscript "ko" false true (inr [Subtitle.mkEntry 0 (Some 2%Q) "Hi"]).
Definition track_en_auto : Transcript := mkTranscript "en" true true (inr []).
Definition english_of (t : Transcript) : Transcript :=
  mkTranscript "en" true false (fetch_result t).

(** A provider with a Korean track and a generated English one. *)
Definition env_ko_en : Env :=
  mkEnv (fun _ => inr (mkTranscriptList [track_ko] [track_en_auto]))
        (fun t _ => inr (english_of t))
        (fun _ => inr "Clip")
        (fun _ _ => mkYdlRun [] [] None)
        (fun _ => true)
        (fun a b => a ++ "/" ++ b)
        FilenameSpec.clock0.

End SelectSpec.

Module MultiSpec.

Import Provider V101.

(** Whether the track found is fetched and its file created. *)
Definition saved (env : Env) (found : PyExc + Transcript) (path : string) : bool :=
  match found with
  | inr t => match fetch_result t with
             | inr _ => can_open env path
             | inl _ => false
             end
  | inl _ => false
  end.

Section Outcome.

Variable env : Env.
Variable tl : TranscriptList.
Variable file_path : string.
Variable is_srt : bool.

Definition ext : string := if is_srt then "srt" else "txt".

Definition korean_ok : bool :=
  saved env (find_transcript tl ["ko"]) (file_path ++ "_kr" ++ "." ++ ext).
Definition english_ok : bool :=
  saved env (find_transcript tl ["en"]) (file_path ++ "_en" ++ "." ++ ext).
Definition auto_english_ok : bool :=
  saved env (find_generated_transcript tl ["en"]) (file_path ++ "_auto_en" ++ "." ++ ext).

Definition wants_korean (l : Language) : bool :=
  match l with Korean | AllLanguages => true | English => false end.
Definition wants_english (l : Language) : bool :=
  match l with English | AllLanguages => true | Korean => false end.

(** The names collected in [downloaded_subtitles]. *)
Definition names_korean (l : Language) : list string :=
  if wants_korean l && korean_ok then [name_korean] else [].
Definition names_english (l : Language) : list string :=
  if wants_english l then
    if english_ok then [name_english]
    else if auto_english_ok then [name_auto_english] else []
  else [].
Definition names (l : Language) : list string :=
  (names_korean l ++ names_english l)%list.

(** The status lines of the two blocks. *)
Definition complaint_korean (l : Language) : list string :=
  if Language_eqb l Korean && negb korean_ok then [msg_no_korean] else [].
Definition complaint_english (l : Language) : list string :=
  if Language_eqb l English && negb english_ok && negb auto_english_ok
  then [msg_no_english] else [].

(** The closing status line. *)
Definition closing (l : Language) : list string :=
  match names l with
  | [] => if Language_eqb l AllLanguages then [msg_none_found] else []
  | [x] => [x ++ msg_done_suffix]
  | x :: y => [PyStr.join " 및 " (x :: y) ++ msg_done_suffix]
  end.

End Outcome.

(** What a block of [download_caption] does to the world: status lines and
    files are only added, the other fields stay. *)
Definition extends (w w1 : World) (lines : list string) (nfiles : nat) : Prop :=
  status_log w1 = (status_log w ++ lines)%list /\
  (exists added, files w1 = (files w ++ added)%list /\ List.length added = nfiles) /\
  video_progress_var w1 = video_progress_var w /\
  audio_progress_var w1 = audio_progress_var w.

Section Caption.

Variable env : Env.
Variable app : App.
Variables video_id url safe_title : string.
Variable is_srt : bool.

Definition base_path : string := path_join env (download_path app) safe_title.

(** Everything [download_caption] shows in the status bar when the listing
    gave [tl]. *)
Definition lines (tl : TranscriptList) : list string :=
  let l := language_var app in
  (msg_downloading ::
   complaint_korean env tl base_path is_srt l ++
   complaint_english env tl base_path is_srt l ++
   closing env tl base_path is_srt l)%list.

Definition written (tl : TranscriptList) : list string :=
  names env tl base_path is_srt (language_var app).

(** The status lines [download_caption] adds, whatever the listing gives. *)
Definition shown : list string :=
  match list_transcripts env video_id with
  | inr tl => lines tl
  | inl e => [msg_downloading; msg_caption_failed ++ exc_msg e]
  end.

End Caption.

Definition app_all : App :=
  mkApp "https://www.youtube.com/watch?v=abc" "Clip" "/tmp" "1080p"
        true true false false AllLanguages.

(** A provider with a single, generated, English track. *)
Definition env_en_only : Env :=
  mkEnv (fun _ => inr (mkTranscriptList [] [SelectSpec.track_en_auto]))
        (fun t _ => inr t)
        (fun _ => inr "Clip")
        (fun _ _ => mkYdlRun [] [] None)
        (fun _ => true)
        (fun a b => a ++ "/" ++ b)
        FilenameSpec.clock0.

End MultiSpec.

Module SessionSpec.

Import V101 MultiSpec.

(** A status line that reports a failure of the caption task. *)
Definition is_caption_failure (m : string) : Prop :=
  m = msg_no_korean \/ m = msg_no_english \/ m = msg_none_found \/
  exists detail, m = (msg_caption_failed ++ detail)%string.

Section Session.

Variable env : Env.
Variable app : App.
Variables video_id url safe_title : string.

Definition selected : Opt -> bool := options_selected app.

(** No aggregate line: captions alone were selected and failed. *)
Definition only_caption_failed (success : Opt -> bool) : Prop :=
  selected caption = true /\ success caption = false /\
  selected video_opt = false /\ selected audio_opt = false.

Definition all_selected_succeeded (success : Opt -> bool) : Prop :=
  forall opt, selected opt = true -> success opt = true.

Definition has_other_success (success : Opt -> bool) : Prop :=
  exists opt, opt <> caption /\ selected opt = true /\ success opt = true.

Definition say (m : string) (w : World) : World :=
  set_status_log (status_log w ++ [m]) w.

(** The caption task succeeds: the tracks are listed and a file is
    written. *)
Definition caption_ok : bool :=
  match list_transcripts env video_id with
  | inr tl => match written env app safe_title (srt_check app) tl with
              | [] => false
              | _ => true
              end
  | inl _ => false
  end.

(** The options the media task of [mode] hands to the downloader. *)
Definition media_opts (mode : Mode) : YdlOpts :=
  mkYdlOpts (ydl_format app mode)
            (path_join env (download_path app) (safe_title ++ ".%(ext)s"))
            (mode_ext mode) "C:/ffmpeg/bin"
            (match mode with audio => Some ("mp3", "192") | video => None end).

(** The media task of [mode] succeeds: the downloader ends without an
    error. *)
Definition media_ok (mode : Mode) : bool :=
  match run_error (ydl_download env (media_opts mode) url) with
  | None => true
  | Some _ => false
  end.

(** How each task ends when it is run. *)
Definition outcome (opt : Opt) : bool :=
  match opt with
  | caption => caption_ok
  | video_opt => media_ok video
  | audio_opt => media_ok audio
  end.

End Session.

(** The provider refuses to list the tracks of the video. *)
Definition env_disabled : Env :=
  mkEnv (fun _ => inl (mkExc LibraryError "Subtitles are disabled for this video"))
        (fun t _ => inr t)
        (fun _ => inr "Clip")
        (fun _ _ => mkYdlRun [] [] None)
        (fun _ => true)
        (fun a b => a ++ "/" ++ b)
        FilenameSpec.clock0.

(** The provider lists no track at all. *)
Definition env_no_tracks : Env :=
  mkEnv (fun _ => inr (mkTranscriptList [] []))
        (fun t _ => inr t)
        (fun _ => inr "Clip")
        (fun _ _ => mkYdlRun [] [] None)
        (fun _ => true)
        (fun a b => a ++ "/" ++ b)
        FilenameSpec.clock0.

Definition app_caption_only : App :=
  mkApp "https://www.youtube.com/watch?v=abc" "Clip" "/tmp" "1080p"
        true false false false Korean.

End SessionSpec.

Module HookSpec.

(** The gauge a hook of [mode] drives, and the one it must leave alone. *)
Definition gauge (mode : Mode) (w : World) : Q :=
  match mode with video => video_progress_var w | audio => audio_progress_var w end.
Definition other_gauge (mode : Mode) (w : World) : Q :=
  match mode with video => audio_progress_var w | audio => video_progress_var w end.

(** Everything but the gauge of [mode] is as before. *)
Definition hook_frame (mode : Mode) (w w' : World) : Prop :=
  status_log w' = status_log w /\ files w' = files w /\ calls w' = calls w /\
  caption_progress_var w' = caption_progress_var w /\
  other_gauge mode w' = other_gauge mode w.

Definition world_at (v a : Q) : World := mkWorld [] 0 v a [] [].

End HookSpec.

Module MediaSpec.

(** The formats of the media downloads among the calls, oldest first. *)
Fixpoint download_formats (cs : list Call) : list string :=
  match cs with
  | [] => []
  | CallDownload opts _ :: r => opt_format opts :: download_formats r
  | _ :: r => download_formats r
  end.

Definition succeeded (r : YdlRun) : bool :=
  match run_error r with None => true | Some _ => false end.

(** The status line of a failed media download of revision 1.0.1. *)
Definition failure_lines (mode : Mode) (r : YdlRun) : list string :=
  match run_error r with
  | Some e => [(mode_name mode ++ V101.msg_media_failed ++ exc_msg e)%string]
  | None => []
  end.

(** A downloader that fails on video formats and succeeds on audio. *)
Definition env_video_fails : Env :=
  mkEnv (fun _ => inr (mkTranscriptList [] []))
        (fun t _ => inr t)
        (fun _ => inr "Clip")
        (fun opts _ =>
           if String.eqb (opt_format opts) "bestaudio/best"
           then mkYdlRun [Finished] [("/tmp/Clip.mp3", "audio")] None
           else mkYdlRun [Downloading " 12.0%"] []
                         (Some (mkExc LibraryError "ERROR: network unreachable")))
        (fun _ => true)
        (fun a b => a ++ "/" ++ b)
        FilenameSpec.clock0.

Definition app_media : App :=
  mkApp "https://www.youtube.com/watch?v=abc" "Clip" "/tmp" "1080p"
        false false true true Korean.

End MediaSpec.

Module PathSpec.

Import MultiSpec.

Section Paths.

Variable env : Env.
Variable tl : TranscriptList.
Variable file_path : string.
Variable is_srt : bool.

(** The path [save_caption_to_file] builds for a suffix. *)
Definition full_path (suffix : string) : string :=
  file_path ++ suffix ++ "." ++ ext is_srt.

(** The paths of the files the Korean and the English block write. *)
Definition korean_paths (l : Language) : list string :=
  if wants_korean l && korean_ok env tl file_path is_srt then [full_path "_kr"] else [].
Definition english_paths (l : Language) : list string :=
  if wants_english l then
    if english_ok env tl file_path is_srt then [full_path "_en"]
    else if auto_english_ok env tl file_path is_srt then [full_path "_auto_en"] else []
  else [].

End Paths.

(** What a piece of [download_caption] adds to the calls and to the files:
    no media download among the calls, and files at the given paths. *)
Definition adds (w w1 : World) (paths : list string) : Prop :=
  (exists cs, calls w1 = (calls w ++ cs)%list /\ MediaSpec.download_formats cs = []) /\
  (exists fs, files w1 = (files w ++ fs)%list /\ List.map fst fs = paths).

End PathSpec.

Module OrderSpec.

Import MediaSpec.

(** A task of the worker: it comes back, and the media formats it asked
    for are [formats]. *)
Definition attempts {A : Type} (task : M A) (formats : list string) : Prop :=
  forall w, exists a w' cs,
    task w = (inr a, w') /\ calls w' = (calls w ++ cs)%list /\
    download_formats cs = formats.

End OrderSpec.

Module UrlSpec.

Definition starts_v_eq (s : string) : bool :=
  match s with
  | String a (String b _) => (a =? "v")%char && (b =? "=")%char
  | _ => false
  end.

(** The text [v=] occurs somewhere in [s]. *)
Fixpoint has_v_eq (s : string) : bool :=
  match s with
  | EmptyString => false
  | String c r => starts_v_eq (String c r) || has_v_eq r
  end.

Definition no_amp (s : string) : bool :=
  PyStr.forallb (fun c => negb (c =? "&")%char) s.

(** Nothing, or parameters introduced by [&]. *)
Definition is_query_tail (s : string) : bool :=
  match s with
  | EmptyString => true
  | String c _ => (c =? "&")%char
  end.

End UrlSpec.

Module LinesSpec.

Import PyStr Subtitle.

Definition no_LF (s : string) : bool :=
  PyStr.forallb (fun c => negb (c =? LF)%char) s.

Fixpoint count_LF (s : string) : nat :=
  match s with
  | EmptyString => 0
  | String c r => (if (c =? LF)%char then 1 else 0) + count_LF r
  end.

(** The lines of a text, as a reader that ends a line at each newline sees
    them. *)
Fixpoint split_lines (s : string) : list string :=
  match s with
  | EmptyString => []
  | String c r =>
      if (c =? LF)%char then EmptyString :: split_lines r
      else match split_lines r with
           | [] => [String c EmptyString]
           | l :: ls => String c l :: ls
           end
  end.

(** The four lines of a cue: number, time range, text, empty line. *)
Definition cue_lines (n : nat) (e : Entry) : list string :=
  [ str_nat n;
    format_time (start e) ++ " --> " ++
    format_time (Float64.fadd (start e) match duration e with Some d => d | None => 0%Q end);
    replace_newlines (text e);
    EmptyString ].

Fixpoint all_cue_lines (n : nat) (entries : list Entry) : list string :=
  match entries with
  | [] => []
  | e :: r => (cue_lines n e ++ all_cue_lines (S n) r)%list
  end.

Fixpoint total_LF (entries : list Entry) : nat :=
  match entries with
  | [] => 0
  | e :: r => count_LF (text e) + total_LF r
  end.

End LinesSpec.

Module StampSpec.

(** A run of decimal digits read as a number. *)
Definition read_number (s : string) : option Z :=
  match NilEmpty.uint_of_string s with
  | Some d => Some (Z.of_N (N.of_uint d))
  | None => None
  end.

(** The text before the first [sep] and the text after it. *)
Fixpoint split_at (sep : ascii) (s : string) : option (string * string) :=
  match s with
  | EmptyString => None
  | String c r =>
      if (c =? sep)%char then Some (EmptyString, r)
      else match split_at sep r with
           | Some (a, b) => Some (String c a, b)
           | None => None
           end
  end.

(** A reader of [H:M:S,m] time stamps: hours, minutes, seconds and
    milliseconds. *)
Definition parse_stamp (s : string) : option (Z * Z * Z * Z) :=
  match split_at ":" s with
  | Some (h, r1) =>
      match split_at ":" r1 with
      | Some (m, r2) =>
          match split_at "," r2 with
          | Some (sec, ms) =>
              match read_number h, read_number m, read_number sec, read_number ms with
              | Some a, Some b, Some c, Some d => Some (a, b, c, d)
              | _, _, _, _ => None
              end
          | None => None
          end
      | None => None
      end
  | None => None
  end.

(** The instant a parsed stamp denotes, in milliseconds. *)
Definition stamp_millis (f : Z * Z * Z * Z) : Z :=
  let '(h, m, s, ms) := f in ((3600 * h + 60 * m + s) * 1000 + ms)%Z.

End StampSpec.

Module ConfigSpec.

Import Config.

Definition hex_value (c : ascii) : option nat :=
  let n := nat_of_ascii c in
  if ((48 <=? n) && (n <=? 57))%nat then Some (n - 48)%nat
  else if ((97 <=? n) && (n <=? 102))%nat then Some (n - 87)%nat
  else if ((65 <=? n) && (n <=? 70))%nat then Some (n - 55)%nat
  else None.

(** The character a two-character JSON escape stands for. *)
Definition short_escape (x : ascii) : option ascii :=
  if (x =? DQUOTE)%char then Some DQUOTE
  else if (x =? BACKSLASH)%char then Some BACKSLASH
  else if (x =? "/")%char then Some "/"%char
  else if (x =? "b")%char then Some (ascii_of_nat 8)
  else if (x =? "f")%char then Some (ascii_of_nat 12)
  else if (x =? "n")%char then Some (ascii_of_nat 10)
  else if (x =? "r")%char then Some (ascii_of_nat 13)
  else if (x =? "t")%char then Some (ascii_of_nat 9)
  else None.

(** A reader of the inside of a JSON string, up to its closing quote: the
    text it denotes and what follows the quote.  A bare control character
    is refused, as the JSON grammar demands. *)
Fixpoint read_body (s : string) : option (string * string) :=
  match s with
  | EmptyString => None
  | String c r =>
      if (c =? DQUOTE)%char then Some (EmptyString, r)
      else if (c =? BACKSLASH)%char then
        match r with
        | EmptyString => None
        | String x r1 =>
            if (x =? "u")%char then
              match r1 with
              | String h1 (String h2 (String h3 (String h4 r2))) =>
                  match hex_value h1, hex_value h2, hex_value h3, hex_value h4,
                        read_body r2 with
                  | Some 0%nat, Some 0%nat, Some a, Some b, Some (d, rest) =>
                      Some (String (ascii_of_nat (16 * a + b)) d, rest)
                  | _, _, _, _, _ => None
                  end
              | _ => None
              end
            else
              match short_escape x, read_body r1 with
              | Some ch, Some (d, rest) => Some (String ch d, rest)
              | _, _ => None
              end
        end
      else if (nat_of_ascii c <? 32)%nat then None
      else match read_body r with
           | Some (d, rest) => Some (String c d, rest)
           | None => None
           end
  end.

Definition read_json_string (s : string) : option (string * string) :=
  match s with
  | String c r => if (c =? DQUOTE)%char then read_body r else None
  | EmptyString => None
  end.

Fixpoint strip_prefix (p s : string) : option string :=
  match p, s with
  | EmptyString, _ => Some s
  | String a p', String b s' => if (a =? b)%char then strip_prefix p' s' else None
  | String _ _, EmptyString => None
  end.

(** A reader of the settings file in the layout [save_config] writes: the
    value stored under [download_path]. *)
Definition read_config (content : string) : option string :=
  match strip_prefix ("{" ++ Subtitle.NL ++ "  ") content with
  | Some r =>
      match read_json_string r with
      | Some (key, r1) =>
          if String.eqb key "download_path" then
            match strip_prefix ": " r1 with
            | Some r2 =>
                match read_json_string r2 with
                | Some (v, r3) =>
                    if String.eqb r3 (Subtitle.NL ++ "}") then Some v else None
                | None => None
                end
            | None => None
            end
          else None
      | None => None
      end
  | None => None
  end.

Definition printable (c : ascii) : bool := (32 <=? nat_of_ascii c)%nat.

(** What the settings file may hold: no control character but the newline. *)
Definition written_char (c : ascii) : bool := printable c || (c =? PyStr.LF)%char.

(** A download path with a quote, a backslash, a tab and a newline in it. *)
Definition app_tricky_path : App :=
  mkApp "" ""
        (String "C" (String ":" (String BACKSLASH (String "a" (String DQUOTE
           (String "b" (String (ascii_of_nat 9) (String PyStr.LF "c"))))))))
        "1080p" false false false false Korean.

(** The settings file cannot be created. *)
Definition env_read_only : Env :=
  mkEnv (fun _ => inr (mkTranscriptList [] []))
        (fun t _ => inr t)
        (fun _ => inr "Clip")
        (fun _ _ => mkYdlRun [] [] None)
        (fun _ => false)
        (fun a b => a ++ "/" ++ b)
        FilenameSpec.clock0.

End ConfigSpec.

Module PathSamples.

Definition track_ko_plain : Transcript :=
  mkTranscript "ko" false false (inr [Subtitle.mkEntry 0 (Some 2%Q) "Hi"]).
Definition track_en_plain : Transcript :=
  mkTranscript "en" false false (inr [Subtitle.mkEntry 0 (Some 2%Q) "Hi"]).

(** A provider with a Korean and an English track. *)
Definition env_ko_and_en : Env :=
  mkEnv (fun _ => inr (mkTranscriptList [track_ko_plain; track_en_plain] []))
        (fun t _ => inr t)
        (fun _ => inr "Clip")
        (fun _ _ => mkYdlRun [] [] None)
        (fun _ => true)
        (fun a b => a ++ "/" ++ b)
        FilenameSpec.clock0.

End PathSamples.

(** * Properties *)

(** ** Lists and strings *)

Module Basics.

Lemma append_assoc (a b c : string) : ((a ++ b) ++ c = a ++ (b ++ c))%string.
Proof. induction a as [|x a IH]; simpl; [reflexivity | now rewrite IH]. Qed.

Lemma append_nil_r (a : string) : (a ++ "")%string = a.
Proof. induction a as [|x a IH]; simpl; [reflexivity | now rewrite IH]. Qed.

Lemma length_append (a b : string) :
  String.length (a ++ b) = (String.length a + String.length b)%nat.
Proof. induction a as [|c a IH]; simpl; [reflexivity | now rewrite IH]. Qed.

(** The status bar shows the line logged last. *)
Lemma status_snoc (l : list string) (m : string) :
  last (List.map Some (l ++ [m])) None = Some m.
Proof. rewrite List.map_app. simpl. apply last_last. Qed.

End Basics.

(** ** The model at work *)

Module ModelChecks.

Import PyStr PyNum Progress.

Example strip_both_ends : strip "  My Clip " = "My Clip".
Proof. reflexivity. Qed.

Example strip_unicode :
  strip (FilenameSpec.nbsp ++ "My" ++ FilenameSpec.ideographic_space ++ "Clip" ++
         FilenameSpec.ideographic_space ++ " ")
  = "My" ++ FilenameSpec.ideographic_space ++ "Clip" /\
  strip (FilenameSpec.ideographic_space ++ FilenameSpec.nbsp) = "".
Proof. split; reflexivity. Qed.

(** 0.29 as a binary64 value, and what its product by 1000 rounds to. *)
Example round64_decimal :
  Float64.round64 (29 # 100) = (5224175567749775 # 18014398509481984)%Q /\
  Float64.fmul (Float64.round64 (29 # 100)) 1000 = 290%Q /\
  Float64.is_binary64 (29 # 100) = false /\ Float64.is_binary64 (13 # 4) = true.
Proof. repeat split; vm_compute; reflexivity. Qed.

Example round64_ties_and_subnormals :
  Float64.round64 (9007199254740993 # 1) = 9007199254740992%Q /\
  Float64.round64 (9007199254740995 # 1) = 9007199254740996%Q /\
  Float64.round64 (1 # 3) = (6004799503160661 # 18014398509481984)%Q /\
  Qeq_bool (Float64.round64 (Float64.pow2 (-1075) * (3 # 2))) (Float64.pow2 (-1074)) = true.
Proof. repeat split; vm_compute; reflexivity. Qed.

Example float_divmod_samples :
  Float64.float_divmod (15 # 2) 2 = (3, 3 # 2)%Q /\
  Float64.float_divmod 7200 3600 = (2, 0)%Q /\
  Float64.float_divmod (- (1 # 2)) 3600 = (-1, 7199 # 2)%Q.
Proof. repeat split; vm_compute; reflexivity. Qed.

(** Time stamps of binary64 values written as decimals. *)
Example format_time_samples :
  Subtitle.format_time (Float64.round64 (435 # 100)) = "00:00:04,349" /\
  Subtitle.format_time (Float64.round64 (123456 # 1000)) = "00:02:03,456" /\
  Subtitle.format_time (Float64.round64 (86399999 # 1000)) = "23:59:59,998" /\
  Subtitle.format_time
    (Float64.fadd (Float64.round64 (11 # 10)) (Float64.round64 (325 # 100)))
  = "00:00:04,349".
Proof. repeat split; vm_compute; reflexivity. Qed.

Example fmt_pads : fmt_int0 2 5 = "05" /\ fmt_int0 3 42 = "042" /\ fmt_int0 2 123 = "123".
Proof. repeat split; reflexivity. Qed.

Example float_forms :
  py_float "45.2" = inr (226 # 5)%Q /\ py_float "5." = inr 5%Q /\
  py_float ".5" = inr (1 # 2)%Q /\ py_float "100" = inr 100%Q.
Proof. repeat split; reflexivity. Qed.

Example float_rejects :
  is_inl_ValueError (py_float "") = true /\ is_inl_ValueError (py_float ".") = true /\
  is_inl_ValueError (py_float "1.2.3") = true.
Proof. repeat split; reflexivity. Qed.

Example sub_sgr_keeps_open_sequence :
  sub_sgr (String ESC "[1;31mred" ++ String ESC "[0" ++ String ESC "[K")
  = "red" ++ String ESC "[0" ++ String ESC "[K".
Proof. reflexivity. Qed.

Example video_id_of_watch_url :
  video_id_of "https://www.youtube.com/watch?v=dQw4w9WgXcQ&t=42" = "dQw4w9WgXcQ" /\
  video_id_of "https://youtu.be/dQw4w9WgXcQ" = "https://youtu.be/dQw4w9WgXcQ".
Proof. split; reflexivity. Qed.

Example strftime_sample :
  strftime_ymd_hm (mkDateTime 2025 2 20 9 5) = "250220_0905".
Proof. reflexivity. Qed.

Example video_format :
  ydl_format (mkApp "u" "" "/tmp" "1080p" false false true false Korean) video
  = "bv*[height<=1080]+ba/b[height<=1080]".
Proof. reflexivity. Qed.

End ModelChecks.

(** ** Progress Signal Adapter *)

Module ProgressFacts.

Import Basics ProgressSpec.
Import PyStr PyNum Progress.

Lemma sub_sgr_match (c : ascii) (r r' : string) :
  match_sgr (String c r) = Some r' -> sub_sgr (String c r) = sub_sgr r'.
Proof.
  intros H. rewrite sub_sgr_equation_2.
  destruct (inspect (match_sgr (String c r))) as [[r0|] e]; simpl;
    rewrite H in e; congruence.
Qed.

Lemma sub_sgr_nomatch (c : ascii) (r : string) :
  match_sgr (String c r) = None -> sub_sgr (String c r) = String c (sub_sgr r).
Proof.
  intros H. rewrite sub_sgr_equation_2.
  destruct (inspect (match_sgr (String c r))) as [[r0|] e]; simpl;
    rewrite H in e; congruence.
Qed.

Lemma match_sgr_not_esc (c : ascii) (r : string) :
  (c =? ESC)%char = false -> match_sgr (String c r) = None.
Proof.
  intros H. destruct r as [|b t]; simpl; [reflexivity|]. rewrite H. reflexivity.
Qed.

Lemma skip_params_app (params rest : string) :
  PyStr.forallb is_sgr_param params = true ->
  skip_sgr_params (params ++ String "m" rest) = String "m" rest.
Proof.
  induction params as [|a t IH]; simpl; intros H.
  - reflexivity.
  - apply andb_prop in H as [Ha Ht]. rewrite Ha. apply IH, Ht.
Qed.

Lemma match_sgr_render (params rest : string) :
  PyStr.forallb is_sgr_param params = true ->
  match_sgr (String ESC (String "[" (params ++ String "m" rest))) = Some rest.
Proof.
  intros H. unfold match_sgr.
  replace ((ESC =? ESC)%char && ("[" =? "[")%char) with true by reflexivity.
  rewrite (skip_params_app _ _ H). reflexivity.
Qed.

Lemma digit_not_esc (c : ascii) :
  is_digit c || is_dot c = true -> (c =? ESC)%char = false.
Proof.
  intros H. destruct (Ascii.eqb_spec c ESC) as [->|]; [discriminate H | reflexivity].
Qed.

(** Scrubbing a rendered progress string leaves exactly its number. *)
Lemma scrub_render (l : list Piece) :
  List.forallb piece_ok l = true ->
  keep_digits_dots (sub_sgr (render l)) = number_of l.
Proof.
  induction l as [|p l IH]; intros H.
  - reflexivity.
  - simpl in H. apply andb_prop in H as [Hp Hl]. specialize (IH Hl).
    destruct p as [params | c | c]; simpl in *.
    + rewrite append_assoc. simpl.
      rewrite (sub_sgr_match _ _ _ (match_sgr_render params (render l) Hp)).
      exact IH.
    + rewrite sub_sgr_nomatch by (apply match_sgr_not_esc, digit_not_esc, Hp).
      unfold keep_digits_dots in *. simpl. rewrite Hp. now rewrite IH.
    + apply andb_prop in Hp as [Hp Hesc]. apply andb_prop in Hp as [Hd Hdot].
      rewrite sub_sgr_nomatch
        by (apply match_sgr_not_esc; now destruct (c =? ESC)%char).
      unfold keep_digits_dots in *. simpl.
      destruct (is_digit c); [discriminate|].
      destruct (is_dot c); [discriminate|]. simpl. exact IH.
Qed.

Lemma py_float_error_kind (s : string) (e : PyExc) :
  py_float s = inl e -> is_ValueError e = true.
Proof.
  unfold py_float. destruct (split_dot s) as [ip fp].
  destruct (ip ++ _)%string; [intros [= <-]; reflexivity|].
  destruct (digits_to_N _ _); [discriminate | intros [= <-]; reflexivity].
Qed.

Lemma Qred_nonneg (n : N) (p : positive) : (0 <= Qred (Z.of_N n # p))%Q.
Proof.
  setoid_replace (Qred (Z.of_N n # p)) with (Z.of_N n # p) by apply Qred_correct.
  unfold Qle. simpl. lia.
Qed.

Lemma py_float_nonneg (s : string) (q : Q) : py_float s = inr q -> (0 <= q)%Q.
Proof.
  unfold py_float. destruct (split_dot s) as [ip fp].
  destruct (ip ++ _)%string; [discriminate|].
  destruct (digits_to_N _ _) as [n|]; [|discriminate].
  intros [= <-].
  apply Qred_nonneg.
Qed.

Lemma extract_percent_of_float (s : string) :
  extract_percent s =
  match py_float (keep_digits_dots (sub_sgr s)) with
  | inr v => inr v
  | inl _ => inr 0%Q
  end.
Proof.
  unfold extract_percent.
  destruct (py_float _) as [e|v] eqn:E; [|reflexivity].
  now rewrite (py_float_error_kind _ _ E).
Qed.

Lemma skip_params_forallb (p : ascii -> bool) (t : string) :
  PyStr.forallb p t = true -> PyStr.forallb p (skip_sgr_params t) = true.
Proof.
  induction t as [|a t IH]; simpl; intros H; [reflexivity|].
  destruct (is_sgr_param a); [|exact H].
  apply andb_prop in H as [_ H]. apply IH, H.
Qed.

Lemma match_sgr_forallb (p : ascii -> bool) (s r : string) :
  match_sgr s = Some r -> PyStr.forallb p s = true -> PyStr.forallb p r = true.
Proof.
  destruct s as [|e [|b t]]; simpl; try discriminate.
  destruct ((e =? ESC)%char && (b =? "[")%char); [|discriminate].
  intros Hm H. apply andb_prop in H as [_ H]. apply andb_prop in H as [_ H].
  apply skip_params_forallb in H.
  destruct (skip_sgr_params t) as [|m r']; [discriminate|].
  destruct (m =? "m")%char; [|discriminate].
  injection Hm as <-. simpl in H. apply andb_prop in H as [_ H]. exact H.
Qed.

(** Deleting colour sequences only removes characters. *)
Lemma sub_sgr_forallb (p : ascii -> bool) (s : string) :
  PyStr.forallb p s = true -> PyStr.forallb p (sub_sgr s) = true.
Proof.
  apply (sub_sgr_elim (fun s r => PyStr.forallb p s = true -> PyStr.forallb p r = true)).
  - reflexivity.
  - intros c r r' Hm IH _ H. apply IH. exact (match_sgr_forallb p _ _ Hm H).
  - intros c r _ IH _ H. simpl in *. apply andb_prop in H as [Hc Hr].
    rewrite Hc. simpl. apply IH, Hr.
Qed.

Lemma keep_no_digit (s : string) :
  PyStr.forallb (fun c => negb (is_digit c)) s = true ->
  PyStr.forallb is_dot (keep_digits_dots s) = true.
Proof.
  unfold keep_digits_dots.
  induction s as [|c r IH]; simpl; intros H; [reflexivity|].
  apply andb_prop in H as [Hc Hr]. destruct (is_digit c); [discriminate|]. simpl.
  destruct (is_dot c) eqn:E; simpl; [rewrite E|]; auto.
Qed.

Lemma py_float_dots (s : string) :
  PyStr.forallb is_dot s = true -> exists e, py_float s = inl e.
Proof.
  destruct s as [|c r]; intros H; [eexists; reflexivity|].
  simpl in H. apply andb_prop in H as [Hc Hr].
  unfold py_float. simpl. rewrite Hc. simpl.
  destruct r as [|d r']; [eexists; reflexivity|].
  simpl in Hr. apply andb_prop in Hr as [Hd _].
  unfold is_dot in Hd. apply Ascii.eqb_eq in Hd. subst d.
  eexists; reflexivity.
Qed.

(** C4.  A progress string made of colour escape sequences [ESC [ params m],
    the characters of a number and other text without digits and points
    yields exactly what [float] gives for the number alone; an input whose
    scrubbed form [float] rejects yields 0.0, in particular an input without
    digits; the colour-coded [37.5%] yields 37.5. *)
Theorem extract_percent_spec :
  (forall (pieces : list Piece) (q : Q),
      List.forallb piece_ok pieces = true ->
      py_float (number_of pieces) = inr q ->
      extract_percent (render pieces) = inr q) /\
  (forall (s : string) (e : PyExc),
      py_float (keep_digits_dots (sub_sgr s)) = inl e ->
      extract_percent s = inr 0%Q) /\
  (forall s : string,
      PyStr.forallb (fun c => negb (is_digit c)) s = true ->
      extract_percent s = inr 0%Q) /\
  extract_percent sample_37_5 = inr (75 # 2)%Q.
Proof.
  split; [|split; [|split]].
  - intros pieces q Hok Hnum.
    rewrite extract_percent_of_float, (scrub_render _ Hok), Hnum. reflexivity.
  - intros s e H. rewrite extract_percent_of_float, H. reflexivity.
  - intros s H. rewrite extract_percent_of_float.
    destruct (py_float_dots _ (keep_no_digit _ (sub_sgr_forallb _ _ H))) as [e ->].
    reflexivity.
  - vm_compute. reflexivity.
Qed.

Lemma extract_percent_spec_witness :
  render sample_pieces = sample_37_5 /\
  extract_percent (render sample_pieces) = inr (75 # 2)%Q /\
  extract_percent "N/A" = inr 0%Q.
Proof.
  split; [reflexivity|]. split.
  - apply (proj1 extract_percent_spec sample_pieces (75 # 2)%Q); reflexivity.
  - apply (proj1 (proj2 (proj2 extract_percent_spec)) "N/A"). reflexivity.
Defined.

Lemma keep_digits_dots_alphabet (s : string) :
  PyStr.forallb (fun c => is_digit c || is_dot c) (keep_digits_dots s) = true.
Proof.
  unfold keep_digits_dots. induction s as [|c r IH]; simpl; [reflexivity|].
  destruct (is_digit c || is_dot c) eqn:E; simpl; [rewrite E|]; exact IH.
Qed.

(** C9.  [extract_percent] never raises and its result is never negative:
    what reaches [float] holds digits and decimal points only, so no sign. *)
Theorem extract_percent_total (percent_str : string) :
  PyStr.forallb (fun c => is_digit c || is_dot c)
                (keep_digits_dots (sub_sgr percent_str)) = true /\
  exists q : Q, extract_percent percent_str = inr q /\ (0 <= q)%Q.
Proof.
  split; [apply keep_digits_dots_alphabet|].
  rewrite extract_percent_of_float.
  destruct (py_float _) as [e|v] eqn:E.
  - exists 0%Q. split; [reflexivity | apply Qle_refl].
  - exists v. split; [reflexivity | exact (py_float_nonneg _ _ E)].
Qed.

End ProgressFacts.

(** ** Binary64 arithmetic *)

Module FloatFacts.

Import PyNum Float64.

Open Scope Q_scope.

Lemma two_nonzero : ~ 2 == 0.
Proof. discriminate. Qed.

Lemma pow2_pos (e : Z) : 0 < pow2 e.
Proof. apply Qpower_0_lt. reflexivity. Qed.

Lemma pow2_add (a b : Z) : pow2 (a + b) == pow2 a * pow2 b.
Proof. apply Qpower_plus, two_nonzero. Qed.

Lemma pow2_le (a b : Z) : (a <= b)%Z -> pow2 a <= pow2 b.
Proof. intros H. apply Qpower_le_compat_l; [exact H | discriminate]. Qed.

Lemma pow2_lt (a b : Z) : (a < b)%Z -> pow2 a < pow2 b.
Proof. intros H. apply Qpower_lt_compat_l; [exact H | reflexivity]. Qed.

Lemma pow2_lt_inv (a b : Z) : pow2 a < pow2 b -> (a < b)%Z.
Proof. intros H. apply (Qpower_lt_compat_l_inv 2); [exact H | reflexivity]. Qed.

Lemma pow2_Z (n : Z) : (0 <= n)%Z -> pow2 n == inject_Z (2 ^ n).
Proof. intros H. unfold pow2. now rewrite Zpower_Qpower. Qed.

(** [pow2 e] splits off any smaller power. *)
Lemma pow2_split (g e : Z) : (e <= g)%Z -> pow2 g == inject_Z (2 ^ (g - e)) * pow2 e.
Proof.
  intros H. rewrite <- pow2_Z by lia. rewrite <- pow2_add. now replace (g - e + e)%Z with g by lia.
Qed.

Lemma ilog2_spec (q : Q) : 0 < q -> pow2 (ilog2 q) <= q /\ q < pow2 (ilog2 q + 1).
Proof.
  intros Hq. destruct q as [n d]. unfold ilog2. cbn [Qnum Qden].
  assert (Hn : (0 < n)%Z) by (unfold Qlt in Hq; simpl in Hq; lia).
  set (a := Z.log2 n). set (b := Z.log2 (Z.pos d)).
  destruct (Z.log2_spec n Hn) as [Ha1 Ha2]. fold a in Ha1, Ha2.
  destruct (Z.log2_spec (Z.pos d) eq_refl) as [Hb1 Hb2]. fold b in Hb1, Hb2.
  assert (Ha0 : (0 <= a)%Z) by apply Z.log2_nonneg.
  assert (Hb0 : (0 <= b)%Z) by apply Z.log2_nonneg.
  assert (Hq' : n # d == inject_Z n / inject_Z (Z.pos d)) by apply Qmake_Qdiv.
  assert (Hd : 0 < inject_Z (Z.pos d)) by reflexivity.
  assert (Hpa : pow2 a == inject_Z (2 ^ a)) by (apply pow2_Z; lia).
  assert (Hpb : pow2 b == inject_Z (2 ^ b)) by (apply pow2_Z; lia).
  assert (Hpa1 : pow2 (a + 1) == inject_Z (2 ^ (a + 1))) by (apply pow2_Z; lia).
  assert (Hpb1 : pow2 (b + 1) == inject_Z (2 ^ (b + 1))) by (apply pow2_Z; lia).
  (* n/d < 2^(a+1) / 2^b *)
  assert (Hup : n # d < pow2 (a - b + 1)).
  { replace (a - b + 1)%Z with ((a + 1) + - b)%Z by lia.
    rewrite pow2_add. unfold pow2 at 2. rewrite Qpower_opp. fold (pow2 b).
    rewrite Hq', Hpa1, Hpb.
    apply Qlt_shift_div_r; [exact Hd|].
    setoid_replace (inject_Z (2 ^ (a + 1)) * / inject_Z (2 ^ b) * inject_Z (Z.pos d))
      with (inject_Z (2 ^ (a + 1)) * (inject_Z (Z.pos d) / inject_Z (2 ^ b))) by (unfold Qdiv; ring).
    apply Qlt_le_trans with (inject_Z (2 ^ (a + 1)) * 1).
    - rewrite Qmult_1_r. rewrite <- Zlt_Qlt. exact Ha2.
    - apply Qmult_le_l; [rewrite <- Hpa1; apply pow2_pos|].
      apply Qle_shift_div_l; [rewrite <- Hpb; apply pow2_pos|].
      rewrite Qmult_1_l. rewrite <- Zle_Qle. exact Hb1. }
  assert (Hlo : pow2 (a - b - 1) <= n # d).
  { replace (a - b - 1)%Z with (a + - (b + 1))%Z by lia.
    rewrite pow2_add. unfold pow2 at 2. rewrite Qpower_opp. fold (pow2 (b + 1)).
    rewrite Hq', Hpa, Hpb1.
    apply Qle_shift_div_l; [exact Hd|].
    setoid_replace (inject_Z (2 ^ a) * / inject_Z (2 ^ (b + 1)) * inject_Z (Z.pos d))
      with (inject_Z (2 ^ a) * (inject_Z (Z.pos d) / inject_Z (2 ^ (b + 1)))) by (unfold Qdiv; ring).
    apply Qle_trans with (inject_Z (2 ^ a) * 1).
    - apply Qmult_le_l; [rewrite <- Hpa; apply pow2_pos|].
      apply Qle_shift_div_r; [rewrite <- Hpb1; apply pow2_pos|].
      rewrite Qmult_1_l. rewrite <- Zle_Qle. lia.
    - rewrite Qmult_1_r. rewrite <- Zle_Qle. exact Ha1. }
  destruct (Qle_bool (pow2 (a - b)) (n # d)) eqn:E.
  - apply Qle_bool_iff in E. split; assumption.
  - assert (Hlt : n # d < pow2 (a - b)).
    { apply Qnot_le_lt. intros H. apply Qle_bool_iff in H. congruence. }
    replace (a - b - 1 + 1)%Z with (a - b)%Z by lia. split; assumption.
Qed.

Lemma ilog2_lt (q : Q) (n : Z) : 0 < q -> q < pow2 n -> (ilog2 q < n)%Z.
Proof.
  intros Hq Hn. apply pow2_lt_inv.
  eapply Qle_lt_trans; [apply (ilog2_spec q Hq) | exact Hn].
Qed.

Lemma ilog2_ge (q : Q) (n : Z) : 0 < q -> pow2 n <= q -> (n <= ilog2 q)%Z.
Proof.
  intros Hq Hn.
  assert (n < ilog2 q + 1)%Z; [|lia].
  apply pow2_lt_inv. eapply Qle_lt_trans; [exact Hn | apply (ilog2_spec q Hq)].
Qed.

Lemma ilog2_mono (a b : Q) : 0 < a -> a <= b -> (ilog2 a <= ilog2 b)%Z.
Proof.
  intros Ha Hab. apply ilog2_ge; [lra|].
  eapply Qle_trans; [apply (ilog2_spec a Ha) | exact Hab].
Qed.

Lemma ulp_exp_min (q : Q) : (-1074 <= ulp_exp q)%Z.
Proof. unfold ulp_exp. lia. Qed.

Lemma ulp_exp_le (q : Q) (g : Z) :
  0 < q -> q < pow2 (g + 53) -> (-1074 <= g)%Z -> (ulp_exp q <= g)%Z.
Proof.
  intros Hq Hlt Hg. pose proof (ilog2_lt q _ Hq Hlt). unfold ulp_exp. lia.
Qed.

Lemma ulp_exp_bound (q : Q) : 0 < q -> q < pow2 (ulp_exp q + 53).
Proof.
  intros Hq. eapply Qlt_le_trans; [apply (ilog2_spec q Hq)|].
  apply pow2_le. unfold ulp_exp. lia.
Qed.

Lemma Qfloor_unique (y : Q) (z : Z) :
  inject_Z z <= y -> y < inject_Z (z + 1) -> Qfloor y = z.
Proof.
  intros Hle Hlt.
  assert (H1 : (z <= Qfloor y)%Z).
  { rewrite <- (Qfloor_Z z). apply Qfloor_resp_le, Hle. }
  assert (H2 : (Qfloor y < z + 1)%Z).
  { rewrite Zlt_Qlt. eapply Qle_lt_trans; [apply Qfloor_le | exact Hlt]. }
  lia.
Qed.

(** Rounding to the nearest integer stays between the integers around. *)
Lemma round_half_even_bounds (q : Q) :
  (Qfloor q <= round_half_even q <= Qfloor q + 1)%Z.
Proof.
  unfold round_half_even.
  destruct (Qcompare (q - inject_Z (Qfloor q)) (1 # 2)); [destruct (Z.even (Qfloor q))| |]; lia.
Qed.

Lemma round_half_even_Z (q : Q) (n : Z) : q == inject_Z n -> round_half_even q = n.
Proof.
  intros H. unfold round_half_even.
  rewrite (Qfloor_comp _ _ H), Qfloor_Z.
  assert (E : Qcompare (q - inject_Z n) (1 # 2) = Lt).
  { rewrite <- Qlt_alt. rewrite H. lra. }
  now rewrite E.
Qed.

Lemma round_half_even_comp (a b : Q) : a == b -> round_half_even a = round_half_even b.
Proof.
  intros H. unfold round_half_even. rewrite (Qfloor_comp _ _ H).
  assert (E : Qcompare (a - inject_Z (Qfloor b)) (1 # 2) =
              Qcompare (b - inject_Z (Qfloor b)) (1 # 2)) by now rewrite H.
  now rewrite E.
Qed.

Lemma round_half_even_between (q : Q) (a b : Z) :
  inject_Z a <= q -> q <= inject_Z b -> (a <= round_half_even q <= b)%Z.
Proof.
  intros Ha Hb. pose proof (round_half_even_bounds q) as [H1 H2].
  assert (Hfa : (a <= Qfloor q)%Z).
  { rewrite <- (Qfloor_Z a). apply Qfloor_resp_le, Ha. }
  split; [lia|].
  destruct (Z.eq_dec (Qfloor q) b) as [E|E].
  - assert (Hq : q == inject_Z b).
    { apply Qle_antisym; [exact Hb|]. rewrite <- E. apply Qfloor_le. }
    rewrite (round_half_even_Z q b Hq). lia.
  - assert (Qfloor q <= b)%Z.
    { rewrite <- (Qfloor_Z b). apply Qfloor_resp_le, Hb. }
    lia.
Qed.

(** A value rounded up to the integer [t] is at most one half below it. *)
Lemma round_half_even_up (q : Q) (t : Z) :
  q < inject_Z t -> round_half_even q = t -> inject_Z t - (1 # 2) <= q.
Proof.
  intros Hlt Hr. unfold round_half_even in Hr.
  assert (Hf : (Qfloor q < t)%Z).
  { rewrite Zlt_Qlt. eapply Qle_lt_trans; [apply Qfloor_le | exact Hlt]. }
  destruct (Qcompare (q - inject_Z (Qfloor q)) (1 # 2)) eqn:E.
  - apply Qeq_alt in E. destruct (Z.even (Qfloor q)); [lia|].
    subst t. rewrite inject_Z_plus. change (inject_Z 1) with 1. lra.
  - lia.
  - apply Qgt_alt in E. subst t. rewrite inject_Z_plus. change (inject_Z 1) with 1. lra.
Qed.

(** ** Rounding to binary64 *)

Lemma round64_comp (a b : Q) : a == b -> round64 a = round64 b.
Proof. intros H. unfold round64. now rewrite (Qred_complete _ _ H). Qed.

Lemma round64_zero (q : Q) : q == 0 -> round64 q == 0.
Proof.
  intros H. unfold round64.
  assert (E : Qeq_bool (Qred q) 0 = true) by (apply Qeq_bool_iff; now rewrite Qred_correct).
  now rewrite E.
Qed.

(** Off zero, [round64 q] is the nearest multiple of the unit in the last
    place of [q]. *)
Lemma round64_unfold (q : Q) :
  ~ q == 0 ->
  exists e, (-1074 <= e)%Z /\
            (forall g, Qabs q < pow2 (g + 53) -> (-1074 <= g)%Z -> (e <= g)%Z) /\
            Qabs q < pow2 (e + 53) /\
            round64 q == inject_Z (round_half_even (q / pow2 e)) * pow2 e.
Proof.
  intros Hq. unfold round64.
  assert (Hr : Qred q == q) by apply Qred_correct.
  assert (E : Qeq_bool (Qred q) 0 = false).
  { destruct (Qeq_bool (Qred q) 0) eqn:E; [|reflexivity].
    apply Qeq_bool_iff in E. rewrite Hr in E. contradiction. }
  rewrite E.
  assert (Hra : Qabs (Qred q) == Qabs q) by (apply Qabs_wd, Hr).
  assert (Habs : 0 < Qabs (Qred q)).
  { rewrite Hra. destruct (Qlt_le_dec 0 (Qabs q)) as [H|H]; [exact H|].
    exfalso. apply Hq. apply Qabs_Qle_condition in H. lra. }
  exists (ulp_exp (Qabs (Qred q))). split; [apply ulp_exp_min|]. split; [|split].
  - intros g Hg Hmin. apply ulp_exp_le; [exact Habs | now rewrite Hra | exact Hmin].
  - apply Qle_lt_trans with (Qabs (Qred q)); [rewrite Hra; apply Qle_refl|].
    apply ulp_exp_bound, Habs.
  - etransitivity; [apply Qred_correct|].
    rewrite (round_half_even_comp (Qred q / pow2 (ulp_exp (Qabs (Qred q))))
               (q / pow2 (ulp_exp (Qabs (Qred q))))); [reflexivity|].
    apply Qmult_comp; [exact Hr | reflexivity].
Qed.

(** A value on a grid no finer than its last place is not changed. *)
Lemma round64_grid (q : Q) (N g : Z) :
  q == inject_Z N * pow2 g -> Qabs q < pow2 (g + 53) -> (-1074 <= g)%Z ->
  round64 q == q.
Proof.
  intros Hq Hlt Hg.
  destruct (Qeq_dec q 0) as [H0|H0]; [now rewrite (round64_zero q H0), H0|].
  destruct (round64_unfold q H0) as (e & _ & Hle & _ & ->).
  specialize (Hle g Hlt Hg).
  assert (Hdiv : q / pow2 e == inject_Z (N * 2 ^ (g - e))).
  { rewrite Hq, (pow2_split g e Hle), inject_Z_mult. field.
    pose proof (pow2_pos e). lra. }
  rewrite (round_half_even_Z _ _ Hdiv), inject_Z_mult, Hq, (pow2_split g e Hle). ring.
Qed.

Lemma round64_int (n : Z) : (0 <= n < 2 ^ 53)%Z -> round64 (inject_Z n) == inject_Z n.
Proof.
  intros Hn. apply (round64_grid _ n 0).
  - change (pow2 0) with 1. ring.
  - rewrite Qabs_pos by (rewrite <- (Zle_Qle 0); lia).
    rewrite pow2_Z by lia. rewrite <- Zlt_Qlt. simpl. lia.
  - lia.
Qed.

(** The grid of a binary64 value. *)
Lemma binary64_grid (x : Q) :
  is_binary64 x = true -> 0 < x ->
  exists N g, x == inject_Z N * pow2 g /\ (-1074 <= g)%Z /\ x < pow2 (g + 53) /\
              (forall g', x < pow2 (g' + 53) -> (-1074 <= g')%Z -> (g <= g')%Z).
Proof.
  intros Hb Hx. apply Qeq_bool_iff in Hb.
  assert (H0 : ~ x == 0) by lra.
  destruct (round64_unfold x H0) as (e & Hmin & Hle & Hup & Hr).
  assert (Ha : Qabs x == x) by (apply Qabs_pos; lra).
  rewrite Ha in Hup.
  exists (round_half_even (x / pow2 e)), e.
  split; [now rewrite <- Hr, Hb|]. split; [exact Hmin|]. split; [exact Hup|].
  intros g' Hg' Hmin'. apply Hle; [now rewrite Ha | exact Hmin'].
Qed.

(** Integers lie on every grid of non-positive exponent. *)
Lemma int_on_grid (n g : Z) : (g <= 0)%Z -> inject_Z n == inject_Z (n * 2 ^ (- g)) * pow2 g.
Proof.
  intros Hg. rewrite inject_Z_mult, <- Qmult_assoc.
  rewrite <- (pow2_Z (- g)) by lia. rewrite <- pow2_add.
  replace (- g + g)%Z with 0%Z by lia. change (pow2 0) with 1. ring.
Qed.

(** Taking an integer off a binary64 value below [2^53] is exact. *)
Lemma binary64_sub_int (x : Q) (n : Z) :
  is_binary64 x = true -> x < pow2 53 -> (0 <= n)%Z -> 0 <= x - inject_Z n ->
  round64 (x - inject_Z n) == x - inject_Z n.
Proof.
  intros Hb H53 Hn Hy.
  assert (Hn' : 0 <= inject_Z n) by (rewrite <- (Zle_Qle 0); exact Hn).
  destruct (Qeq_dec (x - inject_Z n) 0) as [H0|H0];
    [now rewrite (round64_zero _ H0), H0|].
  assert (Hx : 0 < x) by lra.
  destruct (binary64_grid x Hb Hx) as (N & g & HN & Hmin & Hup & Hg).
  specialize (Hg 0%Z H53 ltac:(lia)).
  apply (round64_grid _ (N - n * 2 ^ (- g)) g).
  - unfold Z.sub. rewrite inject_Z_plus, inject_Z_opp, Qmult_plus_distr_l.
    rewrite <- HN. rewrite (int_on_grid n g) at 1 by lia. ring.
  - rewrite Qabs_pos by exact Hy. lra.
  - exact Hmin.
Qed.

Lemma binary64_sub_int_is (x : Q) (n : Z) :
  is_binary64 x = true -> x < pow2 53 -> (0 <= n)%Z -> 0 <= x - inject_Z n ->
  is_binary64 (x - inject_Z n) = true.
Proof. intros. apply Qeq_bool_iff. now apply binary64_sub_int. Qed.

Lemma is_binary64_comp (a b : Q) : a == b -> is_binary64 a = is_binary64 b.
Proof.
  intros H. unfold is_binary64. rewrite (round64_comp a b H).
  destruct (Qeq_bool (round64 b) a) eqn:E1, (Qeq_bool (round64 b) b) eqn:E2; try reflexivity.
  - apply Qeq_bool_iff in E1. pose proof (Qeq_trans _ _ _ E1 H) as E.
    apply Qeq_bool_iff in E. congruence.
  - apply Qeq_bool_iff in E2. pose proof (Qeq_trans _ _ _ E2 (Qeq_sym _ _ H)) as E.
    apply Qeq_bool_iff in E. congruence.
Qed.

(** Rounding does not cross an integer, for values below [2^53]. *)
Lemma round64_between (y : Q) (a b : Z) :
  Qabs y < pow2 53 -> inject_Z a <= y -> y <= inject_Z b ->
  inject_Z a <= round64 y /\ round64 y <= inject_Z b.
Proof.
  intros H53 Ha Hb.
  destruct (Qeq_dec y 0) as [H0|H0].
  { rewrite (round64_zero y H0). rewrite H0 in Ha, Hb. split; assumption. }
  destruct (round64_unfold y H0) as (e & Hmin & Hle & _ & ->).
  assert (He : (e <= 0)%Z) by (apply Hle; [exact H53 | lia]).
  pose proof (pow2_pos e) as Hp.
  assert (Hba : inject_Z (a * 2 ^ (- e)) <= y / pow2 e).
  { apply Qle_shift_div_l; [exact Hp|]. now rewrite <- (int_on_grid a e He). }
  assert (Hbb : y / pow2 e <= inject_Z (b * 2 ^ (- e))).
  { apply Qle_shift_div_r; [exact Hp|]. now rewrite <- (int_on_grid b e He). }
  destruct (round_half_even_between _ _ _ Hba Hbb) as [H1 H2].
  rewrite (int_on_grid a e He), (int_on_grid b e He).
  split; (apply Qmult_le_compat_r; [rewrite <- Zle_Qle; assumption | lra]).
Qed.

Lemma round64_nonneg (y : Q) : 0 <= y -> 0 <= round64 y.
Proof.
  intros Hy.
  destruct (Qeq_dec y 0) as [H0|H0]; [rewrite (round64_zero y H0); lra|].
  destruct (round64_unfold y H0) as (e & _ & _ & _ & ->).
  pose proof (pow2_pos e) as Hp.
  apply Qmult_le_0_compat; [|lra].
  assert (H : inject_Z 0 <= y / pow2 e).
  { apply Qle_shift_div_l; [exact Hp|]. change (inject_Z 0) with 0. lra. }
  pose proof (round_half_even_bounds (y / pow2 e)) as [H1 _].
  rewrite <- (Zle_Qle 0).
  assert (0 <= Qfloor (y / pow2 e))%Z by (rewrite <- (Qfloor_Z 0); apply Qfloor_resp_le, H).
  lia.
Qed.

Lemma py_int_nonneg (x : Q) : 0 <= x -> py_int x = Qfloor x.
Proof.
  intros H. unfold py_int. apply Qle_bool_iff in H. now rewrite H.
Qed.

Lemma Qlt_bool_false (a b : Q) : b <= a -> Qlt_bool a b = false.
Proof. intros H. unfold Qlt_bool. apply Qle_bool_iff in H. now rewrite H. Qed.

Lemma pow2_53 : pow2 53 == inject_Z (2 ^ 53).
Proof. apply pow2_Z. lia. Qed.

(** [divmod] of a non-negative binary64 value below [2^53] by a positive
    integer is exact: the floored quotient and the remainder. *)
Lemma float_divmod_exact (x : Q) (p : positive) :
  is_binary64 x = true -> 0 <= x -> x < pow2 53 ->
  let y := inject_Z (Z.pos p) in
  let k := Qfloor (x / y) in
  fst (float_divmod x y) == inject_Z k /\
  snd (float_divmod x y) == x - inject_Z k * y /\
  (0 <= k)%Z /\ 0 <= x - inject_Z k * y /\ x - inject_Z k * y < y.
Proof.
  intros Hb Hx H53 y k.
  assert (Hy : 0 < y) by reflexivity.
  assert (Hq : 0 <= x / y) by (apply Qle_shift_div_l; [exact Hy | lra]).
  assert (Hk : (0 <= k)%Z) by (rewrite <- (Qfloor_Z 0); apply Qfloor_resp_le, Hq).
  assert (Hlo : inject_Z k * y <= x).
  { pose proof (Qfloor_le (x / y)) as H. fold k in H.
    apply (Qmult_le_compat_r _ _ y) in H; [|lra].
    setoid_replace (x / y * y) with x in H by (field; lra). exact H. }
  assert (Hhi : x - inject_Z k * y < y).
  { pose proof (Qlt_floor (x / y)) as H. fold k in H.
    rewrite inject_Z_plus in H. change (inject_Z 1) with 1 in H.
    apply (Qmult_lt_compat_r _ _ y) in H; [|exact Hy].
    setoid_replace (x / y * y) with x in H by (field; lra). lra. }
  assert (Hmod : fmod x y == x - inject_Z k * y).
  { unfold fmod. rewrite (py_int_nonneg _ Hq). reflexivity. }
  assert (Hkp : (0 <= k * Z.pos p < 2 ^ 53)%Z).
  { split; [lia|]. rewrite Zlt_Qlt, <- pow2_53, inject_Z_mult. fold y. lra. }
  assert (Hk53 : (0 <= k < 2 ^ 53)%Z) by nia.
  assert (Hsub : fsub x (fmod x y) = round64 (inject_Z (k * Z.pos p))).
  { unfold fsub. apply round64_comp. rewrite Hmod, inject_Z_mult. fold y. ring. }
  assert (Hdiv : fdiv (fsub x (fmod x y)) y = round64 (inject_Z k)).
  { unfold fdiv. apply round64_comp. rewrite Hsub, (round64_int _ Hkp), inject_Z_mult.
    fold y. field. lra. }
  pose proof (round64_int k Hk53) as HD.
  unfold float_divmod. rewrite Hdiv. set (D := round64 (inject_Z k)) in *.
  assert (Hfl : (if negb (Qeq_bool D 0)
                 then if Qlt_bool (1 # 2) (fsub D (ffloor D)) then fadd (ffloor D) 1 else ffloor D
                 else 0) == inject_Z k).
  { destruct (Qeq_bool D 0) eqn:E0; cbn [negb].
    - apply Qeq_bool_iff in E0. now rewrite <- HD, E0.
    - assert (Hf : ffloor D == inject_Z k).
      { unfold ffloor. now rewrite (Qfloor_comp _ _ HD), Qfloor_Z. }
      assert (Hz : fsub D (ffloor D) == 0).
      { unfold fsub. apply round64_zero. rewrite Hf, HD. ring. }
      rewrite (Qlt_bool_false (1 # 2) _); [exact Hf | rewrite Hz; discriminate]. }
  destruct (Qeq_bool (fmod x y) 0) eqn:Em; cbn [negb].
  - cbn [fst snd]. split; [exact Hfl|]. apply Qeq_bool_iff in Em.
    rewrite <- Hmod, Em. repeat split; try assumption; try lra.
  - rewrite (Qlt_bool_false y 0) by lra.
    rewrite (Qlt_bool_false (fmod x y) 0) by (rewrite Hmod; lra).
    cbn [Bool.eqb negb fst snd]. split; [exact Hfl|].
    repeat split; try assumption; lra.
Qed.

(** The product of a binary64 fraction by 1000, rounded, stays below 1000
    and within the two integers around the exact product. *)
Lemma millis_float_bounds (f : Q) :
  is_binary64 f = true -> 0 <= f -> f < 1 ->
  (Qfloor (f * 1000) <= Qfloor (fmul f 1000) <= Qfloor (f * 1000) + 1)%Z /\
  (0 <= Qfloor (fmul f 1000) < 1000)%Z.
Proof.
  intros Hb H0 H1. unfold fmul. set (y := f * 1000).
  assert (Hy0 : 0 <= y) by (unfold y; lra).
  assert (Hy1 : y < 1000) by (unfold y; lra).
  assert (H53 : Qabs y < pow2 53).
  { rewrite Qabs_pos by exact Hy0.
    apply Qlt_trans with 1000; [exact Hy1 | reflexivity]. }
  set (n := Qfloor y).
  assert (Hn0 : (0 <= n)%Z) by (unfold n; rewrite <- (Qfloor_Z 0); apply Qfloor_resp_le, Hy0).
  assert (Hn1 : (n < 1000)%Z).
  { rewrite Zlt_Qlt. eapply Qle_lt_trans; [apply Qfloor_le | exact Hy1]. }
  destruct (round64_between y n (n + 1) H53 (Qfloor_le y) (Qlt_le_weak _ _ (Qlt_floor y)))
    as [Hlo Hhi].
  assert (Hfl : (n <= Qfloor (round64 y) <= n + 1)%Z).
  { split.
    - rewrite <- (Qfloor_Z n). apply Qfloor_resp_le, Hlo.
    - rewrite <- (Qfloor_Z (n + 1)). apply Qfloor_resp_le, Hhi. }
  split; [exact Hfl|]. split; [lia|].
  destruct (Z_lt_le_dec (Qfloor (round64 y)) 1000) as [Hlt|Hge]; [exact Hlt | exfalso].
  assert (Hn : n = 999%Z) by lia.
  assert (Hr : round64 y == 1000).
  { apply Qle_antisym.
    - rewrite Hn in Hhi. exact Hhi.
    - eapply Qle_trans; [|apply Qfloor_le]. rewrite <- (Zle_Qle 1000). exact Hge. }
  assert (Hynz : ~ y == 0).
  { intros E. rewrite (round64_zero y E) in Hr. discriminate Hr. }
  destruct (round64_unfold y Hynz) as (e & _ & Hle & _ & Hu).
  assert (He : (e <= -43)%Z).
  { apply Hle; [|lia]. rewrite Qabs_pos by exact Hy0.
    apply Qlt_trans with 1000; [exact Hy1 | reflexivity]. }
  pose proof (pow2_pos e) as Hp.
  assert (HT : round_half_even (y / pow2 e) = (1000 * 2 ^ (- e))%Z).
  { rewrite Hu in Hr. change 1000 with (inject_Z 1000) in Hr.
    rewrite (int_on_grid 1000 e) in Hr by lia.
    apply Qmult_inj_r in Hr; [|intros E; rewrite E in Hp; exact (Qlt_irrefl 0 Hp)].
    apply (proj1 (inject_Z_injective _ _)), Hr. }
  assert (Hlt : y / pow2 e < inject_Z (1000 * 2 ^ (- e))).
  { apply Qlt_shift_div_r; [exact Hp|]. rewrite <- (int_on_grid 1000 e) by lia. exact Hy1. }
  pose proof (round_half_even_up _ _ Hlt HT) as Hup.
  assert (Hyl : 1000 - pow2 e * (1 # 2) <= y).
  { apply (Qmult_le_compat_r _ _ (pow2 e)) in Hup; [|lra].
    setoid_replace (y / pow2 e * pow2 e) with y in Hup by (field; lra).
    setoid_replace ((inject_Z (1000 * 2 ^ (- e)) - (1 # 2)) * pow2 e)
      with (inject_Z (1000 * 2 ^ (- e)) * pow2 e - pow2 e * (1 # 2)) in Hup by ring.
    rewrite <- (int_on_grid 1000 e) in Hup by lia. exact Hup. }
  assert (He43 : pow2 e <= 1 # 8796093022208).
  { eapply Qle_trans; [apply (pow2_le e (-43) He)|]. discriminate. }
  (* the fraction is on the grid of 2^-53 *)
  assert (Hf12 : 1 # 2 <= f) by (unfold y in Hyl; lra).
  assert (Hf0 : 0 < f) by lra.
  destruct (binary64_grid f Hb Hf0) as (N & g & HN & Hmin & Hgup & Hg).
  assert (Hg1 : (g <= -53)%Z) by (apply Hg; [exact H1 | lia]).
  assert (Hg2 : (-53 <= g)%Z).
  { assert (-1 < g + 53)%Z; [|lia]. apply pow2_lt_inv.
    eapply Qle_lt_trans; [|exact Hgup]. exact Hf12. }
  assert (g = (-53)%Z) by lia. subst g.
  assert (Hc : pow2 (-53) == 1 # 9007199254740992) by reflexivity.
  rewrite Hc in HN.
  assert (HN1 : (N < 2 ^ 53)%Z).
  { rewrite Zlt_Qlt. change (inject_Z (2 ^ 53)) with 9007199254740992. lra. }
  assert (HN2 : inject_Z N <= 9007199254740991).
  { change 9007199254740991 with (inject_Z (2 ^ 53 - 1)). rewrite <- Zle_Qle. lia. }
  unfold y in Hyl. lra.
Qed.

End FloatFacts.

(** ** Time format *)

Module TimeFacts.

Import Basics TimeSpec FloatFacts.
Import PyStr PyNum Float64 Subtitle.

Open Scope Q_scope.

Lemma Qfloor_add_Z (x : Q) (k : Z) : Qfloor (x + inject_Z k) = (Qfloor x + k)%Z.
Proof.
  apply Qfloor_unique.
  - rewrite inject_Z_plus. apply Qplus_le_l, Qfloor_le.
  - replace (Qfloor x + k + 1)%Z with ((Qfloor x + 1) + k)%Z by lia.
    rewrite inject_Z_plus. apply Qplus_lt_l, Qlt_floor.
Qed.

Lemma Qfloor_sub_mult (x : Q) (k n : Z) :
  Qfloor (x - inject_Z k * inject_Z n) = (Qfloor x - k * n)%Z.
Proof.
  setoid_replace (x - inject_Z k * inject_Z n) with (x + inject_Z (- (k * n))).
  - rewrite Qfloor_add_Z. lia.
  - rewrite inject_Z_opp, inject_Z_mult. ring.
Qed.

Lemma Qfloor_div_pos (x : Q) (n : positive) :
  Qfloor (x / inject_Z (Z.pos n)) = (Qfloor x / Z.pos n)%Z.
Proof.
  destruct x as [a b]. unfold Qdiv, Qinv, Qmult, inject_Z, Qfloor. simpl.
  rewrite Z.mul_1_r, Pos2Z.inj_mul, Z.div_div by lia. reflexivity.
Qed.

Lemma py_int_Z (z : Z) : py_int (inject_Z z) = z.
Proof.
  unfold py_int. destruct (Qle_bool 0 (inject_Z z)); [apply Qfloor_Z | apply Qceiling_Z].
Qed.

Lemma Qfloor_nonneg (x : Q) : 0 <= x -> (0 <= Qfloor x)%Z.
Proof.
  intros H. change 0%Z with (Qfloor 0). apply Qfloor_resp_le, H.
Qed.

(** The fractional part lies in [0, 1). *)
Lemma frac_bounds (x : Q) :
  0 <= x - inject_Z (Qfloor x) /\ x - inject_Z (Qfloor x) < 1.
Proof.
  pose proof (Qfloor_le x) as H1. pose proof (Qlt_floor x) as H2.
  rewrite inject_Z_plus in H2. change (inject_Z 1) with 1 in H2.
  set (f := inject_Z (Qfloor x)) in *. split; lra.
Qed.

Lemma py_int_comp (x y : Q) : x == y -> py_int x = py_int y.
Proof.
  intros H. unfold py_int. rewrite (Qfloor_comp _ _ H), (Qceiling_comp _ _ H).
  destruct (Qle_bool 0 x) eqn:Ex, (Qle_bool 0 y) eqn:Ey; try reflexivity.
  - apply Qle_bool_iff in Ex. rewrite H in Ex. apply Qle_bool_iff in Ex. congruence.
  - apply Qle_bool_iff in Ey. rewrite <- H in Ey. apply Qle_bool_iff in Ey. congruence.
Qed.

Lemma frac_sub_mult (x : Q) (k n : Z) :
  frac (x - inject_Z k * inject_Z n) == frac x.
Proof.
  unfold frac. rewrite Qfloor_sub_mult.
  unfold Z.sub. rewrite inject_Z_plus, inject_Z_opp, inject_Z_mult. ring.
Qed.

(** Widths of the zero-padded fields, checked on every value of the range. *)
Lemma fmt_length_below (w : nat) (bound : nat) (n : Z) :
  List.forallb (fun k => (String.length (fmt_int0 w (Z.of_nat k)) =? w)%nat)
               (seq 0 bound) = true ->
  (0 <= n < Z.of_nat bound)%Z -> String.length (fmt_int0 w n) = w.
Proof.
  intros Hall Hn. rewrite forallb_forall in Hall.
  specialize (Hall (Z.to_nat n)). rewrite Z2Nat.id in Hall by lia.
  apply Nat.eqb_eq, Hall, in_seq. lia.
Qed.

Lemma fmt2_length (n : Z) : (0 <= n < 100)%Z -> String.length (fmt_int0 2 n) = 2%nat.
Proof. apply (fmt_length_below 2 100). vm_compute. reflexivity. Qed.

Lemma fmt3_length (n : Z) : (0 <= n < 1000)%Z -> String.length (fmt_int0 3 n) = 3%nat.
Proof. apply (fmt_length_below 3 1000). vm_compute. reflexivity. Qed.

Lemma below_two53 (x : Q) : x < two53 -> x < pow2 53.
Proof. intros H. rewrite pow2_53. exact H. Qed.

(** The fraction of a binary64 value is one. *)
Lemma frac_binary64 (x : Q) :
  is_binary64 x = true -> 0 <= x -> x < two53 -> is_binary64 (frac x) = true.
Proof.
  intros Hb H0 H53. unfold frac.
  apply binary64_sub_int_is; [exact Hb | now apply below_two53 | now apply Qfloor_nonneg |].
  destruct (frac_bounds x). assumption.
Qed.

Lemma millis_bounds (x : Q) :
  is_binary64 x = true -> 0 <= x -> x < two53 ->
  (Qfloor (frac x * 1000) <= millis_of x <= Qfloor (frac x * 1000) + 1)%Z /\
  (0 <= millis_of x < 1000)%Z.
Proof.
  intros Hb H0 H53. destruct (frac_bounds x) as [F0 F1].
  apply millis_float_bounds; [now apply frac_binary64 | exact F0 | exact F1].
Qed.

(** What is left of a binary64 value once whole seconds are taken off. *)
Lemma sub_int_binary64 (x y : Q) (n : Z) :
  is_binary64 x = true -> 0 <= x -> x < two53 -> (0 <= n)%Z ->
  y == x - inject_Z n -> 0 <= y ->
  is_binary64 y = true /\ round64 y == y.
Proof.
  intros Hb H0 H53 Hn Hy Hy0.
  assert (H : round64 (x - inject_Z n) == x - inject_Z n).
  { apply binary64_sub_int; [exact Hb | now apply below_two53 | exact Hn | now rewrite <- Hy]. }
  split.
  - rewrite (is_binary64_comp _ _ Hy). now apply Qeq_bool_iff.
  - rewrite (round64_comp _ _ Hy), H. now symmetry.
Qed.

Lemma format_time_fields (seconds : Q) :
  is_binary64 seconds = true -> 0 <= seconds -> seconds < two53 ->
  format_time seconds =
  (fmt_int0 2 (hours_of seconds) ++ ":" ++ fmt_int0 2 (minutes_of seconds) ++ ":" ++
   fmt_int0 2 (seconds_of seconds) ++ "," ++ fmt_int0 3 (millis_of seconds))%string.
Proof.
  intros Hb Hpos H53. unfold format_time.
  set (t := Qfloor seconds).
  assert (Ht : (0 <= t)%Z) by (apply Qfloor_nonneg, Hpos).
  (* hours *)
  destruct (float_divmod_exact seconds 3600 Hb Hpos (below_two53 _ H53))
    as (Hh & Hr & _ & Hr0 & Hr1).
  cbv zeta in Hh, Hr, Hr0, Hr1.
  rewrite (Qfloor_div_pos seconds 3600) in Hh, Hr, Hr0, Hr1. fold t in Hh, Hr, Hr0, Hr1.
  change (inject_Z (Z.pos 3600)) with 3600 in *.
  destruct (float_divmod seconds 3600) as [hours remainder]. cbn [fst snd] in Hh, Hr.
  set (h := (t / 3600)%Z) in *.
  assert (Hh0 : (0 <= h)%Z) by (apply Z.div_pos; lia).
  assert (Er : remainder == seconds - inject_Z (h * 3600)).
  { rewrite Hr, inject_Z_mult. reflexivity. }
  assert (Hr0' : 0 <= remainder) by now rewrite Hr.
  destruct (sub_int_binary64 seconds remainder (h * 3600) Hb Hpos H53 ltac:(lia) Er Hr0')
    as [Hbr _].
  assert (Hr53 : remainder < pow2 53).
  { rewrite Hr. eapply Qlt_trans; [exact Hr1 | reflexivity]. }
  assert (Hfr : Qfloor remainder = (t mod 3600)%Z).
  { rewrite (Qfloor_comp _ _ Hr).
    change 3600 with (inject_Z 3600). rewrite Qfloor_sub_mult. fold t. unfold h.
    rewrite Z.mod_eq by lia. lia. }
  (* minutes *)
  destruct (float_divmod_exact remainder 60 Hbr Hr0' Hr53) as (Hm & Hs & _ & Hs0 & Hs1).
  cbv zeta in Hm, Hs, Hs0, Hs1.
  rewrite (Qfloor_div_pos remainder 60), Hfr in Hm, Hs, Hs0, Hs1.
  change (inject_Z (Z.pos 60)) with 60 in *.
  destruct (float_divmod remainder 60) as [minutes secs]. cbn [fst snd] in Hm, Hs.
  set (m := (t mod 3600 / 60)%Z) in *.
  assert (Hm0 : (0 <= m)%Z).
  { unfold m. apply Z.div_pos; [apply Z.mod_pos_bound|]; lia. }
  assert (Hs0' : 0 <= secs) by now rewrite Hs.
  assert (Hfs : Qfloor secs = (t mod 60)%Z).
  { rewrite (Qfloor_comp _ _ Hs).
    change 60 with (inject_Z 60). rewrite Qfloor_sub_mult, Hfr. unfold m.
    pose proof (Z.mod_pos_bound t 3600). pose proof (Z.mod_pos_bound t 60).
    Z.div_mod_to_equations. lia. }
  assert (Hsmod : (0 <= t mod 60 < 60)%Z) by (apply Z.mod_pos_bound; lia).
  (* the fields *)
  rewrite (py_int_comp _ _ Hh), (py_int_comp _ _ Hm), !py_int_Z.
  rewrite (py_int_nonneg secs Hs0'), Hfs.
  fold (hours_of seconds) (minutes_of seconds) (seconds_of seconds).
  assert (Ef : secs - inject_Z (t mod 60) == frac seconds).
  { rewrite Hs, Er. unfold frac. fold t. rewrite !inject_Z_mult.
    assert (E : (t = h * 3600 + m * 60 + t mod 60)%Z).
    { unfold h, m. pose proof (Z.mod_pos_bound t 3600). pose proof (Z.mod_pos_bound t 60).
      Z.div_mod_to_equations. lia. }
    rewrite E at 2. rewrite !inject_Z_plus, !inject_Z_mult.
    change (inject_Z 3600) with 3600. change (inject_Z 60) with 60. ring. }
  assert (Eo : of_int (t mod 60) == inject_Z (t mod 60)).
  { unfold of_int. apply round64_int. lia. }
  assert (Esub : fsub secs (of_int (t mod 60)) == frac seconds).
  { unfold fsub.
    rewrite (round64_comp _ (frac seconds)) by (now rewrite Eo, Ef).
    apply Qeq_bool_iff. now apply frac_binary64. }
  assert (Emul : fmul (fsub secs (of_int (t mod 60))) 1000 = fmul (frac seconds) 1000).
  { unfold fmul. apply round64_comp. now rewrite Esub. }
  rewrite Emul, py_int_nonneg.
  - reflexivity.
  - apply round64_nonneg. destruct (frac_bounds seconds). unfold frac. lra.
Qed.

(** C5.  For every number of seconds [format_time] prints, zero-padded to
    two, two, two and three digits, the truncations of the quotient of
    [divmod] by 3600, of the quotient and the remainder of [divmod] by 60 of
    what is left, and of the fraction of that remainder times 1000.  For a
    binary64 value that is not negative and is below [2^53], [divmod] is
    exact: the fields are the hours, the minutes and the whole seconds of
    the floored value.  The milliseconds are the fraction times 1000, a
    binary64 product, cut toward zero: they are the cut exact product or,
    when the product rounds up to the next whole number, one more (0.29
    prints [,290]), and never reach 1000.  3725.25 gives [01:02:05,250].
    Far beyond [2^53] the quotient that [divmod] computes in binary64 can
    miss the floored one: the last two parts show a value near [10^19]
    seconds printed with one hour less. *)
Theorem format_time_spec (seconds : Q) :
  (let dm1 := float_divmod seconds 3600 in
   let dm2 := float_divmod (snd dm1) 60 in
   format_time seconds =
     (fmt_int0 2 (py_int (fst dm1)) ++ ":" ++ fmt_int0 2 (py_int (fst dm2)) ++ ":" ++
      fmt_int0 2 (py_int (snd dm2)) ++ "," ++
      fmt_int0 3 (py_int (fmul (fsub (snd dm2) (of_int (py_int (snd dm2)))) 1000)))%string) /\
  (is_binary64 seconds = true -> 0 <= seconds -> seconds < two53 ->
   format_time seconds =
     (fmt_int0 2 (hours_of seconds) ++ ":" ++ fmt_int0 2 (minutes_of seconds) ++ ":" ++
      fmt_int0 2 (seconds_of seconds) ++ "," ++ fmt_int0 3 (millis_of seconds))%string /\
   (0 <= hours_of seconds)%Z /\
   (0 <= minutes_of seconds < 60)%Z /\
   (0 <= seconds_of seconds < 60)%Z /\
   (0 <= millis_of seconds < 1000)%Z /\
   inject_Z (3600 * hours_of seconds + 60 * minutes_of seconds + seconds_of seconds)
     + frac seconds == seconds /\
   millis_of seconds = py_int (fmul (frac seconds) 1000) /\
   (Qfloor (frac seconds * 1000) <= millis_of seconds <= Qfloor (frac seconds * 1000) + 1)%Z /\
   (is_binary64 (frac seconds * 1000) = true ->
    millis_of seconds = Qfloor (frac seconds * 1000)) /\
   ((hours_of seconds < 100)%Z -> String.length (format_time seconds) = 12%nat)) /\
  format_time (372525 # 100) = "01:02:05,250" /\
  format_time (float_of (29 # 100)) = "00:00:00,290" /\
  Qfloor (frac (float_of (29 # 100)) * 1000) = 289%Z /\
  format_time 10211823862741325824 = "2836617739650367:17:04,000" /\
  hours_of 10211823862741325824 = 2836617739650368%Z.
Proof.
  split.
  { cbv zeta. unfold format_time.
    destruct (float_divmod seconds 3600) as [hours remainder]. cbn [fst snd].
    destruct (float_divmod remainder 60) as [minutes secs]. reflexivity. }
  split; [|repeat split; vm_compute; reflexivity].
  intros Hb Hpos H53.
  pose proof (Qfloor_nonneg _ Hpos) as Ht.
  pose proof (format_time_fields _ Hb Hpos H53) as Hfmt.
  destruct (millis_bounds seconds Hb Hpos H53) as [Hms1 Hms2].
  assert (Hh : (0 <= hours_of seconds)%Z) by (apply Z.div_pos; [exact Ht | lia]).
  assert (Hm : (0 <= minutes_of seconds < 60)%Z).
  { unfold minutes_of. pose proof (Z.mod_pos_bound (Qfloor seconds) 3600).
    Z.div_mod_to_equations. lia. }
  assert (Hs : (0 <= seconds_of seconds < 60)%Z) by (apply Z.mod_pos_bound; lia).
  repeat (split; [assumption|]).
  split; [|split; [|split; [|split]]].
  - unfold hours_of, minutes_of, seconds_of. set (t := Qfloor seconds).
    replace (3600 * (t / 3600) + 60 * (t mod 3600 / 60) + t mod 60)%Z with t.
    + unfold frac. fold t. ring.
    + pose proof (Z.mod_pos_bound t 3600). pose proof (Z.mod_pos_bound t 60).
      Z.div_mod_to_equations. lia.
  - unfold millis_of. symmetry. apply py_int_nonneg, round64_nonneg.
    destruct (frac_bounds seconds). unfold frac. lra.
  - exact Hms1.
  - intros Hex. unfold millis_of, fmul. apply Qfloor_comp.
    apply Qeq_bool_iff. exact Hex.
  - intros Hlt. rewrite Hfmt.
    rewrite !length_append, !fmt2_length, fmt3_length by lia. reflexivity.
Qed.

Lemma format_time_spec_witness :
  format_time (float_of (435 # 100)) = "00:00:04,349" /\
  String.length (format_time (float_of (435 # 100))) = 12%nat.
Proof.
  assert (Hb : is_binary64 (float_of (435 # 100)) = true) by (vm_compute; reflexivity).
  assert (H0 : 0 <= float_of (435 # 100)) by (vm_compute; discriminate).
  assert (H53 : float_of (435 # 100) < two53) by (vm_compute; reflexivity).
  destruct (format_time_spec (float_of (435 # 100))) as (_ & H & _).
  destruct (H Hb H0 H53) as (Hf & _ & _ & _ & _ & _ & _ & _ & _ & Hlen).
  split; [rewrite Hf; vm_compute; reflexivity | apply Hlen; vm_compute; reflexivity].
Defined.

End TimeFacts.

(** ** Subtitle serialization *)

Module SrtFacts.

Import Basics SrtSpec.
Import PyStr Subtitle.

Lemma srt_block_cue (i : nat) (e : Entry) : srt_block i e = cue_block (S i) e.
Proof. unfold srt_block, cue_block. now rewrite Nat.add_1_r. Qed.

(** The loop appends the cue blocks to what the file already holds. *)
Lemma write_srt_blocks (entries : list Entry) (i : nat) (file : string) :
  write_srt i entries file = (file ++ String.concat "" (cue_blocks (S i) entries))%string.
Proof.
  revert i file. induction entries as [|e r IH]; intros i file; simpl.
  - now rewrite append_nil_r.
  - rewrite IH, srt_block_cue, append_assoc. f_equal.
    destruct r as [|e' r']; simpl; [now rewrite append_nil_r | reflexivity].
Qed.

Lemma cue_blocks_length (n : nat) (entries : list Entry) :
  List.length (cue_blocks n entries) = List.length entries.
Proof. revert n. induction entries as [|e r IH]; intros n; simpl; [|rewrite IH]; reflexivity. Qed.

Lemma cue_blocks_nth (n k : nat) (entries : list Entry) (e : Entry) :
  nth_error entries k = Some e ->
  nth_error (cue_blocks n entries) k = Some (cue_block (n + k) e).
Proof.
  revert n k. induction entries as [|x r IH]; intros n [|k]; simpl; try discriminate.
  - intros [= ->]. now rewrite Nat.add_0_r.
  - intros H. rewrite (IH (S n) k H). f_equal. f_equal. lia.
Qed.

Lemma replace_newlines_no_LF (s : string) :
  PyStr.forallb (fun c => negb (c =? LF)%char) (replace_newlines s) = true.
Proof.
  unfold replace_newlines. induction s as [|c r IH]; simpl; [reflexivity|].
  rewrite IH, andb_true_r. destruct (c =? LF)%char eqn:E; [reflexivity | now rewrite E].
Qed.

Lemma replace_newlines_length (s : string) :
  String.length (replace_newlines s) = String.length s.
Proof. unfold replace_newlines. induction s as [|c r IH]; simpl; congruence. Qed.

(** Character by character, a newline becomes a space and nothing else
    changes. *)
Lemma replace_newlines_get (s : string) (i : nat) :
  String.get i (replace_newlines s) =
  option_map (fun c => if (c =? LF)%char then " "%char else c) (String.get i s).
Proof.
  unfold replace_newlines. revert i.
  induction s as [|c r IH]; intros [|i]; simpl; try reflexivity. apply IH.
Qed.

End SrtFacts.

(** ** Filename Resolver *)

Module FilenameFacts.

Import FilenameSpec.

(** C8.  A user title that is not empty after trimming is returned, trimmed,
    whatever the metadata lookup would give, and no lookup is made;
    otherwise the looked-up title is returned when the lookup succeeds, and
    [download_] followed by the clock reading as [YYMMDD_HHMM] when it
    fails; nothing is raised in any case.  Trimming is that of [str.strip]:
    the white space of Unicode goes too, so a title that is one
    ideographic space counts as empty. *)
Theorem get_safe_filename_priority (env : Env) (app : App) (url video_id : string) (w : World) :
  (PyStr.strip (title_var app) <> "" ->
   get_safe_filename env app url video_id w = (inr (PyStr.strip (title_var app)), w)) /\
  (PyStr.strip (title_var app) = "" ->
   forall title, yt_title env url = inr title ->
   fst (get_safe_filename env app url video_id w) = inr title) /\
  (PyStr.strip (title_var app) = "" ->
   forall e, yt_title env url = inl e ->
   fst (get_safe_filename env app url video_id w) =
   inr ("download_" ++
        PyStr.fmt_int0 2 (Z.of_nat (dt_year (now env) mod 100)) ++
        PyStr.fmt_int0 2 (Z.of_nat (dt_month (now env))) ++
        PyStr.fmt_int0 2 (Z.of_nat (dt_day (now env))) ++ "_" ++
        PyStr.fmt_int0 2 (Z.of_nat (dt_hour (now env))) ++
        PyStr.fmt_int0 2 (Z.of_nat (dt_minute (now env))))) /\
  fst (get_safe_filename (env_title (inl (mkExc LibraryError "unavailable")))
                         (app_title "  MyClip ") url video_id w) = inr "MyClip" /\
  fst (get_safe_filename (env_title (inl (mkExc LibraryError "unavailable")))
                         (app_title "  ") url video_id w) = inr "download_250220_0905" /\
  fst (get_safe_filename (env_title (inr "Remote title"))
                         (app_title ideographic_space) url video_id w) = inr "Remote title" /\
  fst (get_safe_filename (env_title (inr "Remote title"))
                         (app_title (nbsp ++ "Clip" ++ ideographic_space)) url video_id w)
    = inr "Clip".
Proof.
  unfold get_safe_filename, call_title, try_except, bind, log_call, modify, lift, ret.
  split; [|split; [|split; [|split; [|split; [|split]]]]].
  - intros H. destruct (PyStr.strip (title_var app)); [congruence | reflexivity].
  - intros H title Ht. rewrite H, Ht. reflexivity.
  - intros H e He. rewrite H, He. reflexivity.
  - reflexivity.
  - reflexivity.
  - reflexivity.
  - reflexivity.
Qed.

Lemma get_safe_filename_priority_witness :
  get_safe_filename (env_title (inr "Remote title")) (app_title "MyClip") "u" "v" world0
    = (inr "MyClip", world0) /\
  fst (get_safe_filename (env_title (inr "Remote title")) (app_title " ") "u" "v" world0)
    = inr "Remote title".
Proof.
  pose proof (get_safe_filename_priority (env_title (inr "Remote title"))
                (app_title "MyClip") "u" "v" world0) as (H1 & _).
  pose proof (get_safe_filename_priority (env_title (inr "Remote title"))
                (app_title " ") "u" "v" world0) as (_ & H2 & _).
  split.
  - apply H1. discriminate.
  - apply H2; reflexivity.
Defined.

End FilenameFacts.

(** ** Session guard *)

Module GuardFacts.

Import Basics GuardSpec.

Lemma get_safe_filename_effect (env : Env) (app : App) (url video_id : string) (w : World) :
  exists name lookups,
    get_safe_filename env app url video_id w =
      (inr name, set_calls (calls w ++ lookups) w) /\
    List.existsb is_download_work lookups = false.
Proof.
  unfold get_safe_filename, call_title, try_except, bind, log_call, modify, lift, ret.
  destruct (truthy (PyStr.strip (title_var app))).
  - exists (PyStr.strip (title_var app)), []. rewrite app_nil_r.
    split; [destruct w; reflexivity | reflexivity].
  - simpl. destruct (yt_title env url) as [e|title].
    + eexists. exists [CallTitle url]. split; reflexivity.
    + exists title, [CallTitle url]. split; reflexivity.
Qed.

Lemma refused_after_lookup (message : string) (w : World) (lookups : list Call) :
  List.existsb is_download_work lookups = false ->
  refused_with message w
    (snd (update_status message (set_calls (calls w ++ lookups) w))).
Proof.
  intros H. unfold refused_with, status. simpl.
  rewrite status_snoc. repeat split; try reflexivity.
  exists lookups. split; [reflexivity | exact H].
Qed.

(** C7.  With a URL entered and none of the three options selected, every
    revision reports its [select a download option] message and stops: no
    exception, no file, no transcript request and no media download. *)
Theorem no_option_selected (loc : Locale) (env : Env) (app : App) (w : World) :
  url_entry app <> "" ->
  sub_check app = false -> video_check app = false -> audio_check app = false ->
  (fst (V100.start_download loc env app w) = inr tt /\
   refused_with (msg_select_options loc) w (snd (V100.start_download loc env app w))) /\
  (fst (V101.start_download env app w) = inr tt /\
   refused_with V101.msg_select_options w (snd (V101.start_download env app w))) /\
  msg_select_options locale_en = "Please select download options.".
Proof.
  intros Hurl Hsub Hvid Haud.
  destruct (get_safe_filename_effect env app (url_entry app)
              (video_id_of (url_entry app)) w) as (name & lookups & Hname & Hwork).
  assert (Htruthy : truthy (url_entry app) = true)
    by (destruct (url_entry app); [congruence | reflexivity]).
  split; [|split; [|reflexivity]].
  - assert (Hrun : V100.start_download loc env app w =
                   update_status (msg_select_options loc)
                                 (set_calls (calls w ++ lookups) w)).
    { unfold V100.start_download. cbv zeta. rewrite Htruthy. cbn [negb].
      unfold bind at 1. rewrite Hname, Hsub, Hvid, Haud. reflexivity. }
    rewrite Hrun. split; [reflexivity | apply refused_after_lookup, Hwork].
  - assert (Hrun : V101.start_download env app w =
                   update_status V101.msg_select_options
                                 (set_calls (calls w ++ lookups) w)).
    { unfold V101.start_download. cbv zeta. rewrite Htruthy. cbn [negb].
      unfold bind at 1. rewrite Hname.
      unfold V101.keys, V101.options_selected. cbn [existsb].
      rewrite Hsub, Hvid, Haud. reflexivity. }
    rewrite Hrun. split; [reflexivity | apply refused_after_lookup, Hwork].
Qed.

Lemma no_option_selected_witness :
  status (snd (V100.start_download locale_en (FilenameSpec.env_title (inr "Clip"))
                 app_no_option FilenameSpec.world0))
    = Some "Please select download options." /\
  files (snd (V101.start_download (FilenameSpec.env_title (inr "Clip"))
                app_no_option FilenameSpec.world0)) = [].
Proof.
  assert (Hurl : url_entry app_no_option <> "") by discriminate.
  destruct (no_option_selected locale_en (FilenameSpec.env_title (inr "Clip"))
              app_no_option FilenameSpec.world0 Hurl eq_refl eq_refl eq_refl)
    as ((_ & _ & H1 & _) & (_ & _ & _ & H2 & _) & _).
  split; [exact H1 | exact H2].
Defined.

End GuardFacts.

(** ** Transcript selection, revision 1.0.0 *)

Module SelectFacts.

Import SelectSpec.
Import Provider.

Lemma concat_two {A : Type} (a b : list A) : List.concat [a; b] = (a ++ b)%list.
Proof. simpl. now rewrite app_nil_r. Qed.

Lemma concat_one {A : Type} (a : list A) : List.concat [a] = a.
Proof. simpl. now rewrite app_nil_r. Qed.

Lemma select_transcript_spec (tl : TranscriptList) (w : World) :
  V100.select_transcript tl w = (inr (select_spec tl), w).
Proof.
  unfold V100.select_transcript, select_spec, try_except, bind, lift, ret,
    find_transcript, find_generated_transcript, lookup, by_language.
  rewrite concat_two, concat_one. fold (iter tl).
  destruct (find (has_language "ko") (iter tl)); [reflexivity|].
  destruct (find (has_language "en") (iter tl)); [reflexivity|].
  destruct (find (has_language "ja") (iter tl)); [reflexivity|].
  cbn [is_NoTranscriptFound not_found exc_kind first_some].
  destruct (find (has_language "ja") (generated tl)); [reflexivity|].
  destruct (find (has_language "en") (generated tl)); [reflexivity|].
  unfold any_exception. destruct (hd_error (iter tl)); reflexivity.
Qed.






Ltac run_caption :=
  unfold V100.download_caption, call_list_transcripts, call_translate, call_fetch,
    open_write, write_files, log_call, update_status, modify, raise, lift, ret;
  unfold try_except, bind; cbn beta iota.

(** The file written once a track is chosen, fetched and the file created. *)
Lemma download_caption_saved (loc : Locale) (env : Env) (app : App)
    (video_id url safe_title : string) (is_srt : bool) (w : World) (tl : TranscriptList)
    (t t' : Transcript) (data : list Subtitle.Entry) :
  list_transcripts env video_id = inr tl ->
  select_spec tl = Some t -> fetched_track env t = inr t' ->
  fetch_result t' = inr data ->
  can_open env (caption_path env app safe_title is_srt) = true ->
  let w' := snd (V100.download_caption loc env app video_id url safe_title is_srt w) in
  files w' = (files w ++ [(caption_path env app safe_title is_srt,
                           Subtitle.caption_file_content is_srt data)])%list /\
  caption_progress_var w' = 100%Q /\
  status_log w' = status_log w.
Proof.
  intros Hlist Ht Htr Hfetch Hopen w'. subst w'.
  unfold fetched_track in Htr. unfold caption_path in *. run_caption.
  rewrite Hlist. cbn beta iota. rewrite select_transcript_spec, Ht. cbn beta iota.
  destruct (is_translatable t); cbn beta iota.
  - rewrite Htr. cbn beta iota. rewrite Hfetch. cbn beta iota.
    cbn [files set_calls]. rewrite Hopen. cbn. repeat split; reflexivity.
  - injection Htr as <-. rewrite Hfetch. cbn beta iota.
    cbn [files set_calls]. rewrite Hopen. cbn. repeat split; reflexivity.
Qed.



End SelectFacts.

(** ** The subtitle file *)

Module CaptionFileFacts.

Import Basics SrtSpec SelectSpec SrtFacts.
Import PyStr Float64 Subtitle.

(** [save_caption_to_file] creates the file at the path it builds and
    writes the serialised entries, or fails to create it and writes
    nothing. *)
Lemma save_caption_to_file_run (env : Env) (data : list Entry) (file_path : string)
    (is_srt : bool) (suffix : string) (w : World) :
  let full_path := (file_path ++ suffix ++ "." ++ (if is_srt then "srt" else "txt"))%string in
  V101.save_caption_to_file env data file_path is_srt suffix w =
  if can_open env full_path
  then (inr full_path,
        set_files (files w ++ [(full_path, caption_file_content is_srt data)]) w)
  else (inl (mkExc OSError ("cannot open " ++ full_path)), w).
Proof.
  unfold V101.save_caption_to_file, open_write, write_files, modify, raise, ret, bind.
  cbv zeta. destruct (can_open env _); reflexivity.
Qed.

(** C6.  The subtitle text of a list of entries is the concatenation of one
    cue block per entry, in order, the block of the entry at position [k]
    carrying the number [k + 1], the range from its start to its start plus
    duration (a binary64 sum), and its text with every newline turned into
    a space and nothing else changed, then an empty line.  That text is what
    [save_caption_to_file] of revision 1.0.1 and [download_caption] of
    revision 1.0.0 put in the file they create, and the rest of the world
    is left as it was by the former.  The two entries [Hi] and [Bye] give
    the two blocks of the specification. *)
Theorem srt_serialization (entries : list Entry) :
  caption_file_content true entries = String.concat "" (cue_blocks 1 entries) /\
  List.length (cue_blocks 1 entries) = List.length entries /\
  (forall (k : nat) (e : Entry),
      nth_error entries k = Some e ->
      nth_error (cue_blocks 1 entries) k =
      Some (str_nat (k + 1) ++ NL ++
            format_time (start e) ++ " --> " ++
            format_time (fadd (start e) match duration e with Some d => d | None => 0%Q end)
            ++ NL ++
            replace_newlines (text e) ++ NL ++ NL)%string /\
      PyStr.forallb (fun c => negb (c =? LF)%char) (replace_newlines (text e)) = true /\
      String.length (replace_newlines (text e)) = String.length (text e) /\
      (forall i, String.get i (replace_newlines (text e)) =
                 option_map (fun c => if (c =? LF)%char then " "%char else c)
                            (String.get i (text e)))) /\
  (forall (env : Env) (file_path suffix : string) (w : World),
      can_open env (file_path ++ suffix ++ ".srt") = true ->
      V101.save_caption_to_file env entries file_path true suffix w =
        (inr (file_path ++ suffix ++ ".srt")%string,
         set_files (files w ++ [((file_path ++ suffix ++ ".srt")%string,
                                 String.concat "" (cue_blocks 1 entries))]) w)) /\
  (forall (env : Env) (file_path suffix : string) (w : World),
      can_open env (file_path ++ suffix ++ ".srt") = false ->
      snd (V101.save_caption_to_file env entries file_path true suffix w) = w) /\
  (forall (loc : Locale) (env : Env) (app : App) (video_id url safe_title : string)
          (w : World) (tl : TranscriptList) (t t' : Transcript),
      list_transcripts env video_id = inr tl ->
      select_spec tl = Some t -> fetched_track env t = inr t' ->
      fetch_result t' = inr entries ->
      can_open env (caption_path env app safe_title true) = true ->
      files (snd (V100.download_caption loc env app video_id url safe_title true w)) =
        (files w ++ [(caption_path env app safe_title true,
                      String.concat "" (cue_blocks 1 entries))])%list) /\
  caption_file_content true hi_bye =
    ("1" ++ NL ++ "00:00:00,000 --> 00:00:02,000" ++ NL ++ "Hi" ++ NL ++ NL ++
     "2" ++ NL ++ "00:00:02,000 --> 00:00:05,000" ++ NL ++ "Bye" ++ NL ++ NL)%string.
Proof.
  assert (Hc : caption_file_content true entries = String.concat "" (cue_blocks 1 entries)).
  { unfold caption_file_content. now rewrite write_srt_blocks. }
  split; [exact Hc|]. split; [apply cue_blocks_length|].
  split; [|split; [|split; [|split]]].
  - intros k e H. split; [|split; [|split]].
    + rewrite (cue_blocks_nth 1 k entries e H). unfold cue_block.
      now rewrite (Nat.add_comm 1 k).
    + apply replace_newlines_no_LF.
    + apply replace_newlines_length.
    + apply replace_newlines_get.
  - intros env file_path suffix w Hopen.
    rewrite save_caption_to_file_run. cbv zeta.
    change ("." ++ "srt")%string with ".srt". now rewrite Hopen, Hc.
  - intros env file_path suffix w Hopen.
    rewrite save_caption_to_file_run. cbv zeta.
    change ("." ++ "srt")%string with ".srt". now rewrite Hopen.
  - intros loc env app video_id url safe_title w tl t t' Hlist Ht Htr Hfetch Hopen.
    rewrite <- Hc.
    exact (proj1 (SelectFacts.download_caption_saved loc env app video_id url safe_title
                    true w tl t t' entries Hlist Ht Htr Hfetch Hopen)).
  - vm_compute. reflexivity.
Qed.

Lemma srt_serialization_witness :
  nth_error (cue_blocks 1 hi_bye) 1 =
    Some ("2" ++ NL ++ "00:00:02,000 --> 00:00:05,000" ++ NL ++ "Bye" ++ NL ++ NL)%string /\
  files (snd (V101.save_caption_to_file env_ko_en hi_bye "/tmp/Clip" true "_en"
                FilenameSpec.world0)) =
    [("/tmp/Clip_en.srt",
      ("1" ++ NL ++ "00:00:00,000 --> 00:00:02,000" ++ NL ++ "Hi" ++ NL ++ NL ++
       "2" ++ NL ++ "00:00:02,000 --> 00:00:05,000" ++ NL ++ "Bye" ++ NL ++ NL)%string)].
Proof.
  destruct (srt_serialization hi_bye) as (_ & _ & H & Hsave & _ & _ & Hex).
  split.
  - destruct (H 1%nat (mkEntry 2 (Some 3%Q) "Bye") eq_refl) as (H1 & _).
    rewrite H1. vm_compute. reflexivity.
  - rewrite (Hsave env_ko_en "/tmp/Clip" "_en" FilenameSpec.world0 eq_refl).
    vm_compute. reflexivity.
Defined.

End CaptionFileFacts.

(** ** Transcript selection, revision 1.0.1 *)

Module MultiFacts.

Import MultiSpec.
Import Provider V101.

Lemma extends_refl (w : World) : extends w w [] 0.
Proof.
  unfold extends. rewrite app_nil_r. repeat split; try reflexivity.
  exists []. now rewrite app_nil_r.
Qed.

Lemma extends_trans (w w1 w2 : World) (l1 l2 : list string) (n1 n2 : nat) :
  extends w w1 l1 n1 -> extends w1 w2 l2 n2 -> extends w w2 (l1 ++ l2) (n1 + n2).
Proof.
  intros (Hs1 & (a1 & Hf1 & Hn1) & Hv1 & Ha1) (Hs2 & (a2 & Hf2 & Hn2) & Hv2 & Ha2).
  unfold extends. rewrite Hs2, Hs1, Hv2, Hv1, Ha2, Ha1, app_assoc.
  repeat split; try reflexivity.
  exists (a1 ++ a2)%list. rewrite Hf2, Hf1, <- app_assoc, length_app. split; congruence.
Qed.

Ltac solve_extends :=
  unfold extends; cbn; rewrite ?app_nil_r, <- ?app_assoc; cbn [List.app];
  repeat split; try reflexivity;
  first [ exists []; rewrite app_nil_r; split; reflexivity
        | eexists; split; reflexivity ].

Ltac run_block :=
  unfold save_caption_to_file, call_fetch, open_write, write_files, log_call,
    update_status, modify, raise, lift, ret;
  unfold try_except, bind, any_exception; cbn beta iota.

Section Blocks.

Variable env : Env.
Variable tl : TranscriptList.
Variable file_path : string.
Variable is_srt : bool.

Lemma korean_block_run (l : Language) (ds : list string) (w : World) :
  exists w1,
    korean_block env tl l file_path is_srt ds w =
      (inr (ds ++ names_korean env tl file_path is_srt l)%list, w1) /\
    extends w w1 (complaint_korean env tl file_path is_srt l)
            (List.length (names_korean env tl file_path is_srt l)).
Proof.
  unfold korean_block, names_korean, complaint_korean, korean_ok, saved, ext.
  destruct l; cbn [existsb Language_eqb orb andb wants_korean negb]; run_block.
  - destruct (find_transcript tl ["ko"]) as [e|t]; cbn beta iota.
    + eexists; split; [now rewrite app_nil_r | solve_extends].
    + destruct (fetch_result t) as [e|data]; cbn beta iota.
      * eexists; split; [now rewrite app_nil_r | solve_extends].
      * cbn. destruct (can_open env _); cbn.
        -- eexists; split; [reflexivity | solve_extends].
        -- eexists; split; [now rewrite app_nil_r | solve_extends].
  - eexists; split; [now rewrite app_nil_r | solve_extends].
  - destruct (find_transcript tl ["ko"]) as [e|t]; cbn beta iota.
    + eexists; split; [now rewrite app_nil_r | solve_extends].
    + destruct (fetch_result t) as [e|data]; cbn beta iota.
      * eexists; split; [now rewrite app_nil_r | solve_extends].
      * cbn. destruct (can_open env _); cbn.
        -- eexists; split; [reflexivity | solve_extends].
        -- eexists; split; [now rewrite app_nil_r | solve_extends].
Qed.

Ltac block_cases :=
  repeat match goal with
  | |- context [match find_transcript ?a ?b with _ => _ end] =>
      destruct (find_transcript a b); cbn beta iota
  | |- context [match find_generated_transcript ?a ?b with _ => _ end] =>
      destruct (find_generated_transcript a b); cbn beta iota
  | |- context [match fetch_result ?t with _ => _ end] =>
      destruct (fetch_result t); cbn
  | |- context [if can_open ?e ?p then _ else _] =>
      destruct (can_open e p); cbn
  end.

Lemma english_block_run (l : Language) (ds : list string) (w : World) :
  exists w1,
    english_block env tl l file_path is_srt ds w =
      (inr (ds ++ names_english env tl file_path is_srt l)%list, w1) /\
    extends w w1 (complaint_english env tl file_path is_srt l)
            (List.length (names_english env tl file_path is_srt l)).
Proof.
  unfold english_block, names_english, complaint_english, english_ok, auto_english_ok,
    saved, ext.
  destruct l; cbn [existsb Language_eqb orb andb wants_english negb]; run_block;
    block_cases;
    (eexists; split; [first [reflexivity | now rewrite app_nil_r] | solve_extends]).
Qed.

End Blocks.

Section Caption.

Variable env : Env.
Variable app : App.
Variables video_id url safe_title : string.
Variable is_srt : bool.

Lemma extends_step (w w1 : World) (l : list string) (n : nat) (f : World -> World)
    (l' : list string) :
  extends w w1 l n ->
  status_log (f w1) = (status_log w1 ++ l')%list ->
  files (f w1) = files w1 ->
  video_progress_var (f w1) = video_progress_var w1 ->
  audio_progress_var (f w1) = audio_progress_var w1 ->
  extends w (f w1) (l ++ l') n.
Proof.
  intros (Hs & (a & Hf & Hn) & Hv & Ha) Hs' Hf' Hv' Ha'.
  unfold extends. rewrite Hs', Hf', Hv', Ha', Hs, Hv, Ha, app_assoc.
  repeat split; try reflexivity. exists a. split; assumption.
Qed.

Lemma download_caption_listed (tl : TranscriptList) (w : World) :
  list_transcripts env video_id = inr tl ->
  exists w',
    download_caption env app video_id url safe_title is_srt w =
      (inr (match written env app safe_title is_srt tl with [] => false | _ => true end), w') /\
    extends w w' (lines env app safe_title is_srt tl) (List.length (written env app safe_title is_srt tl)) /\
    caption_progress_var w' = match written env app safe_title is_srt tl with [] => 0%Q | _ => 100%Q end.
Proof.
  intros Hlist.
  unfold download_caption, call_list_transcripts, update_status, log_call, modify, lift.
  unfold try_except, bind. cbn beta iota. rewrite Hlist. cbn beta iota.
  fold (base_path env app safe_title).
  match goal with |- context [korean_block _ _ _ _ _ _ ?w0] => set (w0' := w0) end.
  assert (H0 : extends w w0' [msg_downloading] 0) by (subst w0'; solve_extends).
  destruct (korean_block_run env tl (base_path env app safe_title) is_srt (language_var app) [] w0')
    as (w1 & -> & H1).
  cbn [List.app].
  destruct (english_block_run env tl (base_path env app safe_title) is_srt (language_var app)
              (names_korean env tl (base_path env app safe_title) is_srt (language_var app)) w1)
    as (w2 & -> & H2).
  pose proof (extends_trans _ _ _ _ _ _ _ (extends_trans _ _ _ _ _ _ _ H0 H1) H2) as H.
  cbn [List.app Nat.add] in H. rewrite <- length_app in H.
  unfold lines, written, closing.
  fold (names env tl (base_path env app safe_title) is_srt (language_var app)) in *.
  destruct (names env tl (base_path env app safe_title) is_srt (language_var app)) as [|x [|y r]];
    unfold ret, any_exception; cbn beta iota.
  - destruct (Language_eqb (language_var app) AllLanguages); cbn beta iota.
    + eexists. split; [reflexivity|]. split; [|reflexivity].
      rewrite !app_comm_cons, app_assoc.
      apply (extends_step w w2 _ _
               (fun w => set_caption_progress 0
                           (set_status_log (status_log w ++ [msg_none_found]) w)) _ H);
        reflexivity.
    + eexists. split; [reflexivity|]. split; [|reflexivity].
      rewrite !app_nil_r.
      replace (msg_downloading :: _)%list with
        (((msg_downloading ::
           complaint_korean env tl (base_path env app safe_title) is_srt (language_var app) ++
           complaint_english env tl (base_path env app safe_title) is_srt (language_var app)) ++ [])%list)
        by (now rewrite app_nil_r).
      apply (extends_step w w2 _ _ (fun w => set_caption_progress 0 w) [] H);
        try reflexivity. cbn. now rewrite app_nil_r.
  - eexists. split; [reflexivity|]. split; [|reflexivity].
    rewrite !app_comm_cons, app_assoc.
    apply (extends_step w w2 _ _
             (fun w => set_caption_progress 100
                         (set_status_log (status_log w ++ [x ++ msg_done_suffix]) w)) _ H);
      reflexivity.
  - eexists. split; [reflexivity|]. split; [|reflexivity].
    rewrite !app_comm_cons, app_assoc.
    apply (extends_step w w2 _ _
             (fun w => set_caption_progress 100
                         (set_status_log
                            (status_log w ++
                             [PyStr.join " 및 " (x :: y :: r) ++ msg_done_suffix]) w)) _ H);
      reflexivity.
Qed.

Lemma download_caption_unlisted (e : PyExc) (w : World) :
  list_transcripts env video_id = inl e ->
  exists w',
    download_caption env app video_id url safe_title is_srt w = (inr false, w') /\
    extends w w' [msg_downloading; msg_caption_failed ++ exc_msg e] 0 /\
    caption_progress_var w' = 0%Q.
Proof.
  intros Hlist.
  unfold download_caption, call_list_transcripts, update_status, log_call, modify, lift, ret.
  unfold try_except, bind, any_exception. cbn beta iota. rewrite Hlist. cbn beta iota.
  eexists. split; [reflexivity|]. split; [solve_extends | reflexivity].
Qed.

Lemma download_caption_shown (w : World) :
  status_log (snd (download_caption env app video_id url safe_title is_srt w)) =
  (status_log w ++ shown env app video_id safe_title is_srt)%list.
Proof.
  unfold shown. destruct (list_transcripts env video_id) as [e|tl] eqn:E.
  - destruct (download_caption_unlisted e w E) as (w' & -> & (H & _) & _). exact H.
  - destruct (download_caption_listed tl w E) as (w' & -> & (H & _) & _). exact H.
Qed.

Lemma no_korean_only_if :
  In msg_no_korean (shown env app video_id safe_title is_srt) -> language_var app = Korean.
Proof.
  unfold shown. destruct (list_transcripts env video_id) as [e|tl].
  - cbn. intros [H|[H|[]]]; discriminate H.
  - unfold lines, closing, names, names_korean, names_english, complaint_korean,
      complaint_english.
    destruct (language_var app); [reflexivity | |];
      destruct (korean_ok env tl (base_path env app safe_title) is_srt),
               (english_ok env tl (base_path env app safe_title) is_srt),
               (auto_english_ok env tl (base_path env app safe_title) is_srt);
      vm_compute; intros H;
      repeat match goal with H : _ \/ _ |- _ => destruct H as [H|H] end;
      solve [discriminate H | contradiction].
Qed.

Lemma no_english_only_if :
  In msg_no_english (shown env app video_id safe_title is_srt) -> language_var app = English.
Proof.
  unfold shown. destruct (list_transcripts env video_id) as [e|tl].
  - cbn. intros [H|[H|[]]]; discriminate H.
  - unfold lines, closing, names, names_korean, names_english, complaint_korean,
      complaint_english.
    destruct (language_var app); [|reflexivity|];
      destruct (korean_ok env tl (base_path env app safe_title) is_srt),
               (english_ok env tl (base_path env app safe_title) is_srt),
               (auto_english_ok env tl (base_path env app safe_title) is_srt);
      vm_compute; intros H;
      repeat match goal with H : _ \/ _ |- _ => destruct H as [H|H] end;
      solve [discriminate H | contradiction].
Qed.

End Caption.

(** C2.  In revision 1.0.1 with the selection [all], when the Korean track
    cannot be saved and an English track (exact, or else generated) can,
    [download_caption] returns [True] and shows, after its [downloading]
    line, one line that names the English track saved and nothing about
    Korean.  In every run the [no Korean subtitle] line appears only when
    Korean alone was requested, and the [no English subtitle] line only
    when English alone was requested. *)
Theorem all_languages_english_only (env : Env) (app : App)
    (video_id url safe_title : string) (is_srt : bool) (w : World) :
  let run := download_caption env app video_id url safe_title is_srt w in
  let path := base_path env app safe_title in
  (forall tl,
      list_transcripts env video_id = inr tl ->
      language_var app = AllLanguages ->
      korean_ok env tl path is_srt = false ->
      english_ok env tl path is_srt || auto_english_ok env tl path is_srt = true ->
      fst run = inr true /\
      status_log (snd run) =
        (status_log w ++
         [msg_downloading;
          ((if english_ok env tl path is_srt then name_english else name_auto_english)
           ++ msg_done_suffix)%string])%list /\
      ~ In msg_no_korean (shown env app video_id safe_title is_srt)) /\
  status_log (snd run) = (status_log w ++ shown env app video_id safe_title is_srt)%list /\
  (In msg_no_korean (shown env app video_id safe_title is_srt) ->
   language_var app = Korean) /\
  (In msg_no_english (shown env app video_id safe_title is_srt) ->
   language_var app = English).
Proof.
  intros run path. split; [|split; [|split]].
  - intros tl Hlist Hall Hko Hen. subst run path.
    destruct (download_caption_listed env app video_id url safe_title is_srt tl w Hlist)
      as (w' & -> & (Hs & _) & _).
    cbn [fst snd]. rewrite Hs.
    assert (Hno : ~ In msg_no_korean (shown env app video_id safe_title is_srt)).
    { intros Hin. apply no_korean_only_if in Hin. congruence. }
    unfold written, lines, closing, names, names_korean, names_english,
      complaint_korean, complaint_english.
    rewrite Hall, Hko. cbn [wants_korean wants_english Language_eqb andb negb List.app].
    destruct (english_ok env tl _ is_srt); cbn [List.app].
    + split; [reflexivity | split; [reflexivity | exact Hno]].
    + cbn [orb] in Hen. rewrite Hen. cbn [List.app].
      split; [reflexivity | split; [reflexivity | exact Hno]].
  - apply download_caption_shown.
  - apply no_korean_only_if.
  - apply no_english_only_if.
Qed.

Lemma all_languages_english_only_witness :
  status_log (snd (download_caption env_en_only app_all "abc" "u" "Clip" true
                     FilenameSpec.world0)) =
  [msg_downloading; (name_english ++ msg_done_suffix)%string].
Proof.
  destruct (all_languages_english_only env_en_only app_all "abc" "u" "Clip" true
              FilenameSpec.world0) as (H & _).
  destruct (H (mkTranscriptList [] [SelectSpec.track_en_auto])
              eq_refl eq_refl eq_refl eq_refl) as (_ & Hs & _).
  exact Hs.
Defined.

(** C10.  In revision 1.0.1 [download_caption] always returns a boolean.
    It returns [True] exactly when it has written a subtitle file, that is
    when its list of downloaded subtitles is not empty; the caption
    progress is 100 when it returns [True] and 0 when it returns [False],
    also when the listing raised and the exception was caught. *)
Theorem download_caption_result (env : Env) (app : App)
    (video_id url safe_title : string) (is_srt : bool) (w : World) :
  exists (b : bool) (w' : World) (added : list (string * string)),
    download_caption env app video_id url safe_title is_srt w = (inr b, w') /\
    files w' = (files w ++ added)%list /\
    (b = true <-> added <> []) /\
    (b = true <-> caption_progress_var w' = 100%Q) /\
    (b = false <-> caption_progress_var w' = 0%Q) /\
    (forall tl, list_transcripts env video_id = inr tl ->
                List.length added = List.length (written env app safe_title is_srt tl) /\
                (b = true <-> written env app safe_title is_srt tl <> [])) /\
    (forall e, list_transcripts env video_id = inl e -> b = false).
Proof.
  destruct (list_transcripts env video_id) as [e|tl] eqn:E.
  - destruct (download_caption_unlisted env app video_id url safe_title is_srt e w E)
      as (w' & Hrun & (_ & (added & Hf & Hn) & _) & Hp).
    exists false, w', added. rewrite Hp.
    destruct added; [|discriminate Hn].
    repeat split; try congruence; try discriminate; try reflexivity.
  - destruct (download_caption_listed env app video_id url safe_title is_srt tl w E)
      as (w' & Hrun & (_ & (added & Hf & Hn) & _) & Hp).
    eexists _, w', added. split; [exact Hrun|]. rewrite Hp.
    split; [exact Hf|].
    assert (Htl : forall tl0, inr tl = inr tl0 :> PyExc + TranscriptList -> tl0 = tl)
      by (intros tl0 H; now injection H).
    destruct (written env app safe_title is_srt tl) as [|x r] eqn:Ew;
      destruct added; try discriminate Hn;
      repeat split; intros;
      repeat match goal with
             | H : inr tl = inr _ |- _ => apply Htl in H; subst
             end;
      rewrite ?Ew; try congruence; try discriminate; try reflexivity.
Qed.

Lemma download_caption_result_witness :
  exists w', download_caption env_en_only app_all "abc" "u" "Clip" true
               FilenameSpec.world0 = (inr true, w') /\
             caption_progress_var w' = 100%Q /\
             List.length (files w') = 1%nat.
Proof.
  destruct (download_caption_result env_en_only app_all "abc" "u" "Clip" true
              FilenameSpec.world0)
    as (b & w' & added & Hrun & Hf & _ & Hp & _ & Hw & _).
  destruct (Hw (mkTranscriptList [] [SelectSpec.track_en_auto]) eq_refl) as (Hlen & Hb).
  assert (Htrue : b = true) by (apply Hb; discriminate).
  exists w'. rewrite Htrue in Hrun. split; [exact Hrun|]. split.
  - apply Hp, Htrue.
  - rewrite Hf, length_app, Hlen. reflexivity.
Defined.

End MultiFacts.

(** ** Progress hook *)

Module HookFacts.

Import HookSpec Progress.

Lemma extract_percent_value (s : string) :
  exists q, extract_percent s = inr q /\ (0 <= q)%Q.
Proof.
  rewrite ProgressFacts.extract_percent_of_float.
  destruct (PyNum.py_float _) as [e|v] eqn:E.
  - exists 0%Q. split; [reflexivity | apply Qle_refl].
  - exists v. split; [reflexivity | exact (ProgressFacts.py_float_nonneg _ _ E)].
Qed.

Lemma hook_frame_refl (mode : Mode) (w : World) : hook_frame mode w w.
Proof. unfold hook_frame. repeat split; reflexivity. Qed.

Lemma hook_frame_trans (mode : Mode) (w w1 w2 : World) :
  hook_frame mode w w1 -> hook_frame mode w1 w2 -> hook_frame mode w w2.
Proof.
  unfold hook_frame. intros (A1 & A2 & A3 & A4 & A5) (B1 & B2 & B3 & B4 & B5).
  repeat split; congruence.
Qed.

(** One notification. *)
Lemma hook_step (mode : Mode) (d : HookEvent) (w : World) :
  exists w',
    progress_hook mode d w = (inr tt, w') /\
    hook_frame mode w w' /\
    ((0 <= gauge mode w)%Q -> (0 <= gauge mode w')%Q) /\
    (d = Finished -> gauge mode w' = 100%Q) /\
    (forall s, d = Downloading s -> extract_percent s = inr (gauge mode w')).
Proof.
  destruct d as [s| |]; unfold progress_hook.
  - destruct (extract_percent_value s) as (q & Hq & Hpos).
    unfold bind, lift, modify. rewrite Hq.
    destruct mode; eexists; (split; [reflexivity|]);
      (split; [apply hook_frame_refl || (unfold hook_frame; cbn; tauto)|]);
      (split; [intros _; exact Hpos|]);
      (split; [discriminate|]);
      intros s' [= <-]; exact Hq.
  - unfold modify.
    destruct mode; eexists; (split; [reflexivity|]);
      (split; [unfold hook_frame; cbn; tauto|]);
      (split; [intros _; cbn; discriminate|]);
      (split; [reflexivity | discriminate]).
  - unfold ret. exists w. split; [reflexivity|]. split; [apply hook_frame_refl|].
    split; [tauto|]. split; discriminate.
Qed.

Lemma for_each_snoc {A : Type} (f : A -> M unit) (pre : list A) (d : A) (w w1 : World) :
  for_each f pre w = (inr tt, w1) ->
  for_each f (pre ++ [d]) w =
  match f d w1 with (inr _, w2) => (inr tt, w2) | (inl e, w2) => (inl e, w2) end.
Proof.
  revert w. induction pre as [|x r IH]; intros w H; cbn [List.app for_each] in *.
  - unfold ret in H. injection H as <-. unfold bind, ret.
    destruct (f d w) as [[e|u] w2]; reflexivity.
  - unfold bind in *. destruct (f x w) as [[e|[]] w0]; [discriminate|].
    apply IH, H.
Qed.

Lemma hook_run (mode : Mode) (events : list HookEvent) (w : World) :
  exists w',
    for_each (progress_hook mode) events w = (inr tt, w') /\
    hook_frame mode w w' /\
    ((0 <= gauge mode w)%Q -> (0 <= gauge mode w')%Q).
Proof.
  revert w. induction events as [|d r IH]; intros w; cbn [for_each].
  - exists w. split; [reflexivity|]. split; [apply hook_frame_refl | tauto].
  - destruct (hook_step mode d w) as (w1 & H1 & F1 & P1 & _).
    destruct (IH w1) as (w2 & H2 & F2 & P2).
    exists w2. unfold bind. rewrite H1. split; [exact H2|].
    split; [exact (hook_frame_trans _ _ _ _ F1 F2) | tauto].
Qed.

(** X1.  Whatever notifications the downloader sends, the hook of a mode
    never raises and changes nothing but the gauge of its mode: the other
    gauge, the caption gauge, the status bar, the files and the calls stay.
    A gauge that is not negative stays so; after a last [finished] it is
    100, after a last [downloading] it is the number read from that
    notification. *)
Theorem progress_hook_events (mode : Mode) (events : list HookEvent) (w : World) :
  exists w',
    for_each (progress_hook mode) events w = (inr tt, w') /\
    hook_frame mode w w' /\
    ((0 <= gauge mode w)%Q -> (0 <= gauge mode w')%Q) /\
    (forall pre, events = (pre ++ [Finished])%list -> gauge mode w' = 100%Q) /\
    (forall pre s, events = (pre ++ [Downloading s])%list ->
                   extract_percent s = inr (gauge mode w')).
Proof.
  destruct (hook_run mode events w) as (w' & Hrun & Hframe & Hpos).
  exists w'. split; [exact Hrun|]. split; [exact Hframe|]. split; [exact Hpos|].
  split.
  - intros pre ->. destruct (hook_run mode pre w) as (w1 & H1 & _).
    rewrite (for_each_snoc _ _ Finished _ _ H1) in Hrun.
    destruct (hook_step mode Finished w1) as (w2 & H2 & _ & _ & Hfin & _).
    rewrite H2 in Hrun. injection Hrun as <-. now apply Hfin.
  - intros pre s ->. destruct (hook_run mode pre w) as (w1 & H1 & _).
    rewrite (for_each_snoc _ _ (Downloading s) _ _ H1) in Hrun.
    destruct (hook_step mode (Downloading s) w1) as (w2 & H2 & _ & _ & _ & Hd).
    rewrite H2 in Hrun. injection Hrun as <-. now apply (Hd s).
Qed.

Lemma progress_hook_events_witness :
  exists w',
    for_each (progress_hook video) [Downloading " 37.5%"; Finished] (world_at 0 (1 # 2))
      = (inr tt, w') /\
    video_progress_var w' = 100%Q /\ audio_progress_var w' = (1 # 2)%Q.
Proof.
  destruct (progress_hook_events video [Downloading " 37.5%"; Finished] (world_at 0 (1 # 2)))
    as (w' & Hrun & (_ & _ & _ & _ & Hother) & _ & Hfin & _).
  exists w'. split; [exact Hrun|]. split.
  - exact (Hfin [Downloading " 37.5%"] eq_refl).
  - exact Hother.
Defined.

End HookFacts.

(** ** Media downloads *)

Module MediaFacts.

Import HookSpec HookFacts MediaSpec SessionSpec.

Lemma download_formats_app (a b : list Call) :
  download_formats (a ++ b) = (download_formats a ++ download_formats b)%list.
Proof.
  induction a as [|c a IH]; [reflexivity|].
  destruct c; cbn [List.app download_formats]; rewrite IH; reflexivity.
Qed.

(** One run of the downloader with the hook of [mode] registered. *)
Lemma run_ydl_run (env : Env) (opts : YdlOpts) (url : string) (mode : Mode) (w : World) :
  exists w',
    run_ydl env opts url (progress_hook mode) w =
      (match run_error (ydl_download env opts url) with
       | Some e => inl e
       | None => inr tt
       end, w') /\
    calls w' = (calls w ++ [CallDownload opts url])%list /\
    files w' = (files w ++ run_files (ydl_download env opts url))%list /\
    status_log w' = status_log w /\
    caption_progress_var w' = caption_progress_var w /\
    other_gauge mode w' = other_gauge mode w.
Proof.
  unfold run_ydl, log_call, write_files, modify, raise, ret.
  unfold bind at 1. cbv zeta.
  set (w0 := set_calls (calls w ++ [CallDownload opts url]) w).
  destruct (hook_run mode (run_events (ydl_download env opts url)) w0)
    as (w1 & Hrun & (Hs & Hf & Hc & Hp & Ho) & _).
  unfold bind. rewrite Hrun.
  destruct (run_error (ydl_download env opts url)) as [e|];
    eexists; (split; [reflexivity|]); cbn;
    rewrite ?Hs, ?Hf, ?Hc, ?Hp; subst w0; cbn;
    (repeat split; try reflexivity);
    destruct mode; cbn in *; exact Ho.
Qed.

Section Media101.

Variable env : Env.
Variable app : App.
Variables url safe_title : string.

(** The options revision 1.0.1 hands to the downloader. *)
Lemma download_video_audio_run (mode : Mode) (w : World) :
  exists opts w',
    V101.download_video_audio env app url safe_title mode w =
      (inr (succeeded (ydl_download env opts url)), w') /\
    opt_format opts = ydl_format app mode /\
    opt_outtmpl opts = path_join env (download_path app) (safe_title ++ ".%(ext)s") /\
    opt_extract_audio opts =
      match mode with audio => Some ("mp3", "192") | video => None end /\
    calls w' = (calls w ++ [CallDownload opts url])%list /\
    files w' = (files w ++ run_files (ydl_download env opts url))%list /\
    status_log w' = (status_log w ++ failure_lines mode (ydl_download env opts url))%list /\
    caption_progress_var w' = caption_progress_var w /\
    other_gauge mode w' = other_gauge mode w.
Proof.
  unfold V101.download_video_audio. cbv zeta.
  match goal with |- context [run_ydl env ?o url _] => set (opts := o) end.
  exists opts.
  destruct (run_ydl_run env opts url mode w) as (w1 & Hrun & Hc & Hf & Hs & Hp & Ho).
  unfold try_except, any_exception, update_status, modify, ret, succeeded, failure_lines.
  unfold bind at 1. rewrite Hrun.
  destruct (run_error (ydl_download env opts url)) as [e|]; cbn beta iota.
  - unfold bind. eexists. split; [reflexivity|]. cbn.
    rewrite Hc, Hf, Hs, Hp. repeat split; try reflexivity.
    destruct mode; exact Ho.
  - eexists. split; [reflexivity|].
    rewrite Hc, Hf, Hs, Hp, app_nil_r. repeat split; try reflexivity. exact Ho.
Qed.

End Media101.

(** X2.  In revision 1.0.1 [download_video_audio] never raises.  It starts
    exactly one download, with the format of the mode, the output template
    [<title>.%(ext)s] and, for audio only, the mp3/192 extraction; it
    returns [True] exactly when the downloader ended without an error, and
    otherwise shows one line that names the mode and the error.  The files
    the downloader left are recorded either way; the caption gauge and the
    gauge of the other mode are untouched. *)
Theorem download_video_audio_outcome (env : Env) (app : App) (url safe_title : string)
    (mode : Mode) (w : World) :
  exists opts b w',
    V101.download_video_audio env app url safe_title mode w = (inr b, w') /\
    (b = true <-> run_error (ydl_download env opts url) = None) /\
    (forall e, run_error (ydl_download env opts url) = Some e ->
               status w' = Some (mode_name mode ++ V101.msg_media_failed ++ exc_msg e)) /\
    (b = true -> status_log w' = status_log w) /\
    opt_format opts = ydl_format app mode /\
    opt_outtmpl opts = path_join env (download_path app) (safe_title ++ ".%(ext)s") /\
    opt_extract_audio opts =
      match mode with audio => Some ("mp3", "192") | video => None end /\
    calls w' = (calls w ++ [CallDownload opts url])%list /\
    files w' = (files w ++ run_files (ydl_download env opts url))%list /\
    caption_progress_var w' = caption_progress_var w /\
    other_gauge mode w' = other_gauge mode w.
Proof.
  destruct (download_video_audio_run env app url safe_title mode w)
    as (opts & w' & Hrun & Hfmt & Htmpl & Hx & Hc & Hf & Hs & Hp & Ho).
  exists opts, (succeeded (ydl_download env opts url)), w'.
  split; [exact Hrun|]. unfold succeeded, failure_lines, status in *.
  destruct (run_error (ydl_download env opts url)) as [e|].
  - split; [split; discriminate|]. split.
    + intros e' [= <-]. rewrite Hs. apply Basics.status_snoc.
    + split; [discriminate|]. repeat split; assumption.
  - split; [split; reflexivity|]. split; [discriminate|].
    split; [intros _; now rewrite Hs, app_nil_r|]. repeat split; assumption.
Qed.

Lemma download_video_audio_outcome_witness :
  fst (V101.download_video_audio env_video_fails app_media "u" "Clip" audio
         (world_at 0 0)) = inr true /\
  status (snd (V101.download_video_audio env_video_fails app_media "u" "Clip" video
                 (world_at 0 0)))
    = Some (mode_name video ++ V101.msg_media_failed ++ "ERROR: network unreachable").
Proof.
  destruct (download_video_audio_outcome env_video_fails app_media "u" "Clip" audio
              (world_at 0 0)) as (oa & ba & wa & Ha & Hba & _ & _ & Hfa & _).
  destruct (download_video_audio_outcome env_video_fails app_media "u" "Clip" video
              (world_at 0 0)) as (ov & bv & wv & Hv & _ & Hev & _ & Hfv & _).
  rewrite Ha, Hv. cbn [fst snd]. split.
  - f_equal. apply Hba. cbn. rewrite Hfa. reflexivity.
  - apply (Hev (mkExc LibraryError "ERROR: network unreachable")).
    cbn. rewrite Hfv. reflexivity.
Defined.

End MediaFacts.

(** ** Session controller *)

Module SessionFacts.

Import Basics SessionSpec.
Import V101 MultiSpec MultiFacts.

Section Session.

Variable env : Env.
Variable app : App.
Variables video_id url safe_title : string.

(** The caption task comes back with its outcome. *)
Lemma download_caption_returns (w : World) :
  exists w', download_caption env app video_id url safe_title (srt_check app) w =
             (inr (caption_ok env app video_id safe_title), w').
Proof.
  unfold caption_ok.
  destruct (list_transcripts env video_id) as [e|tl] eqn:E.
  - destruct (download_caption_unlisted env app video_id url safe_title (srt_check app) e w E)
      as (w' & H & _).
    eauto.
  - destruct (download_caption_listed env app video_id url safe_title (srt_check app) tl w E)
      as (w' & H & _).
    eauto.
Qed.

(** A media task comes back with its outcome. *)
Lemma download_video_audio_returns (mode : Mode) (w : World) :
  exists w', download_video_audio env app url safe_title mode w =
             (inr (media_ok env app url safe_title mode), w').
Proof.
  unfold download_video_audio, media_ok. cbv zeta.
  fold (media_opts env app safe_title mode).
  destruct (MediaFacts.run_ydl_run env (media_opts env app safe_title mode) url mode w)
    as (w1 & Hrun & _).
  unfold try_except, any_exception, update_status, modify, ret.
  unfold bind at 1. rewrite Hrun.
  destruct (run_error (ydl_download env (media_opts env app safe_title mode) url)) as [e|];
    cbn beta iota; unfold bind; eauto.
Qed.

Lemma summarize_run (success : Opt -> bool) (w : World) :
  fst (summarize app success w) = inr tt /\
  (only_caption_failed app success -> snd (summarize app success w) = w) /\
  (~ only_caption_failed app success -> all_selected_succeeded app success ->
   snd (summarize app success w) = say msg_all_completed w) /\
  (~ all_selected_succeeded app success -> has_other_success app success ->
   snd (summarize app success w) = say msg_partly_completed w) /\
  (~ all_selected_succeeded app success -> ~ has_other_success app success ->
   snd (summarize app success w) = w).
Proof.
  unfold only_caption_failed, all_selected_succeeded, has_other_success, selected,
    summarize, keys.
  cbn [List.filter forallb existsb Opt_eqb negb andb].
  destruct (options_selected app caption) eqn:Sc, (options_selected app video_opt) eqn:Sv,
    (options_selected app audio_opt) eqn:Sa,
    (success caption) eqn:Rc, (success video_opt) eqn:Rv, (success audio_opt) eqn:Ra;
    cbn [List.filter forallb existsb Opt_eqb negb andb orb];
    rewrite ?Rc, ?Rv, ?Ra; cbn [andb orb negb];
    (split; [reflexivity|]); (split; [|split; [|split]]); intros H1; try intros H2;
    try reflexivity;
    try (exfalso; apply H1; tauto);
    try (destruct H1 as (? & ? & ? & ?); discriminate);
    try (pose proof (H2 caption Sc); congruence);
    try (pose proof (H2 video_opt Sv); congruence);
    try (pose proof (H2 audio_opt Sa); congruence);
    try (exfalso; apply H1; intros [] ?; congruence);
    try (destruct H2 as ([] & ? & ? & ?); congruence);
    try (exfalso; apply H2; exists video_opt; repeat split; congruence);
    try (exfalso; apply H2; exists audio_opt; repeat split; congruence).
Qed.

(** The three tasks are run in order, each selected one exactly once, and
    [success] records how each ended. *)
Lemma run_selected_run (w : World) :
  exists success w1,
    run_selected env app video_id url safe_title w = (inr success, w1) /\
    (forall opt, success opt =
                 selected app opt && outcome env app video_id url safe_title opt) /\
    (selected app caption = true ->
     exists wc,
       download_caption env app video_id url safe_title (srt_check app) w =
         (inr (success caption), wc) /\
       (selected app video_opt = false -> selected app audio_opt = false -> w1 = wc)).
Proof.
  unfold run_selected, selected, bind, ret.
  destruct (options_selected app caption) eqn:Sc.
  - destruct (download_caption_returns w) as (wc & Hc). rewrite Hc.
    destruct (options_selected app video_opt) eqn:Sv.
    + destruct (download_video_audio_returns video wc) as (wv & Hv). rewrite Hv.
      destruct (options_selected app audio_opt) eqn:Sa.
      * destruct (download_video_audio_returns audio wv) as (wa & Ha). rewrite Ha.
        eexists _, _. split; [reflexivity|]. split.
        -- intros []; unfold outcome, setitem; cbn [Opt_eqb];
           rewrite ?Sc, ?Sv, ?Sa; reflexivity.
        -- intros _. exists wc. split; [reflexivity | discriminate].
      * eexists _, _. split; [reflexivity|]. split.
        -- intros []; unfold outcome, setitem; cbn [Opt_eqb];
           rewrite ?Sc, ?Sv, ?Sa; reflexivity.
        -- intros _. exists wc. split; [reflexivity | discriminate].
    + destruct (options_selected app audio_opt) eqn:Sa.
      * destruct (download_video_audio_returns audio wc) as (wa & Ha). rewrite Ha.
        eexists _, _. split; [reflexivity|]. split.
        -- intros []; unfold outcome, setitem; cbn [Opt_eqb];
           rewrite ?Sc, ?Sv, ?Sa; reflexivity.
        -- intros _. exists wc. split; [reflexivity | discriminate].
      * eexists _, _. split; [reflexivity|]. split.
        -- intros []; unfold outcome, setitem; cbn [Opt_eqb];
           rewrite ?Sc, ?Sv, ?Sa; reflexivity.
        -- intros _. exists wc. split; [reflexivity | reflexivity].
  - destruct (options_selected app video_opt) eqn:Sv.
    + destruct (download_video_audio_returns video w) as (wv & Hv). rewrite Hv.
      destruct (options_selected app audio_opt) eqn:Sa.
      * destruct (download_video_audio_returns audio wv) as (wa & Ha). rewrite Ha.
        eexists _, _. split; [reflexivity|]. split.
        -- intros []; unfold outcome, setitem; cbn [Opt_eqb];
           rewrite ?Sc, ?Sv, ?Sa; reflexivity.
        -- discriminate.
      * eexists _, _. split; [reflexivity|]. split.
        -- intros []; unfold outcome, setitem; cbn [Opt_eqb];
           rewrite ?Sc, ?Sv, ?Sa; reflexivity.
        -- discriminate.
    + destruct (options_selected app audio_opt) eqn:Sa.
      * destruct (download_video_audio_returns audio w) as (wa & Ha). rewrite Ha.
        eexists _, _. split; [reflexivity|]. split.
        -- intros []; unfold outcome, setitem; cbn [Opt_eqb];
           rewrite ?Sc, ?Sv, ?Sa; reflexivity.
        -- discriminate.
      * eexists _, _. split; [reflexivity|]. split.
        -- intros []; unfold outcome, setitem; cbn [Opt_eqb];
           rewrite ?Sc, ?Sv, ?Sa; reflexivity.
        -- discriminate.
Qed.

Lemma lines_failure (is_srt : bool) (tl : TranscriptList) :
  written env app safe_title is_srt tl = [] ->
  exists pre m, lines env app safe_title is_srt tl = (pre ++ [m])%list /\
                is_caption_failure m.
Proof.
  unfold written, lines, closing, names, names_korean, names_english, complaint_korean,
    complaint_english, is_caption_failure.
  destruct (language_var app);
    destruct (korean_ok env tl _ is_srt), (english_ok env tl _ is_srt),
             (auto_english_ok env tl _ is_srt);
    cbn [wants_korean wants_english Language_eqb andb negb List.app];
    try discriminate; intros _.
  all: try (exists [msg_downloading], msg_no_korean; split; [reflexivity | tauto]).
  all: try (exists [msg_downloading], msg_no_english; split; [reflexivity | tauto]).
  all: try (exists [msg_downloading], msg_none_found; split; [reflexivity | tauto]).
Qed.

(** A failed caption task leaves its own failure line in the status bar. *)
Lemma caption_failure_status (is_srt : bool) (w wc : World) :
  download_caption env app video_id url safe_title is_srt w = (inr false, wc) ->
  exists m, status wc = Some m /\ is_caption_failure m.
Proof.
  intros Hrun. unfold status.
  destruct (list_transcripts env video_id) as [e|tl] eqn:E.
  - destruct (download_caption_unlisted env app video_id url safe_title is_srt e w E)
      as (w' & Hrun' & (Hs & _) & _).
    rewrite Hrun in Hrun'. injection Hrun' as <-. rewrite Hs.
    exists (msg_caption_failed ++ exc_msg e)%string. split.
    + change [msg_downloading; (msg_caption_failed ++ exc_msg e)%string]
        with ([msg_downloading] ++ [(msg_caption_failed ++ exc_msg e)%string])%list.
      rewrite app_assoc. apply status_snoc.
    + right. right. right. now exists (exc_msg e).
  - destruct (download_caption_listed env app video_id url safe_title is_srt tl w E)
      as (w' & Hrun' & (Hs & _) & _).
    rewrite Hrun in Hrun'. injection Hrun' as Hb <-.
    assert (Hw : written env app safe_title is_srt tl = [])
      by (destruct (written env app safe_title is_srt tl); [reflexivity | discriminate Hb]).
    destruct (lines_failure is_srt tl Hw) as (pre & m & Hl & Hm).
    exists m. split; [|exact Hm]. rewrite Hs, Hl, app_assoc. apply status_snoc.
Qed.

End Session.

(** C3.  In revision 1.0.1 the worker runs the selected tasks and records
    for each how it ended: the caption task succeeds when a subtitle file
    was written, a media task when the downloader ended without an error,
    and a task that was not selected counts as not succeeded.  When
    captions alone were selected and the caption task failed, the worker
    adds no line: the status bar keeps the failure line of the caption
    task.  Otherwise, when every selected task succeeded the worker ends on
    the full-completion line; when not every one did but a selected video
    or audio task succeeded, it ends on the partial-completion line; and
    when no selected video or audio task succeeded it adds nothing. *)
Theorem session_summary (env : Env) (app : App) (video_id url safe_title : string)
    (w : World) :
  exists (success : Opt -> bool) (w1 : World),
    run_selected env app video_id url safe_title w = (inr success, w1) /\
    (forall opt, success opt =
                 selected app opt && outcome env app video_id url safe_title opt) /\
    (forall w0, fst (download_caption env app video_id url safe_title (srt_check app) w0) =
                inr (outcome env app video_id url safe_title caption)) /\
    (forall w0, fst (download_video_audio env app url safe_title video w0) =
                inr (outcome env app video_id url safe_title video_opt)) /\
    (forall w0, fst (download_video_audio env app url safe_title audio w0) =
                inr (outcome env app video_id url safe_title audio_opt)) /\
    let w2 := snd (run_tasks env app video_id url safe_title w) in
    fst (run_tasks env app video_id url safe_title w) = inr tt /\
    (only_caption_failed app success ->
     w2 = snd (download_caption env app video_id url safe_title (srt_check app) w) /\
     exists m, status w2 = Some m /\ is_caption_failure m) /\
    (~ only_caption_failed app success -> all_selected_succeeded app success ->
     status_log w2 = (status_log w1 ++ [msg_all_completed])%list /\
     status w2 = Some msg_all_completed) /\
    (~ all_selected_succeeded app success -> has_other_success app success ->
     status_log w2 = (status_log w1 ++ [msg_partly_completed])%list /\
     status w2 = Some msg_partly_completed) /\
    (~ all_selected_succeeded app success -> ~ has_other_success app success ->
     w2 = w1).
Proof.
  destruct (run_selected_run env app video_id url safe_title w)
    as (success & w1 & Hrun & Hout & Hcap).
  exists success, w1. split; [exact Hrun|]. split; [exact Hout|].
  split; [intros w0; destruct (download_caption_returns env app video_id url safe_title w0)
                       as (w' & ->); reflexivity|].
  split; [intros w0; destruct (download_video_audio_returns env app url safe_title video w0)
                       as (w' & ->); reflexivity|].
  split; [intros w0; destruct (download_video_audio_returns env app url safe_title audio w0)
                       as (w' & ->); reflexivity|].
  destruct (summarize_run app success w1) as (Hok & Hnone & Hall & Hpart & Hquiet).
  assert (Htasks : run_tasks env app video_id url safe_title w = summarize app success w1).
  { unfold run_tasks, try_except. unfold bind at 1. rewrite Hrun.
    destruct (summarize app success w1) as [[e|u] w2]; [discriminate Hok | reflexivity]. }
  rewrite Htasks. cbv zeta. split; [exact Hok|]. split; [|split; [|split]].
  - intros Honly. rewrite (Hnone Honly).
    destruct Honly as (Sc & Rc & Sv & Sa).
    destruct (Hcap Sc) as (wc & Hc & Hw). rewrite Hc, (Hw Sv Sa). split; [reflexivity|].
    rewrite Rc in Hc. exact (caption_failure_status env app video_id url safe_title _ w wc Hc).
  - intros Hn Ha. rewrite (Hall Hn Ha). unfold status. cbn.
    split; [reflexivity | apply status_snoc].
  - intros Hn Ho. rewrite (Hpart Hn Ho). unfold status. cbn.
    split; [reflexivity | apply status_snoc].
  - intros Hn Ho. exact (Hquiet Hn Ho).
Qed.

(** Revision 1.0.0 behaves otherwise: with captions alone selected, when
    the caption task fails (the listing is refused, or there is no track)
    it reports its failure and the worker then overwrites that line with
    the completion line. *)
Lemma v100_caption_failure_overwritten :
  let w := snd (V100.start_download locale_en env_disabled app_caption_only
                  FilenameSpec.world0) in
  let w' := snd (V100.start_download locale_en env_no_tracks app_caption_only
                   FilenameSpec.world0) in
  sub_check app_caption_only = true /\
  video_check app_caption_only = false /\ audio_check app_caption_only = false /\
  files w = [] /\ caption_progress_var w = 0%Q /\
  status_log w = ["Subtitle download failed: Subtitles are disabled for this video";
                  "All downloads completed!"] /\
  status w = Some "All downloads completed!" /\
  files w' = [] /\ caption_progress_var w' = 0%Q /\
  List.length (status_log w') = 2%nat /\
  status w' = Some "All downloads completed!".
Proof.
  cbv zeta. repeat split; reflexivity.
Qed.

Lemma session_summary_witness :
  status (snd (run_tasks env_no_tracks app_caption_only "abc" "u" "Clip"
                 FilenameSpec.world0)) = Some msg_no_korean /\
  status (snd (run_tasks MediaSpec.env_video_fails MediaSpec.app_media "abc" "u" "Clip"
                 FilenameSpec.world0)) = Some msg_partly_completed.
Proof.
  split.
  - destruct (session_summary env_no_tracks app_caption_only "abc" "u" "Clip"
                FilenameSpec.world0)
      as (success & w1 & _ & Hout & _ & _ & _ & _ & Honly & _).
    assert (Hfail : only_caption_failed app_caption_only success).
    { repeat split; try reflexivity. rewrite Hout. reflexivity. }
    destruct (Honly Hfail) as (Hw & _).
    cbv zeta in Hw. rewrite Hw. reflexivity.
  - destruct (session_summary MediaSpec.env_video_fails MediaSpec.app_media "abc" "u" "Clip"
                FilenameSpec.world0)
      as (success & w1 & _ & Hout & _ & _ & _ & _ & _ & _ & Hpart & _).
    assert (Hnot : ~ all_selected_succeeded MediaSpec.app_media success).
    { intros Hall. specialize (Hall video_opt eq_refl). rewrite Hout in Hall.
      discriminate Hall. }
    assert (Hother : has_other_success MediaSpec.app_media success).
    { exists audio_opt. split; [discriminate|]. split; [reflexivity|].
      rewrite Hout. reflexivity. }
    exact (proj2 (Hpart Hnot Hother)).
Defined.

End SessionFacts.

(** ** Files and calls of the caption task, revision 1.0.1 *)

Module PathFacts.

Import Provider V101 MultiSpec MultiFacts MediaSpec PathSpec.

Lemma adds_refl (w : World) : adds w w [].
Proof.
  split; [exists [] | exists []]; rewrite app_nil_r; split; reflexivity.
Qed.

Lemma adds_trans (w w1 w2 : World) (p1 p2 : list string) :
  adds w w1 p1 -> adds w1 w2 p2 -> adds w w2 (p1 ++ p2).
Proof.
  intros ((c1 & Hc1 & Hd1) & (f1 & Hf1 & Hp1)) ((c2 & Hc2 & Hd2) & (f2 & Hf2 & Hp2)).
  split.
  - exists (c1 ++ c2)%list. rewrite Hc2, Hc1, <- app_assoc. split; [reflexivity|].
    rewrite MediaFacts.download_formats_app, Hd1, Hd2. reflexivity.
  - exists (f1 ++ f2)%list. rewrite Hf2, Hf1, <- app_assoc. split; [reflexivity|].
    rewrite List.map_app, Hp1, Hp2. reflexivity.
Qed.

Ltac solve_adds :=
  unfold adds; cbn; rewrite ?app_nil_r, <- ?app_assoc; cbn [List.app];
  split;
  [ first [ exists []; rewrite app_nil_r; split; reflexivity
          | eexists; split; reflexivity ]
  | first [ exists []; rewrite app_nil_r; split; reflexivity
          | eexists; split; reflexivity ] ].

Ltac provider_cases :=
  repeat match goal with
  | |- context [match find_transcript ?a ?b with _ => _ end] =>
      destruct (find_transcript a b); cbn beta iota
  | |- context [match find_generated_transcript ?a ?b with _ => _ end] =>
      destruct (find_generated_transcript a b); cbn beta iota
  | |- context [match fetch_result ?t with _ => _ end] =>
      destruct (fetch_result t); cbn
  | |- context [if can_open ?e ?p then _ else _] =>
      destruct (can_open e p); cbn
  end.

Section Blocks.

Variable env : Env.
Variable tl : TranscriptList.
Variable file_path : string.
Variable is_srt : bool.

Lemma korean_block_adds (l : Language) (ds : list string) (w : World) :
  exists r w1,
    korean_block env tl l file_path is_srt ds w = (inr r, w1) /\
    adds w w1 (korean_paths env tl file_path is_srt l).
Proof.
  unfold korean_block, korean_paths, full_path, korean_ok, saved, ext.
  destruct l; cbn [existsb Language_eqb orb andb wants_korean negb]; run_block;
    provider_cases; (eexists; eexists; split; [reflexivity | solve_adds]).
Qed.

Lemma english_block_adds (l : Language) (ds : list string) (w : World) :
  exists r w1,
    english_block env tl l file_path is_srt ds w = (inr r, w1) /\
    adds w w1 (english_paths env tl file_path is_srt l).
Proof.
  unfold english_block, english_paths, full_path, english_ok, auto_english_ok, saved, ext.
  destruct l; cbn [existsb Language_eqb orb andb wants_english negb]; run_block;
    provider_cases; (eexists; eexists; split; [reflexivity | solve_adds]).
Qed.

End Blocks.

Lemma adds_same (w w1 : World) :
  calls w1 = calls w -> files w1 = files w -> adds w w1 [].
Proof.
  intros Hc Hf. split; [exists [] | exists []]; rewrite app_nil_r; split;
    reflexivity || assumption.
Qed.

Lemma adds_then_same (w w1 w2 : World) (p : list string) :
  adds w w1 p -> calls w2 = calls w1 -> files w2 = files w1 -> adds w w2 p.
Proof.
  intros ((cs & Hc & Hd) & (fs & Hf & Hp)) Hc' Hf'. split.
  - exists cs. split; congruence.
  - exists fs. split; congruence.
Qed.

Lemma append_inv_head (a b c : string) : (a ++ b = a ++ c)%string -> b = c.
Proof.
  induction a as [|x a IH]; simpl; intros H; [exact H|].
  injection H as H. exact (IH H).
Qed.

Section Caption.

Variable env : Env.
Variable app : App.
Variables video_id url safe_title : string.
Variable is_srt : bool.

(** The paths of the files one run of [download_caption] writes. *)
Lemma download_caption_adds (w : World) :
  exists b w',
    download_caption env app video_id url safe_title is_srt w = (inr b, w') /\
    adds w w'
      match list_transcripts env video_id with
      | inr tl =>
          (korean_paths env tl (base_path env app safe_title) is_srt (language_var app) ++
           english_paths env tl (base_path env app safe_title) is_srt (language_var app))%list
      | inl _ => []
      end.
Proof.
  unfold download_caption, call_list_transcripts, update_status, log_call, modify, lift.
  unfold try_except, bind, any_exception, ret. cbn beta iota.
  destruct (list_transcripts env video_id) as [e|tl]; cbn beta iota.
  - eexists; eexists; split; [reflexivity | solve_adds].
  - fold (base_path env app safe_title).
    match goal with |- context [korean_block _ _ _ _ _ _ ?w0] => set (w0' := w0) end.
    assert (H0 : adds w w0' []) by (subst w0'; solve_adds).
    destruct (korean_block_adds env tl (base_path env app safe_title) is_srt
                (language_var app) [] w0') as (r1 & w1 & -> & H1).
    destruct (english_block_adds env tl (base_path env app safe_title) is_srt
                (language_var app) r1 w1) as (r2 & w2 & -> & H2).
    pose proof (adds_trans _ _ _ _ _ (adds_trans _ _ _ _ _ H0 H1) H2) as H.
    cbn [List.app] in H.
    destruct r2 as [|x r2].
    + destruct (Language_eqb (language_var app) AllLanguages);
        eexists; eexists; (split; [reflexivity|]);
        (apply (adds_then_same w w2 _ _ H); reflexivity).
    + destruct (List.length (x :: r2) =? 1)%nat;
        eexists; eexists; (split; [reflexivity|]);
        (apply (adds_then_same w w2 _ _ H); reflexivity).
Qed.

End Caption.

(** X3.  One run of [download_caption] of revision 1.0.1 writes at most two
    files, each at the base path followed by [_kr], [_en] or [_auto_en] and
    the extension, never two at the same path and never both English
    variants; it starts no media download. *)
Theorem caption_files_distinct (env : Env) (app : App)
    (video_id url safe_title : string) (is_srt : bool) (w : World) :
  let w' := snd (download_caption env app video_id url safe_title is_srt w) in
  let at_ := full_path (base_path env app safe_title) is_srt in
  exists (cs : list Call) (fs : list (string * string)),
    calls w' = (calls w ++ cs)%list /\ download_formats cs = [] /\
    files w' = (files w ++ fs)%list /\
    NoDup (List.map fst fs) /\
    (List.length fs <= 2)%nat /\
    (forall p, In p (List.map fst fs) ->
               p = at_ "_kr" \/ p = at_ "_en" \/ p = at_ "_auto_en") /\
    ~ (In (at_ "_en") (List.map fst fs) /\ In (at_ "_auto_en") (List.map fst fs)).
Proof.
  cbv zeta.
  destruct (download_caption_adds env app video_id url safe_title is_srt w)
    as (b & w' & -> & (cs & Hc & Hd) & (fs & Hf & Hp)).
  cbn [snd]. exists cs, fs.
  split; [exact Hc|]. split; [exact Hd|]. split; [exact Hf|].
  assert (Hlen : List.length fs = List.length (List.map fst fs))
    by (now rewrite length_map).
  rewrite Hlen, Hp. clear Hlen Hp Hf Hc Hd.
  set (fp := base_path env app safe_title).
  assert (Hke : full_path fp is_srt "_kr" <> full_path fp is_srt "_en").
  { unfold full_path. intros H. apply append_inv_head in H. discriminate H. }
  assert (Hka : full_path fp is_srt "_kr" <> full_path fp is_srt "_auto_en").
  { unfold full_path. intros H. apply append_inv_head in H. discriminate H. }
  assert (Hea : full_path fp is_srt "_en" <> full_path fp is_srt "_auto_en").
  { unfold full_path. intros H. apply append_inv_head in H. discriminate H. }
  destruct (list_transcripts env video_id) as [e|tl].
  - repeat split; cbn; try constructor; try lia; try tauto.
  - unfold korean_paths, english_paths.
    destruct (wants_korean (language_var app) && korean_ok env tl fp is_srt),
             (wants_english (language_var app)),
             (english_ok env tl fp is_srt), (auto_english_ok env tl fp is_srt);
      cbn [List.app List.length List.map In];
      (split; [repeat constructor; cbn; intuition congruence|]);
      (split; [lia|]); (split; [intuition congruence|]);
      intuition congruence.
Qed.

Lemma caption_files_distinct_witness :
  NoDup (List.map fst (files (snd (download_caption PathSamples.env_ko_and_en
                                     MultiSpec.app_all "abc" "u" "Clip" true
                                     FilenameSpec.world0)))) /\
  files (snd (download_caption PathSamples.env_ko_and_en MultiSpec.app_all
                "abc" "u" "Clip" true FilenameSpec.world0)) <> [].
Proof.
  destruct (caption_files_distinct PathSamples.env_ko_and_en MultiSpec.app_all
              "abc" "u" "Clip" true FilenameSpec.world0)
    as (cs & fs & _ & _ & Hf & Hnodup & _).
  cbv zeta in Hf. split.
  - rewrite Hf. exact Hnodup.
  - discriminate.
Defined.

End PathFacts.

(** ** Order of the tasks *)

Module OrderFacts.

Import V101 MediaSpec PathSpec SessionSpec OrderSpec.

Lemma summarize_keeps (app : App) (success : Opt -> bool) (w : World) :
  exists w', summarize app success w = (inr tt, w') /\
             calls w' = calls w /\ files w' = files w.
Proof.
  unfold summarize, update_status, modify, ret.
  repeat match goal with
         | |- context [if ?c then _ else _] => destruct c
         end; eexists; repeat split; reflexivity.
Qed.

Section Worker.

Variable env : Env.
Variable app : App.
Variables video_id url safe_title : string.

Lemma attempts_ret {A : Type} (a : A) : attempts (ret a) [].
Proof.
  intros w. exists a, w, []. rewrite app_nil_r. repeat split; reflexivity.
Qed.

Lemma attempts_bind {A B : Type} (m : M A) (k : A -> M B) (f1 f2 : list string) :
  attempts m f1 -> (forall a, attempts (k a) f2) -> attempts (bind m k) (f1 ++ f2).
Proof.
  intros Hm Hk w. destruct (Hm w) as (a & w1 & c1 & H1 & Hc1 & Hd1).
  destruct (Hk a w1) as (b & w2 & c2 & H2 & Hc2 & Hd2).
  exists b, w2, (c1 ++ c2)%list. unfold bind. rewrite H1, H2.
  split; [reflexivity|]. rewrite Hc2, Hc1, <- app_assoc.
  split; [reflexivity|]. rewrite MediaFacts.download_formats_app. congruence.
Qed.

Lemma attempts_caption (is_srt : bool) :
  attempts (download_caption env app video_id url safe_title is_srt) [].
Proof.
  intros w.
  destruct (PathFacts.download_caption_adds env app video_id url safe_title is_srt w)
    as (b & w' & H & (cs & Hc & Hd) & _).
  now exists b, w', cs.
Qed.

Lemma attempts_media (mode : Mode) :
  attempts (download_video_audio env app url safe_title mode) [ydl_format app mode].
Proof.
  intros w.
  destruct (MediaFacts.download_video_audio_run env app url safe_title mode w)
    as (opts & w' & H & Hfmt & _ & _ & Hc & _).
  eexists _, w', [CallDownload opts url]. split; [exact H|]. split; [exact Hc|].
  cbn. now rewrite Hfmt.
Qed.

Lemma attempts_selected :
  attempts (run_selected env app video_id url safe_title)
           ((if video_check app then [ydl_format app video] else []) ++
            (if audio_check app then [ydl_format app audio] else []))%list.
Proof.
  unfold run_selected, options_selected.
  change (attempts ?m ?f) with (attempts m ([] ++ f)%list).
  apply attempts_bind.
  - destruct (sub_check app); [|apply attempts_ret].
    rewrite <- (app_nil_r []). apply attempts_bind; [apply attempts_caption|].
    intros ok. apply attempts_ret.
  - intros s1. apply attempts_bind.
    + destruct (video_check app); [|apply attempts_ret].
      rewrite <- (app_nil_r [_]). apply attempts_bind; [apply attempts_media|].
      intros ok. apply attempts_ret.
    + intros s2.
      rewrite <- (app_nil_r (if audio_check app then _ else _)).
      apply attempts_bind.
      * destruct (audio_check app); [|apply attempts_ret].
        rewrite <- (app_nil_r [_]). apply attempts_bind; [apply attempts_media|].
        intros ok. apply attempts_ret.
      * intros s3. apply attempts_ret.
Qed.

End Worker.

(** X4.  The worker of revision 1.0.1 never raises and attempts every
    selected media download, video before audio, whatever the outcome of
    the tasks before it: the downloads it starts are exactly the video
    format when video is selected followed by the audio format when audio
    is selected. *)
Theorem every_selected_media_attempted (env : Env) (app : App)
    (video_id url safe_title : string) (w : World) :
  exists w' cs,
    run_tasks env app video_id url safe_title w = (inr tt, w') /\
    calls w' = (calls w ++ cs)%list /\
    download_formats cs =
      ((if video_check app then [ydl_format app video] else []) ++
       (if audio_check app then [ydl_format app audio] else []))%list.
Proof.
  destruct (attempts_selected env app video_id url safe_title w)
    as (success & w1 & cs & Hrun & Hc & Hd).
  destruct (summarize_keeps app success w1) as (w2 & Hsum & Hc2 & _).
  exists w2, cs. unfold run_tasks, try_except. unfold bind at 1.
  rewrite Hrun, Hsum. split; [reflexivity|]. split; [congruence | exact Hd].
Qed.

End OrderFacts.

(** ** Revision 1.0.0: the worker and its tasks *)

Module WorkerFacts.

Import HookSpec MediaSpec SessionSpec.

Lemma for_each_abort (pre rest : list (M unit)) (t : M unit) (e : PyExc)
    (w w1 w2 : World) :
  for_each (fun task => task) pre w = (inr tt, w1) ->
  t w1 = (inl e, w2) ->
  for_each (fun task => task) (pre ++ t :: rest) w = (inl e, w2).
Proof.
  revert w. induction pre as [|x r IH]; intros w Hpre Ht; cbn [List.app for_each] in *.
  - unfold ret in Hpre. injection Hpre as <-. unfold bind. now rewrite Ht.
  - unfold bind in *. destruct (x w) as [[e0|[]] w0]; [discriminate|].
    now apply IH.
Qed.

(** X5.  The worker of revision 1.0.0 stops at the first task that raises:
    the tasks after it are never run, the completion line is not shown and
    the status bar ends on the error line of that exception.  When no task
    raises it ends on the completion line.  A media download raises exactly
    when the downloader ended with an error; it asks for the format of the
    mode, writes to [<title>.<ext>] and, unlike revision 1.0.1, requests no
    audio extraction. *)
Theorem v100_first_failure_aborts (loc : Locale) (env : Env) (app : App) :
  (forall (pre rest : list (M unit)) (t : M unit) (e : PyExc) (w w1 w2 : World),
      for_each (fun task => task) pre w = (inr tt, w1) ->
      t w1 = (inl e, w2) ->
      V100.run_tasks loc (pre ++ t :: rest) w =
        (inr tt, say (msg_error loc ++ exc_msg e) w2)) /\
  (forall (tasks : list (M unit)) (w w' : World),
      for_each (fun task => task) tasks w = (inr tt, w') ->
      V100.run_tasks loc tasks w = (inr tt, say (msg_all_completed loc) w')) /\
  (forall (url safe_title : string) (mode : Mode) (w : World),
      exists opts w',
        V100.download_video_audio env app url safe_title mode w =
          (match run_error (ydl_download env opts url) with
           | Some e => inl e
           | None => inr tt
           end, w') /\
        opt_format opts = ydl_format app mode /\
        opt_outtmpl opts =
          path_join env (download_path app) (safe_title ++ "." ++ mode_ext mode) /\
        opt_extract_audio opts = None /\
        calls w' = (calls w ++ [CallDownload opts url])%list /\
        files w' = (files w ++ run_files (ydl_download env opts url))%list /\
        status_log w' = status_log w).
Proof.
  split; [|split].
  - intros pre rest t e w w1 w2 Hpre Ht.
    unfold V100.run_tasks, try_except, any_exception. unfold bind at 1.
    rewrite (for_each_abort pre rest t e w w1 w2 Hpre Ht). reflexivity.
  - intros tasks w w' H.
    unfold V100.run_tasks, try_except, any_exception. unfold bind at 1.
    rewrite H. reflexivity.
  - intros url safe_title mode w. unfold V100.download_video_audio. cbv zeta.
    match goal with |- context [run_ydl env ?o url _] => set (opts := o) end.
    destruct (MediaFacts.run_ydl_run env opts url mode w)
      as (w' & Hrun & Hc & Hf & Hs & _).
    exists opts, w'. repeat split; try reflexivity; assumption.
Qed.

Lemma v100_first_failure_aborts_witness :
  let w := snd (V100.start_download locale_en env_video_fails app_media (world_at 0 0)) in
  status w = Some "Error occurred: ERROR: network unreachable" /\
  download_formats (calls w) = ["bv*[height<=1080]+ba/b[height<=1080]"] /\
  files w = [].
Proof.
  cbv zeta.
  destruct (v100_first_failure_aborts locale_en env_video_fails app_media) as (Habort & _).
  assert (Hstart :
    V100.start_download locale_en env_video_fails app_media (world_at 0 0) =
    V100.run_tasks locale_en
      ([] ++ V100.download_video_audio env_video_fails app_media
               (url_entry app_media) "Clip" video ::
             [V100.download_video_audio env_video_fails app_media
                (url_entry app_media) "Clip" audio])
      (world_at 0 0)) by reflexivity.
  rewrite Hstart.
  destruct (V100.download_video_audio env_video_fails app_media
              (url_entry app_media) "Clip" video (world_at 0 0))
    as [[e|u] w2] eqn:Ht.
  - rewrite (Habort [] _ _ e _ _ w2 eq_refl Ht).
    vm_compute in Ht. injection Ht as <- <-. repeat split; reflexivity.
  - vm_compute in Ht. discriminate Ht.
Defined.

Ltac caption_ends side :=
  eexists; eexists; (split; [reflexivity|]);
  cbn; rewrite <- ?app_assoc; cbn [List.app];
  (split; [reflexivity|]); (split; [reflexivity|]);
  (split; [reflexivity|]); (split; [reflexivity|]);
  side; eexists; repeat split; reflexivity.

(** X6.  In revision 1.0.0 [download_caption] never raises, so a failed
    caption task never keeps the video or audio task from running.  Either
    it writes exactly one file, at [<title>.srt] or [<title>.txt], sets the
    caption gauge to 100 and shows nothing; or it writes no file, leaves
    the gauge as it was and shows one line that starts with the failure
    text.  It starts no media download and leaves the other gauges alone. *)
Theorem v100_download_caption_outcome (loc : Locale) (env : Env) (app : App)
    (video_id url safe_title : string) (is_srt : bool) (w : World) :
  exists w' cs,
    V100.download_caption loc env app video_id url safe_title is_srt w = (inr tt, w') /\
    calls w' = (calls w ++ cs)%list /\ download_formats cs = [] /\
    video_progress_var w' = video_progress_var w /\
    audio_progress_var w' = audio_progress_var w /\
    ((exists content,
        files w' = (files w ++ [(SelectSpec.caption_path env app safe_title is_srt,
                                 content)])%list /\
        caption_progress_var w' = 100%Q /\
        status_log w' = status_log w) \/
     (exists detail,
        files w' = files w /\
        caption_progress_var w' = caption_progress_var w /\
        status_log w' = (status_log w ++ [(msg_subtitle_failed loc ++ detail)%string])%list)).
Proof.
  unfold V100.download_caption, call_list_transcripts, call_translate, call_fetch,
    open_write, write_files, log_call, update_status, modify, raise, lift, ret,
    SelectSpec.caption_path.
  unfold try_except, bind, any_exception. cbn beta iota.
  destruct (list_transcripts env video_id) as [e|tl]; cbn beta iota;
    [caption_ends ltac:(right)|].
  rewrite SelectFacts.select_transcript_spec.
  destruct (SelectSpec.select_spec tl) as [t|]; cbn beta iota; [|caption_ends ltac:(right)].
  destruct (is_translatable t); cbn beta iota.
  - destruct (translate env t "en") as [e|t']; cbn beta iota; [caption_ends ltac:(right)|].
    destruct (fetch_result t') as [e|data]; cbn beta iota; [caption_ends ltac:(right)|].
    cbn [files set_calls].
    destruct (can_open env _); cbn beta iota; [caption_ends ltac:(left) | caption_ends ltac:(right)].
  - destruct (fetch_result t) as [e|data]; cbn beta iota; [caption_ends ltac:(right)|].
    cbn [files set_calls].
    destruct (can_open env _); cbn beta iota; [caption_ends ltac:(left) | caption_ends ltac:(right)].
Qed.

End WorkerFacts.

(** ** Video identifier *)

Module UrlFacts.

Import UrlSpec.

Lemma before_amp_no_amp (s : string) : no_amp (before_amp s) = true.
Proof.
  unfold no_amp. induction s as [|c r IH]; simpl; [reflexivity|].
  destruct (c =? "&")%char eqn:E; [reflexivity|]. simpl. now rewrite E.
Qed.

Lemma before_amp_tail (id rest : string) :
  no_amp id = true -> is_query_tail rest = true -> before_amp (id ++ rest) = id.
Proof.
  unfold no_amp. induction id as [|c r IH]; simpl; intros Hid Hrest.
  - destruct rest as [|c r]; [reflexivity|]. simpl in *. now rewrite Hrest.
  - apply andb_prop in Hid as [Hc Hr].
    destruct (c =? "&")%char; [discriminate|]. now rewrite IH.
Qed.

(** The test hidden in the pattern [String "v" (String "=" t)]. *)
Lemma head_match (c : ascii) (r : string) :
  match String c r with
  | String "v" (String "=" t) => Some t
  | _ => None
  end = if starts_v_eq (String c r)
        then match r with String _ t => Some t | EmptyString => None end
        else None.
Proof.
  destruct r as [|b t].
  - destruct c as [[] [] [] [] [] [] [] []]; reflexivity.
  - destruct c as [[] [] [] [] [] [] [] []]; try reflexivity.
    destruct b as [[] [] [] [] [] [] [] []]; reflexivity.
Qed.

Lemma after_last_v_step (c : ascii) (r : string) :
  after_last_v (String c r) =
  match after_last_v r with
  | Some t => Some t
  | None => if starts_v_eq (String c r)
            then match r with String _ t => Some t | EmptyString => None end
            else None
  end.
Proof.
  rewrite <- head_match. reflexivity.
Qed.

Lemma after_last_v_none (s : string) : has_v_eq s = false -> after_last_v s = None.
Proof.
  induction s as [|c r IH]; [reflexivity|].
  cbn [has_v_eq]. intros H. apply orb_false_elim in H as [Hs Hr].
  rewrite after_last_v_step, (IH Hr), Hs. reflexivity.
Qed.

Lemma after_last_v_found (pre t : string) :
  has_v_eq t = false -> after_last_v (pre ++ "v=" ++ t) = Some t.
Proof.
  intros Ht. induction pre as [|c r IH].
  - cbn [append]. rewrite after_last_v_step, after_last_v_step, (after_last_v_none t Ht).
    destruct t; reflexivity.
  - cbn [append]. rewrite after_last_v_step. cbn [append] in IH. now rewrite IH.
Qed.

(** X7.  The video identifier cut out of the URL never holds an [&].  When
    the last [v=] of the URL is followed by an identifier without [&] and
    then by nothing or by further [&] parameters, the identifier is found
    exactly.  A URL without [v=] (a short link, for one) is taken as its own
    identifier, up to the first [&]. *)
Theorem video_id_of_spec :
  (forall url, no_amp (video_id_of url) = true) /\
  (forall pre id rest,
      has_v_eq (id ++ rest) = false -> no_amp id = true -> is_query_tail rest = true ->
      video_id_of (pre ++ "v=" ++ id ++ rest) = id) /\
  (forall url, has_v_eq url = false -> video_id_of url = before_amp url).
Proof.
  split; [|split].
  - intros url. apply before_amp_no_amp.
  - intros pre id rest Hv Hid Hrest. unfold video_id_of.
    rewrite (after_last_v_found pre (id ++ rest) Hv).
    apply before_amp_tail; assumption.
  - intros url Hv. unfold video_id_of. now rewrite (after_last_v_none url Hv).
Qed.

Lemma video_id_of_spec_witness :
  video_id_of ("https://www.youtube.com/watch?" ++ "v=" ++ "dQw4w9WgXcQ" ++ "&t=42s")
    = "dQw4w9WgXcQ" /\
  video_id_of "https://youtu.be/dQw4w9WgXcQ?t=42s" = "https://youtu.be/dQw4w9WgXcQ?t=42s".
Proof.
  destruct video_id_of_spec as (_ & Hfound & Hnone). split.
  - apply Hfound; reflexivity.
  - rewrite Hnone by reflexivity. reflexivity.
Defined.

End UrlFacts.

(** ** Lines of the caption files *)

Module LinesFacts.

Import PyStr PyNum Subtitle LinesSpec.

Lemma no_LF_app (a b : string) :
  no_LF a = true -> no_LF b = true -> no_LF (a ++ b) = true.
Proof.
  unfold no_LF. induction a as [|c a IH]; simpl; intros Ha Hb; [exact Hb|].
  apply andb_prop in Ha as [Hc Ha]. rewrite Hc. simpl. now apply IH.
Qed.

Lemma count_LF_app (a b : string) : count_LF (a ++ b) = (count_LF a + count_LF b)%nat.
Proof. induction a as [|c a IH]; simpl; [reflexivity | rewrite IH; lia]. Qed.

Lemma no_LF_count (a : string) : no_LF a = true -> count_LF a = 0%nat.
Proof.
  unfold no_LF. induction a as [|c a IH]; simpl; intros H; [reflexivity|].
  apply andb_prop in H as [Hc Ha]. destruct (c =? LF)%char; [discriminate|]. now apply IH.
Qed.

Lemma split_lines_line (l rest : string) :
  no_LF l = true -> split_lines (l ++ String LF rest) = l :: split_lines rest.
Proof.
  unfold no_LF. induction l as [|c l IH]; simpl; intros H.
  - reflexivity.
  - apply andb_prop in H as [Hc Hl]. destruct (c =? LF)%char; [discriminate|].
    now rewrite (IH Hl).
Qed.

Lemma uint_no_LF (d : Decimal.uint) : no_LF (NilEmpty.string_of_uint d) = true.
Proof. induction d; simpl; auto. Qed.

Lemma zeros_no_LF (k : nat) : no_LF (zeros k) = true.
Proof. induction k; simpl; auto. Qed.

Lemma fmt_int0_no_LF (w : nat) (n : Z) : no_LF (fmt_int0 w n) = true.
Proof.
  unfold fmt_int0. apply no_LF_app; [destruct (n <? 0)%Z; reflexivity|].
  apply no_LF_app; [apply zeros_no_LF | apply uint_no_LF].
Qed.

Lemma format_time_no_LF (seconds : Q) : no_LF (format_time seconds) = true.
Proof.
  unfold format_time.
  destruct (Float64.float_divmod seconds 3600) as [hours remainder].
  destruct (Float64.float_divmod remainder 60) as [minutes secs].
  repeat (apply no_LF_app; [first [apply fmt_int0_no_LF | reflexivity]|]).
  apply fmt_int0_no_LF.
Qed.

Lemma write_txt_lines (entries : list Entry) (file : string) :
  write_txt entries file =
  (file ++ String.concat "" (List.map (fun e => text e ++ NL) entries))%string.
Proof.
  revert file. induction entries as [|e r IH]; intros file; simpl.
  - now rewrite Basics.append_nil_r.
  - rewrite IH, Basics.append_assoc. f_equal.
    destruct r as [|e' r']; simpl; [now rewrite Basics.append_nil_r | reflexivity].
Qed.

Lemma concat_cons (x : string) (l : list string) :
  String.concat "" (x :: l) = (x ++ String.concat "" l)%string.
Proof. destruct l; simpl; [now rewrite Basics.append_nil_r | reflexivity]. Qed.

(** X8.  In plain-text mode the file is the texts in order, each followed
    by a newline.  When no text holds a newline, reading the file line by
    line gives back exactly the texts; in general embedded newlines are
    kept as they are, so the file has one newline per entry plus those of
    the texts. *)
Theorem txt_lines_round_trip (entries : list Entry) :
  caption_file_content false entries =
    String.concat "" (List.map (fun e => text e ++ NL)%string entries) /\
  (List.forallb (fun e => no_LF (text e)) entries = true ->
   split_lines (caption_file_content false entries) = List.map text entries) /\
  count_LF (caption_file_content false entries) =
    (List.length entries + total_LF entries)%nat.
Proof.
  unfold caption_file_content. rewrite write_txt_lines. cbn [append].
  split; [reflexivity|]. split.
  - unfold NL. induction entries as [|e r IH]; intros H; [reflexivity|].
    cbn [List.forallb List.map] in *. apply andb_prop in H as [He Hr].
    rewrite concat_cons, Basics.append_assoc. cbn [append].
    rewrite (split_lines_line _ _ He), (IH Hr). reflexivity.
  - unfold NL. induction entries as [|e r IH]; [reflexivity|].
    cbn [List.map List.length total_LF]. rewrite concat_cons, !count_LF_app, IH.
    cbn. lia.
Qed.

Lemma txt_lines_round_trip_witness :
  split_lines (caption_file_content false
                 [mkEntry 0 (Some 2%Q) "Hi there"; mkEntry 2 None ""; mkEntry 3 None "Bye"])
  = ["Hi there"; ""; "Bye"].
Proof.
  destruct (txt_lines_round_trip
              [mkEntry 0 (Some 2%Q) "Hi there"; mkEntry 2 None ""; mkEntry 3 None "Bye"])
    as (_ & H & _).
  exact (H eq_refl).
Defined.

Lemma cue_block_lines (n : nat) (e : Entry) (rest : string) :
  split_lines (SrtSpec.cue_block n e ++ rest) = (cue_lines n e ++ split_lines rest)%list.
Proof.
  unfold cue_lines.
  set (d := match duration e with Some d => d | None => 0%Q end).
  set (range := (format_time (start e) ++ " --> " ++
                 format_time (Float64.fadd (start e) d))%string).
  assert (E : (SrtSpec.cue_block n e ++ rest)%string =
              (str_nat n ++ String LF
                 (range ++ String LF
                    (replace_newlines (text e) ++ String LF (String LF rest))))%string).
  { unfold SrtSpec.cue_block, NL, range. fold d.
    rewrite !Basics.append_assoc. reflexivity. }
  rewrite E.
  rewrite split_lines_line by (unfold str_nat; apply uint_no_LF).
  rewrite split_lines_line.
  - rewrite split_lines_line by apply SrtFacts.replace_newlines_no_LF.
    reflexivity.
  - unfold range. apply no_LF_app; [apply format_time_no_LF|].
    apply no_LF_app; [reflexivity | apply format_time_no_LF].
Qed.

Lemma cue_blocks_lines (n : nat) (entries : list Entry) :
  split_lines (String.concat "" (SrtSpec.cue_blocks n entries)) = all_cue_lines n entries.
Proof.
  revert n. induction entries as [|e r IH]; intros n; [reflexivity|].
  cbn [SrtSpec.cue_blocks all_cue_lines].
  rewrite concat_cons, cue_block_lines, IH. reflexivity.
Qed.

Lemma all_cue_lines_length (n : nat) (entries : list Entry) :
  List.length (all_cue_lines n entries) = (4 * List.length entries)%nat.
Proof.
  revert n. induction entries as [|e r IH]; intros n; [reflexivity|].
  cbn [all_cue_lines List.length List.app cue_lines]. rewrite IH. lia.
Qed.

Lemma all_cue_lines_nth (entries : list Entry) (n k : nat) (e : Entry) :
  nth_error entries k = Some e ->
  nth_error (all_cue_lines n entries) (4 * k) = Some (str_nat (n + k)) /\
  nth_error (all_cue_lines n entries) (4 * k + 3) = Some EmptyString.
Proof.
  revert n k. induction entries as [|x r IH]; intros n k Hk.
  - destruct k; discriminate Hk.
  - destruct k as [|k].
    + injection Hk as ->. rewrite Nat.add_0_r. split; reflexivity.
    + cbn [nth_error] in Hk. destruct (IH (S n) k Hk) as [H1 H2].
      replace (4 * S k)%nat with (S (S (S (S (4 * k))))) by lia.
      replace (S (S (S (S (4 * k)))) + 3)%nat with (S (S (S (S (4 * k + 3))))) by lia.
      cbn [all_cue_lines cue_lines List.app nth_error].
      rewrite H1, H2. split; [|reflexivity]. f_equal. f_equal. lia.
Qed.

(** X9.  Read line by line, the subtitle file is four lines per entry,
    whatever the texts hold: the number of the cue counted from 1, the time
    range, the text on a single line, and an empty line. *)
Theorem srt_four_lines_per_cue (entries : list Entry) :
  split_lines (caption_file_content true entries) = all_cue_lines 1 entries /\
  List.length (split_lines (caption_file_content true entries)) =
    (4 * List.length entries)%nat /\
  (forall k e, nth_error entries k = Some e ->
               nth_error (split_lines (caption_file_content true entries)) (4 * k)
                 = Some (str_nat (k + 1)) /\
               nth_error (split_lines (caption_file_content true entries)) (4 * k + 3)
                 = Some EmptyString).
Proof.
  assert (H : split_lines (caption_file_content true entries) = all_cue_lines 1 entries).
  { unfold caption_file_content. rewrite SrtFacts.write_srt_blocks. cbn [append].
    apply cue_blocks_lines. }
  rewrite H. split; [reflexivity|]. split; [apply all_cue_lines_length|].
  intros k e Hk. rewrite (Nat.add_comm k 1).
  exact (all_cue_lines_nth entries 1 k e Hk).
Qed.

Lemma srt_four_lines_per_cue_witness :
  nth_error (split_lines (caption_file_content true SrtSpec.hi_bye)) 4 = Some "2".
Proof.
  destruct (srt_four_lines_per_cue SrtSpec.hi_bye) as (_ & _ & H).
  exact (proj1 (H 1%nat (mkEntry 2 (Some 3%Q) "Bye") eq_refl)).
Defined.

End LinesFacts.

(** ** Reading time stamps back *)

Module StampFacts.

Import PyStr PyNum Subtitle TimeSpec StampSpec.

Lemma uint_digits (d : Decimal.uint) :
  PyStr.forallb is_digit (NilEmpty.string_of_uint d) = true.
Proof. induction d; simpl; auto. Qed.

Lemma zeros_digits (k : nat) : PyStr.forallb is_digit (zeros k) = true.
Proof. induction k; simpl; auto. Qed.

Lemma forallb_app (p : ascii -> bool) (a b : string) :
  PyStr.forallb p a = true -> PyStr.forallb p b = true -> PyStr.forallb p (a ++ b) = true.
Proof.
  induction a as [|c a IH]; simpl; intros Ha Hb; [exact Hb|].
  apply andb_prop in Ha as [Hc Ha]. rewrite Hc. simpl. now apply IH.
Qed.

Lemma fmt_int0_nonneg (w : nat) (n : Z) :
  (0 <= n)%Z ->
  fmt_int0 w n =
  (zeros (w - 0 - String.length (NilEmpty.string_of_uint (N.to_uint (Z.abs_N n)))) ++
   NilEmpty.string_of_uint (N.to_uint (Z.abs_N n)))%string.
Proof.
  intros H. unfold fmt_int0.
  destruct (n <? 0)%Z eqn:E; [apply Z.ltb_lt in E; lia | reflexivity].
Qed.

Lemma fmt_int0_digits (w : nat) (n : Z) :
  (0 <= n)%Z -> PyStr.forallb is_digit (fmt_int0 w n) = true.
Proof.
  intros H. rewrite (fmt_int0_nonneg w n H).
  apply forallb_app; [apply zeros_digits | apply uint_digits].
Qed.

Lemma read_zeros (k : nat) (s : string) (d : Decimal.uint) :
  NilEmpty.uint_of_string s = Some d ->
  exists d', NilEmpty.uint_of_string (zeros k ++ s) = Some d' /\ N.of_uint d' = N.of_uint d.
Proof.
  intros H. induction k as [|k (d' & Hd & Hv)]; simpl.
  - now exists d.
  - exists (Decimal.D0 d'). rewrite Hd. split; [reflexivity | exact Hv].
Qed.

(** A padded field reads back as the number printed. *)
Lemma read_fmt_int0 (w : nat) (n : Z) :
  (0 <= n)%Z -> read_number (fmt_int0 w n) = Some n.
Proof.
  intros H. rewrite (fmt_int0_nonneg w n H). unfold read_number.
  destruct (read_zeros (w - 0 - String.length (NilEmpty.string_of_uint (N.to_uint (Z.abs_N n))))
              _ _ (NilEmpty.usu (N.to_uint (Z.abs_N n)))) as (d' & -> & Hv).
  rewrite Hv, DecimalN.Unsigned.of_to, N2Z.inj_abs_N, Z.abs_eq by exact H. reflexivity.
Qed.

Lemma split_at_field (sep : ascii) (a b : string) :
  is_digit sep = false -> PyStr.forallb is_digit a = true ->
  split_at sep (a ++ String sep b) = Some (a, b).
Proof.
  intros Hsep. induction a as [|c a IH]; simpl; intros Ha.
  - now rewrite Ascii.eqb_refl.
  - apply andb_prop in Ha as [Hc Ha].
    destruct (Ascii.eqb_spec c sep) as [->|_]; [congruence|].
    now rewrite (IH Ha).
Qed.

Lemma floor_millis (x : Q) :
  Qfloor (x * 1000) = (Qfloor x * 1000 + Qfloor (frac x * 1000))%Z.
Proof.
  unfold frac. rewrite Z.add_comm, <- TimeFacts.Qfloor_add_Z. apply Qfloor_comp.
  rewrite inject_Z_mult. change (inject_Z 1000) with 1000%Q. ring.
Qed.

Lemma fields_whole (x : Q) :
  (0 <= x)%Q ->
  (3600 * hours_of x + 60 * minutes_of x + seconds_of x)%Z = Qfloor x.
Proof.
  intros Hx. unfold hours_of, minutes_of, seconds_of. set (t := Qfloor x).
  pose proof (Z.mod_pos_bound t 3600). pose proof (Z.mod_pos_bound t 60).
  Z.div_mod_to_equations. lia.
Qed.

(** X10.  The time stamp printed for a binary64 number of seconds, not
    negative and below [2^53], reads back as the fields printed: no time
    stamp is ambiguous, also past 99 hours.  The instant the fields denote
    is the instant cut to the millisecond or, when the binary64 product of
    the fraction by 1000 rounds up to a whole number, one millisecond
    later (0.29 s is stamped 290 ms); it is the cut instant whenever that
    product is exact. *)
Theorem format_time_reads_back (seconds : Q) :
  Float64.is_binary64 seconds = true -> (0 <= seconds)%Q -> (seconds < two53)%Q ->
  parse_stamp (format_time seconds) =
    Some (hours_of seconds, minutes_of seconds, seconds_of seconds, millis_of seconds) /\
  stamp_millis (hours_of seconds, minutes_of seconds, seconds_of seconds, millis_of seconds)
    = (Qfloor seconds * 1000 + millis_of seconds)%Z /\
  (Qfloor (seconds * 1000) <=
   stamp_millis (hours_of seconds, minutes_of seconds, seconds_of seconds, millis_of seconds)
   <= Qfloor (seconds * 1000) + 1)%Z /\
  (Float64.is_binary64 (frac seconds * 1000) = true ->
   stamp_millis (hours_of seconds, minutes_of seconds, seconds_of seconds, millis_of seconds)
   = Qfloor (seconds * 1000)) /\
  stamp_millis (hours_of (float_of (29 # 100)), minutes_of (float_of (29 # 100)),
                seconds_of (float_of (29 # 100)), millis_of (float_of (29 # 100)))
    = (Qfloor (float_of (29 # 100) * 1000) + 1)%Z.
Proof.
  intros Hb Hpos H53.
  destruct (TimeFacts.millis_bounds seconds Hb Hpos H53) as [Hms1 Hms2].
  assert (Hst : stamp_millis (hours_of seconds, minutes_of seconds, seconds_of seconds,
                              millis_of seconds)
                = (Qfloor seconds * 1000 + millis_of seconds)%Z).
  { unfold stamp_millis. now rewrite (fields_whole seconds Hpos). }
  split; [|split; [exact Hst | split; [|split]]].
  - rewrite (TimeFacts.format_time_fields seconds Hb Hpos H53).
    pose proof (TimeFacts.Qfloor_nonneg _ Hpos) as Ht.
    assert (Hh : (0 <= hours_of seconds)%Z) by (apply Z.div_pos; [exact Ht | lia]).
    assert (Hm : (0 <= minutes_of seconds)%Z).
    { unfold minutes_of. apply Z.div_pos; [apply Z.mod_pos_bound|]; lia. }
    assert (Hs : (0 <= seconds_of seconds)%Z) by (apply Z.mod_pos_bound; lia).
    assert (Hms : (0 <= millis_of seconds)%Z) by lia.
    unfold parse_stamp.
    change (fmt_int0 2 (hours_of seconds) ++ ":" ++ ?r)%string
      with (fmt_int0 2 (hours_of seconds) ++ String ":" r)%string.
    rewrite split_at_field by (reflexivity || now apply fmt_int0_digits).
    change (fmt_int0 2 (minutes_of seconds) ++ ":" ++ ?r)%string
      with (fmt_int0 2 (minutes_of seconds) ++ String ":" r)%string.
    rewrite split_at_field by (reflexivity || now apply fmt_int0_digits).
    change (fmt_int0 2 (seconds_of seconds) ++ "," ++ ?r)%string
      with (fmt_int0 2 (seconds_of seconds) ++ String "," r)%string.
    rewrite split_at_field by (reflexivity || now apply fmt_int0_digits).
    rewrite !read_fmt_int0 by assumption. reflexivity.
  - rewrite Hst, (floor_millis seconds). lia.
  - intros Hex. rewrite Hst, (floor_millis seconds). f_equal.
    unfold millis_of, Float64.fmul. apply Qfloor_comp. apply Qeq_bool_iff. exact Hex.
  - vm_compute. reflexivity.
Qed.

Lemma format_time_reads_back_witness :
  parse_stamp (format_time (36000075 # 100)) = Some (100, 0, 0, 750)%Z /\
  parse_stamp (format_time (float_of (435 # 100))) = Some (0, 0, 4, 349)%Z.
Proof.
  assert (Hb : Float64.is_binary64 (36000075 # 100) = true) by (vm_compute; reflexivity).
  assert (H0 : (0 <= 36000075 # 100)%Q) by (unfold Qle; simpl; lia).
  assert (H53 : (36000075 # 100 < two53)%Q) by (vm_compute; reflexivity).
  assert (Hb' : Float64.is_binary64 (float_of (435 # 100)) = true) by (vm_compute; reflexivity).
  assert (H0' : (0 <= float_of (435 # 100))%Q) by (vm_compute; discriminate).
  assert (H53' : (float_of (435 # 100) < two53)%Q) by (vm_compute; reflexivity).
  split.
  - rewrite (proj1 (format_time_reads_back (36000075 # 100) Hb H0 H53)).
    vm_compute. reflexivity.
  - rewrite (proj1 (format_time_reads_back (float_of (435 # 100)) Hb' H0' H53')).
    vm_compute. reflexivity.
Defined.

End StampFacts.

(** ** Settings store *)

Module ConfigFacts.

Import Config ConfigSpec LinesSpec.

(** Reading one escaped character. *)
Lemma read_body_step (c : ascii) (tail : string) :
  read_body (escape_char c ++ tail) =
  match read_body tail with
  | Some (d, rest) => Some (String c d, rest)
  | None => None
  end.
Proof.
  destruct c as [[] [] [] [] [] [] [] []];
    cbv -[read_body]; cbn [read_body]; cbv -[read_body]; reflexivity.
Qed.

Lemma read_body_escape (s rest : string) :
  read_body (escape s ++ String DQUOTE rest) = Some (s, rest).
Proof.
  induction s as [|c r IH]; [reflexivity|].
  cbn [escape]. rewrite Basics.append_assoc, read_body_step, IH. reflexivity.
Qed.

Lemma escape_char_printable (c : ascii) :
  PyStr.forallb printable (escape_char c) = true.
Proof. destruct c as [[] [] [] [] [] [] [] []]; reflexivity. Qed.

Lemma escape_printable (s : string) : PyStr.forallb printable (escape s) = true.
Proof.
  induction s as [|c r IH]; [reflexivity|]. cbn [escape].
  apply StampFacts.forallb_app; [apply escape_char_printable | exact IH].
Qed.

Lemma json_string_printable (s : string) :
  PyStr.forallb printable (json_string s) = true.
Proof.
  unfold json_string. cbn [PyStr.forallb]. apply andb_true_intro.
  split; [reflexivity|].
  apply StampFacts.forallb_app; [apply escape_printable | reflexivity].
Qed.

Lemma printable_written (s : string) :
  PyStr.forallb printable s = true -> PyStr.forallb written_char s = true.
Proof.
  unfold written_char. induction s as [|c r IH]; simpl; intros H; [reflexivity|].
  apply andb_prop in H as [Hc Hr]. now rewrite Hc, (IH Hr).
Qed.

Lemma printable_no_LF (s : string) :
  PyStr.forallb printable s = true -> count_LF s = 0%nat.
Proof.
  induction s as [|c r IH]; simpl; intros H; [reflexivity|].
  apply andb_prop in H as [Hc Hr]. rewrite (IH Hr).
  destruct (Ascii.eqb_spec c PyStr.LF) as [->|_]; [discriminate Hc | reflexivity].
Qed.

Lemma read_json_string_round (s rest : string) :
  read_json_string (json_string s ++ rest) = Some (s, rest).
Proof.
  unfold json_string, read_json_string. cbn [append].
  rewrite Ascii.eqb_refl, Basics.append_assoc. cbn [append].
  apply read_body_escape.
Qed.

Lemma read_config_round (path : string) : read_config (config_json path) = Some path.
Proof.
  unfold read_config, config_json.
  change (strip_prefix ("{" ++ Subtitle.NL ++ "  ")
            ("{" ++ Subtitle.NL ++ "  " ++ ?r))
    with (@Some string r).
  cbv beta iota. rewrite read_json_string_round. rewrite String.eqb_refl.
  change (strip_prefix ": " (": " ++ ?r)) with (@Some string r).
  cbv beta iota. rewrite read_json_string_round. rewrite String.eqb_refl.
  reflexivity.
Qed.

(** X11.  [save_config] never raises and never touches the status bar, the
    gauges or the calls: a failure only goes to the console.  When the
    settings file can be created it holds the one-entry object of the
    download path, on three lines and without any bare control character;
    whatever characters the path holds, the path can be read back from the
    file, so different paths never give the same file. *)
Theorem save_config_spec (env : Env) (app : App) (msg_save_failed : string) (w : World) :
  (exists printed w',
      save_config env app msg_save_failed w = (inr printed, w') /\
      status_log w' = status_log w /\ calls w' = calls w /\
      caption_progress_var w' = caption_progress_var w /\
      video_progress_var w' = video_progress_var w /\
      audio_progress_var w' = audio_progress_var w /\
      (can_open env CONFIG_FILE = true ->
       printed = None /\
       files w' = (files w ++ [(CONFIG_FILE, config_json (download_path app))])%list) /\
      (can_open env CONFIG_FILE = false ->
       files w' = files w /\
       exists detail, printed = Some (msg_save_failed ++ detail)%string)) /\
  (forall path,
      read_config (config_json path) = Some path /\
      count_LF (config_json path) = 2%nat /\
      PyStr.forallb written_char (config_json path) = true) /\
  (forall p1 p2, config_json p1 = config_json p2 -> p1 = p2).
Proof.
  split; [|split].
  - unfold save_config, open_write, write_files, modify, raise, ret.
    unfold try_except, bind, any_exception. cbv zeta.
    destruct (can_open env CONFIG_FILE); eexists; eexists;
      (split; [reflexivity|]); cbn;
      repeat split; try reflexivity; try discriminate.
    eexists. reflexivity.
  - intros path. split; [apply read_config_round|]. split.
    + unfold config_json. rewrite !LinesFacts.count_LF_app.
      rewrite (printable_no_LF _ (json_string_printable path)). reflexivity.
    + unfold config_json.
      repeat (apply StampFacts.forallb_app;
              [first [reflexivity
                     | apply printable_written, json_string_printable]|]).
      reflexivity.
  - intros p1 p2 H. pose proof (read_config_round p1) as H1.
    rewrite H, read_config_round in H1. now injection H1.
Qed.

Lemma save_config_spec_witness :
  (exists w', save_config (FilenameSpec.env_title (inr "Clip")) app_tricky_path
                "Error saving configuration file: " FilenameSpec.world0 = (inr None, w') /\
              files w' = [(CONFIG_FILE, config_json (download_path app_tricky_path))]) /\
  files (snd (save_config env_read_only app_tricky_path
                "Error saving configuration file: " FilenameSpec.world0)) = [].
Proof.
  destruct (save_config_spec (FilenameSpec.env_title (inr "Clip")) app_tricky_path
              "Error saving configuration file: " FilenameSpec.world0)
    as ((printed & w' & Hrun & _ & _ & _ & _ & _ & Hok & _) & _).
  destruct (save_config_spec env_read_only app_tricky_path
              "Error saving configuration file: " FilenameSpec.world0)
    as ((printed2 & w2 & Hrun2 & _ & _ & _ & _ & _ & _ & Hko) & _).
  destruct (Hok eq_refl) as (-> & Hf). destruct (Hko eq_refl) as (Hf2 & _).
  split.
  - exists w'. split; [exact Hrun | exact Hf].
  - rewrite Hrun2. exact Hf2.
Defined.

End ConfigFacts.
